(** * NMS Companion: the search routes and the follow-up dispatcher

    A shallow embedding of the curated search route, the live community
    search route and the follow-up dispatcher of the page, followed by
    the properties proved about them.

    Conventions of the embedding.
    - A JavaScript string is a [string]: a sequence of 8-bit code units,
      read as the code units 0..255 of a UTF-16 string.  The character
      classes of the regular expressions ([\s], [\S], ...) are the
      JavaScript classes restricted to that range.
    - A JavaScript number that the code only counts with is a [nat]; the
      engagement counters of a post are integers ([Z]); the quality score
      of a post is a real number ([R]): the arithmetic of the scorer is
      read in exact arithmetic and [Math.log10] as the base-10 logarithm.
    - [x ?? d] on an optional field is a [match] on an [option]. *)

From Stdlib Require Import String Ascii List Bool Arith ZArith Lia.
From Stdlib Require Import Reals Lra Permutation Sorted DecimalString.
Import ListNotations.

Local Open Scope list_scope.
Local Open Scope string_scope.

(* ================================================================= *)
(** ** JavaScript strings and arrays *)

Module Js.

(** The class [\s] (WhiteSpace and LineTerminator) below code unit 256:
    TAB, LF, VT, FF, CR, SPACE and NO-BREAK SPACE. *)
Definition isSpace (c : ascii) : bool :=
  existsb (Ascii.eqb c) ["009"; "010"; "011"; "012"; "013"; " "; "160"]%char.

Definition notSpace (c : ascii) : bool := negb (isSpace c).

Definition inRange (lo hi : N) (c : ascii) : bool :=
  let n := N_of_ascii c in (N.leb lo n && N.leb n hi)%bool.

(** [String.prototype.toLowerCase] on one code unit: A-Z, and the
    upper-case letters of the Latin-1 block (all but the multiplication
    sign). *)
Definition toLowerChar (c : ascii) : ascii :=
  if (inRange 65 90 c
      || (inRange 192 222 c && negb (Ascii.eqb c "215")))%bool
  then ascii_of_N (N_of_ascii c + 32)
  else c.

Fixpoint mapString (f : ascii -> ascii) (s : string) : string :=
  match s with
  | EmptyString => EmptyString
  | String c s' => String (f c) (mapString f s')
  end.

Fixpoint filterString (p : ascii -> bool) (s : string) : string :=
  match s with
  | EmptyString => EmptyString
  | String c s' => if p c then String c (filterString p s') else filterString p s'
  end.

Definition toLowerCase (s : string) : string := mapString toLowerChar s.

Definition isEmpty (s : string) : bool :=
  match s with EmptyString => true | _ => false end.

(** [s.startsWith(p)]. *)
Definition startsWith (s p : string) : bool := String.prefix p s.

(** [s.includes(sub)]. *)
Fixpoint includes (s sub : string) : bool :=
  (String.prefix sub s
   || match s with
      | EmptyString => false
      | String _ s' => includes s' sub
      end)%bool.

(** [s.slice(0, -n)]. *)
Definition dropLast (n : nat) (s : string) : string :=
  substring 0 (String.length s - n) s.

(** [s.endsWith(suf)]. *)
Definition endsWith (s suf : string) : bool :=
  (Nat.leb (String.length suf) (String.length s)
   && String.eqb (substring (String.length s - String.length suf)
                            (String.length suf) s) suf)%bool.

(** Length of the longest prefix whose characters satisfy [p], and what
    follows it. *)
Fixpoint span (p : ascii -> bool) (s : string) : nat * string :=
  match s with
  | EmptyString => (0, EmptyString)
  | String c s' =>
      if p c then let (n, r) := span p s' in (S n, r) else (0, s)
  end.

Fixpoint dropString (n : nat) (s : string) : string :=
  match n, s with
  | S k, String _ s' => dropString k s'
  | _, _ => s
  end.

(** [s.trimStart()], [s.trimEnd()], [s.trim()]. *)
Fixpoint trimStart (s : string) : string :=
  match s with
  | EmptyString => EmptyString
  | String c s' => if isSpace c then trimStart s' else s
  end.

Fixpoint trimEnd (s : string) : string :=
  match s with
  | EmptyString => EmptyString
  | String c s' =>
      match trimEnd s' with
      | EmptyString => if isSpace c then EmptyString else String c EmptyString
      | t => String c t
      end
  end.

Definition trim (s : string) : string := trimEnd (trimStart s).

(** Put a character in front of the first piece of a split. *)
Definition consHead (c : ascii) (pieces : list string) : list string :=
  match pieces with
  | [] => [String c EmptyString]
  | w :: ws => String c w :: ws
  end.

(** The pieces of [s] between the characters that satisfy [isSep]: the
    empty string gives one empty piece. *)
Fixpoint splitBy (isSep : ascii -> bool) (s : string) : list string :=
  match s with
  | EmptyString => [EmptyString]
  | String c s' =>
      if isSep c then EmptyString :: splitBy isSep s'
      else consHead c (splitBy isSep s')
  end.

(** [s.split(sep)] for a one-character separator. *)
Definition split (sep : ascii) (s : string) : list string :=
  splitBy (fun c => Ascii.eqb c sep) s.

(** [l.join(sep)]. *)
Definition join (sep : string) (l : list string) : string := String.concat sep l.

(** [value.replace(re, rep)] for a global regular expression [re] whose
    match at a position depends only on the text from that position on.
    [m s] is the length of the match of [re] at the head of [s], [rep]
    builds the replacement from the matched text.  The scan goes from
    left to right; after a match it resumes behind the matched text
    ([skip] counts the characters still to pass over).  None of the
    expressions of this program matches the empty string. *)
Fixpoint replaceFrom (m : string -> option nat) (rep : string -> string)
         (skip : nat) (s : string) {struct s} : string :=
  match skip with
  | S k =>
      match s with
      | EmptyString => EmptyString
      | String _ s' => replaceFrom m rep k s'
      end
  | O =>
      match m s with
      | Some (S n) =>
          rep (substring 0 (S n) s)
          ++ match s with
             | EmptyString => EmptyString
             | String _ s' => replaceFrom m rep n s'
             end
      | _ =>
          match s with
          | EmptyString => EmptyString
          | String c s' => String c (replaceFrom m rep O s')
          end
      end
  end.

Definition replaceAll (m : string -> option nat) (rep : string -> string)
           (s : string) : string :=
  replaceFrom m rep 0 s.

(** [re.test(s)]: the expression matches at some position of [s]. *)
Fixpoint test (m : string -> option nat) (s : string) : bool :=
  match m s with
  | Some _ => true
  | None =>
      match s with
      | EmptyString => false
      | String _ s' => test m s'
      end
  end.

(** The regular expression [/\s+/]. *)
Definition reSpaces (s : string) : option nat :=
  match fst (span isSpace s) with
  | O => None
  | n => Some n
  end.

(** [value.replace(/\s+/g, " ")]. *)
Definition collapseSpaces (s : string) : string :=
  replaceAll reSpaces (fun _ => " ") s.

(** [Array.prototype.sort] with a comparator; [after a b] says that the
    comparator is positive on [(a, b)], that is, [a] is to come after
    [b].  The sort is stable, so its result is the one of the stable
    insertion sort. *)
Section Sort.
Context {A : Type} (after : A -> A -> bool).

Fixpoint insert (x : A) (l : list A) : list A :=
  match l with
  | [] => [x]
  | y :: l' => if after x y then y :: insert x l' else x :: l
  end.

Fixpoint sort (l : list A) : list A :=
  match l with
  | [] => []
  | x :: l' => insert x (sort l')
  end.

(** [a] may stand before [b]: the comparator is not positive on them. *)
Definition mayPrecede (a b : A) : Prop := after a b = false.

(** The comparator is positive on neither order of the two. *)
Definition tied (a b : A) : bool := (negb (after a b) && negb (after b a))%bool.
End Sort.

(** [l.findIndex(p)]; [None] stands for the result -1. *)
Fixpoint findIndex {A : Type} (p : A -> bool) (l : list A) : option nat :=
  match l with
  | [] => None
  | x :: l' => if p x then Some 0 else option_map S (findIndex p l')
  end.

(** [l.filter((item, index) => p item index)], with [i] the index of
    the head of [l]. *)
Fixpoint filterFrom {A : Type} (p : A -> nat -> bool) (i : nat) (l : list A)
  : list A :=
  match l with
  | [] => []
  | x :: l' => if p x i then x :: filterFrom p (S i) l' else filterFrom p (S i) l'
  end.

Definition filteri {A : Type} (p : A -> nat -> bool) (l : list A) : list A :=
  filterFrom p 0 l.

(** A number rendered in a template literal (integers only). *)
Definition numberToString (z : Z) : string :=
  NilZero.string_of_int (Z.to_int z).

End Js.


(* ================================================================= *)
(** ** The shapes shared by the routes and the page *)

Inductive SearchType : Type := howto | where_.

(** The field [mode] of a clip is always ["storyboard"]. *)
Module VideoClip.
Record t : Type := mk {
  title : string;
  note : string;
  segments : list (string * string)   (* label, detail *)
}.
End VideoClip.

Module Faq.
Record t : Type := mk { question : string; answer : string }.
End Faq.

Module SearchResult.
Record t : Type := mk {
  id : string;
  title : string;
  summary : string;
  details : string;
  source : string;
  references : list string;
  redditNotes : list string;
  faq : list Faq.t;
  video : option VideoClip.t
}.
End SearchResult.

Inductive Response : Type :=
| BadRequest (error : string)
| Ok (query : string) (type : SearchType) (results : list SearchResult.t).

(** The line feed of the template literals. *)
Definition LF : string := String "010" EmptyString.

(** The class [[a-z0-9]]. *)
Definition isWordChar (c : ascii) : bool :=
  (Js.inRange 97 122 c || Js.inRange 48 57 c)%bool.

(** [value.replace(/[^a-z0-9\s]/g, " ")] on one character. *)
Definition blankOther (c : ascii) : ascii :=
  if (isWordChar c || Js.isSpace c)%bool then c else " "%char.

(** [value.toLowerCase().replace(/[^a-z0-9\s]/g, " ").replace(/\s+/g, " ").trim()],
    the same function in the two routes ([normalizeForMatch]) and in the
    page ([normalize]). *)
Definition normalizeForMatch (value : string) : string :=
  Js.trim (Js.collapseSpaces (Js.mapString blankOther (Js.toLowerCase value))).

(** [value.replace(/\s+/g, "-")]. *)
Definition dashSpaces (s : string) : string :=
  Js.replaceAll Js.reSpaces (fun _ => "-") s.

(* ================================================================= *)
(** ** The live community search route *)

Module Live.

Definition MODE_KEYWORDS (type : SearchType) : list string :=
  match type with
  | howto => ["how"; "craft"; "build"; "farm"; "route"; "method"; "loop";
              "efficient"; "best"; "guide"]
  | where_ => ["where"; "find"; "location"; "planet"; "system"; "station";
               "spawn"; "drop"; "vendor"]
  end.

Definition META_TITLE_KEYWORDS : list string :=
  ["expedition"; "update"; "review"; "screenshot"; "photo"; "showcase";
   "trailer"; "impressions"].

Module RedditPost.
Record t : Type := mk {
  id : option string;
  title : option string;
  selftext : option string;
  subreddit_name_prefixed : option string;
  author : option string;
  score : option Z;
  num_comments : option Z;
  permalink : option string
}.
End RedditPost.

(** [x ?? d]. *)
Definition orElse {A : Type} (x : option A) (d : A) : A :=
  match x with Some v => v | None => d end.

Definition stem (token : string) : string :=
  if (Nat.ltb 4 (String.length token) && Js.endsWith token "es")%bool
  then Js.dropLast 2 token
  else if (Nat.ltb 3 (String.length token) && Js.endsWith token "s")%bool
  then Js.dropLast 1 token
  else token.

Definition tokenize (value : string) : list string :=
  map stem
      (filter (fun token => Nat.ltb 1 (String.length token))
              (Js.split " " (normalizeForMatch value))).

(** The alternation [(?:https?:\/\/|www\.)] under the flag [i]: the
    length of the scheme at the head of [s] and what follows it. *)
Fixpoint prefixCI (p s : string) : option string :=
  match p with
  | EmptyString => Some s
  | String a p' =>
      match s with
      | EmptyString => None
      | String c s' =>
          if Ascii.eqb (Js.toLowerChar c) a then prefixCI p' s' else None
      end
  end.

Definition urlScheme (s : string) : option (nat * string) :=
  match prefixCI "https://" s with
  | Some r => Some (8, r)
  | None =>
      match prefixCI "http://" s with
      | Some r => Some (7, r)
      | None =>
          match prefixCI "www." s with
          | Some r => Some (4, r)
          | None => None
          end
      end
  end.

Definition isNot (x : ascii) (c : ascii) : bool := negb (Ascii.eqb c x).

(** [/\[[^\]]+\]\((?:https?:\/\/|www\.)[^)]+\)/i]. *)
Definition reMarkdownLink (s : string) : option nat :=
  match s with
  | String "[" s1 =>
      let (n1, s2) := Js.span (isNot "]") s1 in
      match n1, s2 with
      | S _, String "]" (String "(" s3) =>
          match urlScheme s3 with
          | Some (k, s4) =>
              let (n2, s5) := Js.span (isNot ")") s4 in
              match n2, s5 with
              | S _, String ")" _ => Some (1 + n1 + 2 + k + n2 + 1)
              | _, _ => None
              end
          | None => None
          end
      | _, _ => None
      end
  | _ => None
  end.

(** [/(?:https?:\/\/|www\.)\S+/i]. *)
Definition reBareUrl (s : string) : option nat :=
  match urlScheme s with
  | Some (k, r) =>
      match fst (Js.span Js.notSpace r) with
      | O => None
      | n => Some (k + n)
      end
  | None => None
  end.

Definition erase (matched : string) : string := EmptyString.

Definition stripExternalLinks (value : string) : string :=
  Js.trim
    (Js.collapseSpaces
       (Js.replaceAll reBareUrl erase
          (Js.replaceAll reMarkdownLink erase value))).

(** [/&amp;/]. *)
Definition reAmp (s : string) : option nat :=
  if String.prefix "&amp;" s then Some 5 else None.

(** The class [[*_`>#~]]; deleting its runs deletes its characters. *)
Definition isMarkup (c : ascii) : bool :=
  existsb (Ascii.eqb c) ["*"; "_"; "`"; ">"; "#"; "~"]%char.

(** [/\s*\n\s*/]: a run of white space that holds a line feed. *)
Definition reLineBreak (s : string) : option nat :=
  let n := fst (Js.span Js.isSpace s) in
  if Js.includes (substring 0 n s) LF
  then match n with O => None | _ => Some n end
  else None.

Definition cleanText (value : string) : string :=
  Js.trim
    (Js.collapseSpaces
       (Js.replaceAll reLineBreak (fun _ => " ")
          (Js.filterString (fun c => negb (isMarkup c))
             (Js.replaceAll reAmp (fun _ => "&")
                (stripExternalLinks value))))).

(** [/[|]+/]. *)
Definition rePipes (s : string) : option nat :=
  match fst (Js.span (Ascii.eqb "|") s) with
  | O => None
  | n => Some n
  end.

(** [/\s*[-–—]{2,}\s*/]; the en dash and the em dash lie beyond the
    8-bit code units, which leaves the hyphen. *)
Definition reDashes (s : string) : option nat :=
  let (a, s1) := Js.span Js.isSpace s in
  let (b, s2) := Js.span (Ascii.eqb "-") s1 in
  let c := fst (Js.span Js.isSpace s2) in
  if Nat.leb 2 b then Some (a + b + c) else None.

Definition isStop (c : ascii) : bool :=
  existsb (Ascii.eqb c) ["!"; "?"; "."; ","]%char.

Definition isPunct (c : ascii) : bool :=
  existsb (Ascii.eqb c) ["!"; "?"; "."; ","; ";"; ":"]%char.

(** [/([!?.,])\1{1,}/], replaced by ["$1"]. *)
Definition reRepeated (s : string) : option nat :=
  match s with
  | String c s' =>
      if isStop c then
        match fst (Js.span (Ascii.eqb c) s') with
        | O => None
        | n => Some (1 + n)
        end
      else None
  | EmptyString => None
  end.

Definition firstChar (matched : string) : string := substring 0 1 matched.

(** [/\s+([!?.,;:])/], replaced by ["$1"]. *)
Definition reSpaceBeforePunct (s : string) : option nat :=
  match Js.span Js.isSpace s with
  | (S n, String c _) => if isPunct c then Some (S n + 1) else None
  | _ => None
  end.

Definition lastChar (matched : string) : string :=
  substring (String.length matched - 1) 1 matched.

Definition polishSentence (value : string) : string :=
  Js.trim
    (Js.collapseSpaces
       (Js.replaceAll reSpaceBeforePunct lastChar
          (Js.replaceAll reRepeated firstChar
             (Js.replaceAll reDashes (fun _ => " - ")
                (Js.replaceAll rePipes (fun _ => " ")
                   (cleanText value)))))).

Definition isTerminal (c : ascii) : bool :=
  existsb (Ascii.eqb c) ["."; "!"; "?"]%char.

(** [s.split(/(?<=[.!?])\s+/)]: a run of white space is a separator
    when the character in front of it is a full stop, an exclamation
    mark or a question mark.  [afterTerminal] says that the previous
    character is one of them, [inSeparator] that the scan is inside a
    separator. *)
Fixpoint splitAfterTerminal (afterTerminal inSeparator : bool) (s : string)
  : list string :=
  match s with
  | EmptyString => [EmptyString]
  | String c s' =>
      if Js.isSpace c then
        if inSeparator then splitAfterTerminal false true s'
        else if afterTerminal then EmptyString :: splitAfterTerminal false true s'
        else Js.consHead c (splitAfterTerminal false false s')
      else Js.consHead c (splitAfterTerminal (isTerminal c) false s')
  end.

Definition splitSentences (value : string) : list string :=
  filter (fun sentence => Nat.ltb 0 (String.length sentence))
         (map polishSentence
              (splitAfterTerminal false false (polishSentence value))).


(** One entry of the ranking of [pickBestSentences]. *)
Definition sentenceScore (keywordGroups : list (list string)) (sentence : string)
  : nat :=
  let normalized := normalizeForMatch sentence in
  fold_left
    (fun sum group =>
       let groupMatch := existsb (fun keyword => Js.includes normalized keyword) group in
       sum + (if groupMatch then 1 else 0))
    keywordGroups 0.

Definition pickBestSentences (sentences : list string)
           (keywordGroups : list (list string)) (fallback : string) (count : nat)
  : list string :=
  let ranked :=
    map fst
      (firstn count
         (Js.filteri
            (fun item index => (Nat.ltb 0 (snd item) || Nat.ltb index count)%bool)
            (Js.sort (fun a b => Nat.ltb (snd a) (snd b))
               (map (fun sentence => (sentence, sentenceScore keywordGroups sentence))
                    sentences)))) in
  match ranked with
  | [] => [fallback]
  | _ => ranked
  end.

Definition sanitizeTitle (value query : string) : string :=
  let cleaned := polishSentence value in
  if Nat.ltb 0 (String.length cleaned) then cleaned
  else "Community result for " ++ query.

(** [new Set(tokens).has(token)]. *)
Definition has (tokens : list string) (token : string) : bool :=
  existsb (String.eqb token) tokens.

Definition countTokenOverlap (text : string) (queryTokens : list string) : nat :=
  match queryTokens with
  | [] => 0
  | _ =>
      let tokenSet := tokenize text in
      fold_left (fun sum token => sum + (if has tokenSet token then 1 else 0))
                queryTokens 0
  end.

Definition countKeywordHits (text : string) (keywords : list string) : nat :=
  match keywords with
  | [] => 0
  | _ =>
      let tokenSet := tokenize text in
      fold_left (fun sum token => sum + (if has tokenSet token then 1 else 0))
                keywords 0
  end.

Definition hasNmsContext (post : RedditPost.t) : bool :=
  let context :=
    normalizeForMatch
      (orElse (RedditPost.title post) "" ++ " "
       ++ orElse (RedditPost.selftext post) "" ++ " "
       ++ orElse (RedditPost.subreddit_name_prefixed post) "") in
  existsb (fun keyword => Js.includes context keyword)
          ["no man s sky"; "nomanssky"; "nms"; "anomaly"; "sentinel"; "atlas"].

(** [Math.log10]. *)
Definition log10 (x : R) : R := (ln x / ln 10)%R.

(** The argument of the logarithm in [scoreRedditPost]:
    [Math.max((post.score ?? 0) + (post.num_comments ?? 0), 1) + 1]. *)
Definition engagementArgument (post : RedditPost.t) : Z :=
  (Z.max (orElse (RedditPost.score post) 0
          + orElse (RedditPost.num_comments post) 0) 1
   + 1)%Z.

Definition scoreRedditPost (post : RedditPost.t) (queryTokens : list string)
           (type : SearchType) : R :=
  let title := cleanText (orElse (RedditPost.title post) "") in
  let body := cleanText (orElse (RedditPost.selftext post) "") in
  let overlapInTitle := countTokenOverlap title queryTokens in
  let overlapInBody := countTokenOverlap body queryTokens in
  let modeHitInTitle := countKeywordHits title (MODE_KEYWORDS type) in
  let modeHitInBody := countKeywordHits body (MODE_KEYWORDS type) in
  let engagement := log10 (IZR (engagementArgument post)) in
  let hasBody := if Nat.leb 60 (String.length body) then 1%R else 0%R in
  let nmsBoost := if hasNmsContext post then 2%R else 0%R in
  let metaHits := countKeywordHits title META_TITLE_KEYWORDS in
  let queryLooksMeta :=
    existsb (fun token => existsb (String.eqb token) META_TITLE_KEYWORDS)
            queryTokens in
  let metaPenalty :=
    if (Nat.ltb 0 metaHits && negb queryLooksMeta)%bool then 4%R else 0%R in
  (INR overlapInTitle * 10 + INR overlapInBody * 4 + INR modeHitInTitle * 3
   + INR modeHitInBody * 1.5 + engagement * 2 + hasBody + nmsBoost
   - metaPenalty)%R.

Definition whereGroups : list (list string) :=
  [["where"; "find"; "found"; "location"; "planet"; "system"; "station"; "biome"];
   ["farm"; "drop"; "spawn"; "sentinel"; "anomaly"; "vendor"; "market"]].

Definition whereFallback : string :=
  "Community reports suggest checking mission hubs, planets matching the resource biome, and station trade loops.".

Definition howGroups : list (list string) :=
  [["how"; "use"; "craft"; "build"; "route"; "method"; "loop"];
   ["tip"; "best"; "fast"; "efficient"; "priority"; "upgrade"]].

Definition howFallback : string :=
  "Community advice generally favors repeatable loops, inventory prep, and stacking compatible mission objectives.".

Definition tipGroups : list (list string) :=
  [["tip"; "best"; "fast"; "efficient"; "carry"; "stack"; "prioritize"; "avoid"]].

Definition tipFallback : string :=
  "Keep route loops short and inventory space ready for faster farming cycles.".

(** [post?.field]. *)
Definition field {A : Type} (f : RedditPost.t -> option A)
           (post : option RedditPost.t) : option A :=
  match post with
  | Some p => f p
  | None => None
  end.

Definition toSearchResultFromReddit (post : option RedditPost.t) (query : string)
           (type : SearchType) : SearchResult.t :=
  let title := sanitizeTitle (orElse (field RedditPost.title post) "") query in
  let body := polishSentence (orElse (field RedditPost.selftext post) "") in
  let allText := polishSentence (title ++ ". " ++ body) in
  let sentences := splitSentences allText in
  let whereLines := pickBestSentences sentences whereGroups whereFallback 2 in
  let howLines := pickBestSentences sentences howGroups howFallback 2 in
  let tipCandidates := pickBestSentences sentences tipGroups tipFallback 3 in
  let summary :=
    polishSentence
      (match type with
       | where_ => hd "" whereLines
       | howto => hd "" howLines
       end) in
  let details :=
    Js.join LF
      (List.app
         ["Where to find: " ++ Js.join " " whereLines;
          "How to use: " ++ Js.join " " howLines;
          "Tips:"]
         (map (fun tip => "- " ++ polishSentence tip) tipCandidates)) in
  let subreddit :=
    let cleaned :=
      cleanText (orElse (field RedditPost.subreddit_name_prefixed post)
                        "r/NoMansSkyTheGame") in
    if Js.isEmpty cleaned then "r/NoMansSkyTheGame" else cleaned in
  let author := cleanText (orElse (field RedditPost.author post) "unknown") in
  let score := orElse (field RedditPost.score post) 0%Z in
  let comments := orElse (field RedditPost.num_comments post) 0%Z in
  SearchResult.mk
    ("reddit-"
     ++ orElse (field RedditPost.id post) (dashSpaces (normalizeForMatch title)))
    title
    summary
    details
    "Live Community Search"
    ["Source set: Reddit live snapshot";
     "Forum: " ++ subreddit;
     "Engagement: score " ++ Js.numberToString score ++ ", comments "
     ++ Js.numberToString comments]
    ["Author: u/" ++ author;
     "External URLs are intentionally removed from this app output."]
    [Faq.mk ("How current is this guidance for " ++ query ++ "?")
            "It is compiled from live community posts at request time and summarized in-app without outbound links."]
    None.

Definition modeLabel (type : SearchType) : string :=
  match type with
  | where_ => "where-to-find"
  | howto => "how-to"
  end.

(** [`no-match-${normalizeForMatch(query).replace(/\s+/g, "-") || "query"}`]. *)
Definition noMatchId (query : string) : string :=
  let slug := dashSpaces (normalizeForMatch query) in
  "no-match-" ++ (if Js.isEmpty slug then "query" else slug).

Definition buildNoMatchResult (query : string) (type : SearchType)
  : SearchResult.t :=
  SearchResult.mk
    (noMatchId query)
    ("No live community match for " ++ String "034" (query ++ String "034" " yet"))
    "Try fewer words, singular terms, or the base material/item name."
    (Js.join LF
       ["Live search returned no strong match in this pass.";
        "Mode used: " ++ modeLabel type ++ ".";
        "Suggested next tries:";
        "- Use a compact term (example: " ++ String "034" ("radiant heart" ++ String "034" " instead of full sentence).");
        "- Try item, then process (example: nanites, then nanite farm).";
        "- Ask a follow-up in this card and refine step-by-step."])
    "Live Community Search"
    ["Live snapshot only"]
    ["Community data may be available on retry; all external links are removed by design."]
    [Faq.mk "Can this still use Reddit data without links?"
            "Yes. Results can include Reddit-derived summaries while hiding outbound URLs."]
    None.

(** A post with its scores, as built in [GET]. *)
Module Scored.
Record t : Type := mk {
  post : RedditPost.t;
  qualityScore : R;
  overlapTitle : nat;
  overlap : nat
}.
End Scored.

(** [x >= y] and [x < y] on numbers. *)
Definition geR (x y : R) : bool := if Rle_dec y x then true else false.
Definition ltR (x y : R) : bool := if Rlt_dec x y then true else false.

(** [Boolean(s)] for an optional string. *)
Definition truthy (s : option string) : bool :=
  match s with
  | Some (String _ _) => true
  | _ => false
  end.

(** [Math.max(1, Math.ceil(queryTokens.length * 0.5))]. *)
Definition minCoverageOf (tokenCount : nat) : nat := Nat.max 1 ((tokenCount + 1) / 2).

(** The admission filter of [GET]. *)
Definition admits (queryTokens : list string) (item : Scored.t) : bool :=
  if Nat.eqb (List.length queryTokens) 0 then true
  else
    let minCoverage := minCoverageOf (List.length queryTokens) in
    let hasStrongCoverage := Nat.leb minCoverage (Scored.overlap item) in
    let hasTitleHit := Nat.leb 1 (Scored.overlapTitle item) in
    let hasUsefulSignal := geR (Scored.qualityScore item) 7 in
    if Nat.eqb (List.length queryTokens) 1 then (hasTitleHit && hasUsefulSignal)%bool
    else
      let hasTitleOrVeryStrongBody :=
        (hasTitleHit || Nat.leb (minCoverage + 1) (Scored.overlap item))%bool in
      (hasStrongCoverage && hasTitleOrVeryStrongBody && hasUsefulSignal
       && hasTitleHit)%bool.

(** The comparator [(left, right) => right.qualityScore - left.qualityScore]
    is positive when the score of [left] is the smaller one. *)
Definition byQuality (left right : Scored.t) : bool :=
  ltR (Scored.qualityScore left) (Scored.qualityScore right).

Definition titleKey (item : Scored.t) : string :=
  normalizeForMatch (orElse (RedditPost.title (Scored.post item)) "").

(** The deduplicating filter of [GET]; [all] is the sorted array. *)
Definition firstOfTitle (all : list Scored.t) (item : Scored.t) (index : nat)
  : bool :=
  let normalizedTitle := titleKey item in
  if Js.isEmpty normalizedTitle then Nat.eqb index 0
  else
    match Js.findIndex (fun entry => String.eqb (titleKey entry) normalizedTitle) all with
    | Some i => Nat.eqb i index
    | None => false
    end.

Definition scorePost (queryTokens : list string) (type : SearchType)
           (post : RedditPost.t) : Scored.t :=
  Scored.mk post
    (scoreRedditPost post queryTokens type)
    (countTokenOverlap (orElse (RedditPost.title post) "") queryTokens)
    (countTokenOverlap (orElse (RedditPost.title post) "" ++ " "
                        ++ orElse (RedditPost.selftext post) "") queryTokens).

(** [.filter((post) => Boolean(post?.id && post?.title))]. *)
Fixpoint wellFormed (children : list (option RedditPost.t)) : list RedditPost.t :=
  match children with
  | [] => []
  | Some post :: rest =>
      if (truthy (RedditPost.id post) && truthy (RedditPost.title post))%bool
      then post :: wellFormed rest
      else wellFormed rest
  | None :: rest => wellFormed rest
  end.

Definition sortByQuality (items : list Scored.t) : list Scored.t :=
  Js.sort byQuality items.

Definition dedupe (sorted : list Scored.t) : list Scored.t :=
  Js.filteri (firstOfTitle sorted) sorted.

Definition dedupedRanked (children : list (option RedditPost.t))
           (queryTokens : list string) (type : SearchType) : list Scored.t :=
  dedupe
    (sortByQuality
       (filter (admits queryTokens)
               (map (scorePost queryTokens type) (wellFormed children)))).

(** The handler of the route.  [q] and [typeParam] are the two search
    parameters of the request, [children] the posts of the payload that
    [fetchRedditPosts] returned (the empty list when the request failed
    or timed out). *)
Definition GET (q typeParam : option string)
           (children : list (option RedditPost.t)) : Response :=
  match option_map Js.trim q with
  | None | Some EmptyString => BadRequest "Missing query."
  | Some query =>
      let type :=
        match typeParam with
        | Some t => if String.eqb t "where" then where_ else howto
        | None => howto
        end in
      let queryTokens := tokenize query in
      let redditResults :=
        map (fun item => toSearchResultFromReddit (Some (Scored.post item)) query type)
            (firstn 8 (dedupedRanked children queryTokens type)) in
      Ok query type
         (match redditResults with
          | [] => [buildNoMatchResult query type]
          | _ => redditResults
          end)
  end.

End Live.

(* ================================================================= *)
(** ** The curated search route *)

Module Curated.

Module KnowledgeEntry.
Record t : Type := mk {
  id : string;
  title : string;
  aliases : list string;
  whereToFind : string;
  howToUse : string;
  tips : list string;
  references : list string;
  redditNotes : list string;
  faq : list Faq.t;
  video : option VideoClip.t
}.
End KnowledgeEntry.

Definition storyboardNote : string :=
  "In-app storyboard guide. No external video service required.".

Definition LOCAL_KNOWLEDGE : list KnowledgeEntry.t :=
  [ KnowledgeEntry.mk
      "radiant-heart"
      "Radiant Heart"
      ["radiant heart"; "radiant hearts"; "sentinel heart"]
      "Radiant Hearts are commonly earned from Sentinel combat loops, especially in corrupted zones and high-alert Sentinel areas."
      "Used in advanced crafting and upgrade paths tied to Sentinel-related technology and high-tier progression components."
      ["Use a Sentinel Pillar area as a repeatable combat route.";
       "Carry ammo and shield recharge so you can farm multiple waves in one run.";
       "Deposit rare drops often if inventory is tight."]
      ["No Man's Sky Wiki (internal summary)"; "Community route notes (internal summary)"]
      ["Players often report best drop consistency from sustained Sentinel wave clears.";
       "Many community routes pair Sentinel farms with nearby salvage stops."]
      [Faq.mk "What is the fastest way to farm Radiant Hearts?"
              "A strong loop is repeating Sentinel wave combat near a Pillar, collecting drops, then resetting at another hotspot.";
       Faq.mk "Do I need a specific biome for Radiant Hearts?"
              "Not strictly, but corrupted or high-Sentinel-pressure zones usually feel most consistent."]
      (Some (VideoClip.mk
         "Sentinel farming route example"
         storyboardNote
         [("00:00 - Prep", "Land near a Sentinel Pillar, reload ammo, and verify shield recharge supply.");
          ("00:40 - Trigger", "Start Sentinel engagement and maintain line-of-sight control instead of over-chasing.");
          ("01:30 - Collect", "Sweep drops between waves and keep one free inventory row for fast looting.");
          ("02:20 - Reset Loop", "Move to the next nearby hotspot and repeat for consistent Radiant Heart farming.")]));
    KnowledgeEntry.mk
      "living-glass"
      "Living Glass"
      ["living glass"; "lg"; "farm income"]
      "Living Glass is usually crafted from plant-chain materials rather than found as a frequent raw pickup."
      "Useful as a reliable mid-game money craft and for select blueprint requirements."
      ["Automate farm ingredients with biodomes or hydroponics.";
       "Craft in batches after each harvest cycle.";
       "Keep a dedicated storage tab for farm chain materials."]
      ["No Man's Sky crafting chain notes (internal summary)"]
      ["Community posts frequently suggest Living Glass as a safe early passive income path."]
      [Faq.mk "Is Living Glass better than random loot selling?"
              "For many players, yes. A stable farm chain can outperform random loot runs in consistency."]
      (Some (VideoClip.mk
         "Living Glass farm layout walkthrough"
         storyboardNote
         [("00:00 - Base Layout", "Place biodomes/hydroponics in a tight loop near refiners and storage.");
          ("00:45 - Crop Balance", "Balance ingredient crops by bottleneck material rather than equal count.");
          ("01:20 - Batch Craft", "Harvest all, craft components first, then final Living Glass in one pass.")]));
    KnowledgeEntry.mk
      "oxygen"
      "Oxygen"
      ["oxygen"; "o2"; "life support"]
      "Gather from oxygen-rich flora, gas hotspots, and occasional market supply."
      "Core utility resource for life support and several refining chains."
      ["Set up an oxygen extractor base as early infrastructure.";
       "Carry backup oxygen stacks before long expeditions."]
      ["Resource gathering notes (internal summary)"]
      ["Players commonly prioritize oxygen extraction as an early QoL base."]
      [Faq.mk "Should I buy oxygen or farm it?"
              "Buying is fine short-term, but farming becomes more efficient once your base is established."]
      None;
    KnowledgeEntry.mk
      "sodium"
      "Sodium"
      ["sodium"; "hazard protection"; "yellow plants"]
      "Readily harvested from yellow flora on many planets and sometimes purchased at stations or pilots."
      "Primary hazard protection refill material."
      ["Keep one dedicated sodium stack in exosuit inventory at all times.";
       "Convert to Sodium Nitrate when needed for stronger refills."]
      ["Survival resource notes (internal summary)"]
      ["New-player guides repeatedly emphasize sodium as top-priority carry material."]
      [Faq.mk "How much sodium should I carry?"
              "At least one full stack for exploration-heavy sessions, more for harsh biomes."]
      None;
    KnowledgeEntry.mk
      "salvaged-data"
      "Salvaged Data"
      ["salvaged data"; "technology modules"; "buried tech"]
      "Dig up buried technology modules using the Analysis Visor and Terrain Manipulator."
      "Spent at the Space Anomaly construction terminal to unlock base parts and tech."
      ["Scan while moving in a wide loop to chain buried tech finds quickly.";
       "Prioritize unlocks that improve power, storage, and farming first."]
      ["Base progression notes (internal summary)"]
      ["Community consensus: early Salvaged Data routes accelerate base progression heavily."]
      [Faq.mk "What should I unlock first with Salvaged Data?"
              "Most players prioritize power generation, storage, and farming modules first."]
      None;
    KnowledgeEntry.mk
      "nanites"
      "Nanites"
      ["nanites"; "nanite clusters"; "upgrade currency"]
      "Earned from scanning, missions, refining loops, and selling discovered data sources."
      "Main currency for tech upgrades and class improvements."
      ["Stack mission board tasks that reward nanites.";
       "Use steady micro-loops instead of waiting for one big source."]
      ["Upgrade currency notes (internal summary)"]
      ["Frequent player advice is to combine mission rewards with refining side loops."]
      [Faq.mk "What is a beginner-friendly nanite loop?"
              "Combine station missions with fast scan/refine cycles so progress continues while traveling."]
      None ].

(** The curated route does not stem its tokens. *)
Definition tokenize (value : string) : list string :=
  filter (fun token => Nat.ltb 1 (String.length token))
         (Js.split " " (normalizeForMatch value)).

(** [`${entry.title} ${entry.aliases.join(" ")} ${entry.whereToFind} ${entry.howToUse} ${entry.tips.join(" ")}`]. *)
Definition searchable (entry : KnowledgeEntry.t) : string :=
  KnowledgeEntry.title entry ++ " "
  ++ Js.join " " (KnowledgeEntry.aliases entry) ++ " "
  ++ KnowledgeEntry.whereToFind entry ++ " "
  ++ KnowledgeEntry.howToUse entry ++ " "
  ++ Js.join " " (KnowledgeEntry.tips entry).

(** [searchableTokens.includes(token)]. *)
Definition mem (token : string) (tokens : list string) : bool :=
  existsb (String.eqb token) tokens.

Definition scoreEntry (entry : KnowledgeEntry.t) (query : string) : nat :=
  let normalizedQuery := normalizeForMatch query in
  let queryTokens := tokenize query in
  let score := 0 in
  let score :=
    if String.eqb (normalizeForMatch (KnowledgeEntry.title entry)) normalizedQuery
    then score + 120 else score in
  let score :=
    fold_left
      (fun score alias =>
         let normalizedAlias := normalizeForMatch alias in
         if Js.includes normalizedQuery normalizedAlias then score + 80 else score)
      (KnowledgeEntry.aliases entry) score in
  let searchableTokens := tokenize (searchable entry) in
  fold_left
    (fun score token => if mem token searchableTokens then score + 12 else score)
    queryTokens score.

Definition toSearchResult (entry : KnowledgeEntry.t) (type : SearchType)
  : SearchResult.t :=
  let summary :=
    match type with
    | where_ => KnowledgeEntry.whereToFind entry
    | howto => KnowledgeEntry.howToUse entry
    end in
  let details :=
    Js.join LF
      (List.app
         ["Where to find: " ++ KnowledgeEntry.whereToFind entry;
          "How to use: " ++ KnowledgeEntry.howToUse entry;
          "Tips:"]
         (map (fun tip => "- " ++ tip) (KnowledgeEntry.tips entry))) in
  SearchResult.mk
    (KnowledgeEntry.id entry)
    (KnowledgeEntry.title entry)
    summary
    details
    "NMS Local KB"
    (KnowledgeEntry.references entry)
    (KnowledgeEntry.redditNotes entry)
    (KnowledgeEntry.faq entry)
    (KnowledgeEntry.video entry).

Definition modeLabel (type : SearchType) : string :=
  match type with
  | where_ => "where-to-find"
  | howto => "how-to"
  end.

Definition buildNoMatchResult (query : string) (type : SearchType)
  : SearchResult.t :=
  let slug := dashSpaces (normalizeForMatch query) in
  SearchResult.mk
    ("no-match-" ++ (if Js.isEmpty slug then "query" else slug))
    ("No exact local match for " ++ String "034" (query ++ String "034" " yet"))
    "Try a shorter name, singular form, or a nearby material/blueprint term."
    (Js.join LF
       ["The app is in local-only mode, so it only searches built-in data.";
        "Mode used: " ++ modeLabel type ++ ".";
        "Suggested next tries:";
        "- Remove extra words (example: use " ++ String "034" ("radiant heart" ++ String "034" " instead of full sentence).");
        "- Search by ingredient or output item.";
        "- Ask a follow-up question in this card so the app can guide alternatives."])
    "NMS Local KB"
    ["Local knowledge base only"]
    ["Reddit references are summarized in-app only; no outbound links are provided."]
    [Faq.mk "Can I still use Reddit info without opening Reddit?"
            "Yes. The app can include summarized Reddit-derived notes inside result details."]
    None.

(** The comparator [(left, right) => right.score - left.score]. *)
Definition byScore (left right : KnowledgeEntry.t * nat) : bool :=
  Nat.ltb (snd left) (snd right).

Definition ranked (knowledge : list KnowledgeEntry.t) (query : string)
  : list (KnowledgeEntry.t * nat) :=
  firstn 8
    (Js.sort byScore
       (filter (fun item => Nat.ltb 0 (snd item))
               (map (fun entry => (entry, scoreEntry entry query)) knowledge))).

Definition GET (q typeParam : option string) : Response :=
  match option_map Js.trim q with
  | None | Some EmptyString => BadRequest "Missing query."
  | Some query =>
      let type :=
        match typeParam with
        | Some t => if String.eqb t "where" then where_ else howto
        | None => howto
        end in
      let scored :=
        map (fun item => toSearchResult (fst item) type)
            (ranked LOCAL_KNOWLEDGE query) in
      Ok query type
         (match scored with
          | [] => [buildNoMatchResult query type]
          | _ => scored
          end)
  end.

End Curated.

(* ================================================================= *)
(** ** The follow-up dispatcher of the page *)

Module Page.

Inductive Role : Type := user | assistant.

Module ChatMessage.
Record t : Type := mk { role : Role; text : string }.
End ChatMessage.

Definition normalize (value : string) : string := normalizeForMatch value.

Definition words (value : string) : list string :=
  filter (fun token => Nat.ltb 1 (String.length token))
         (Js.split " " (normalize value)).

(** The two [Set]s of [keywordOverlap]: the loop visits every distinct
    token of [left] once. *)
Definition keywordOverlap (a b : string) : nat :=
  let left := nodup string_dec (words a) in
  let right := words b in
  fold_left
    (fun score token =>
       if existsb (String.eqb token) right then score + 1 else score)
    left 0.

Definition isUser (message : ChatMessage.t) : bool :=
  match ChatMessage.role message with
  | user => true
  | assistant => false
  end.

(** The comparator [(a, b) => b.score - a.score]. *)
Definition byScore (a b : Faq.t * nat) : bool := Nat.ltb (snd a) (snd b).

(** The first prompt holds, after the letter I, three characters of which
    two lie beyond the 8-bit code units; the literal keeps the bytes of
    the source file.  The dispatcher returns this text and never looks
    into it. *)
Definition followUpFirst : string :=
  "Ask another question about route, gear prep, or quickest method and Iâ€™ll narrow this down.".

Definition followUpNext : string :=
  "If you want, ask a narrower follow-up (example: fastest route, required gear, or inventory prep).".

(** The last part of [buildFollowUpAnswer]: the best FAQ entry, or the
    summary with the references and a prompt. *)
Definition faqOrSummary (result : SearchResult.t) (question : string)
           (hasPriorQuestions : bool) : string :=
  let bestFaq :=
    hd_error
      (Js.sort byScore
         (map (fun item => (item, keywordOverlap question (Faq.question item)))
              (SearchResult.faq result))) in
  match bestFaq with
  | Some (item, S _) => Faq.answer item
  | _ =>
      let references :=
        match SearchResult.references result with
        | [] => ""
        | refs => LF ++ LF ++ "Reference notes:" ++ LF ++ "- "
                  ++ Js.join (LF ++ "- ") refs
        end in
      let followUpPrompt :=
        if hasPriorQuestions then followUpNext else followUpFirst in
      "From this result:" ++ LF ++ SearchResult.summary result ++ references
      ++ LF ++ LF ++ followUpPrompt
  end.

(** What [buildFollowUpAnswer] does once the tip branch has not
    answered: the forum notes, the video pointer, then the FAQ. *)
Definition afterTipBranch (result : SearchResult.t) (question q : string)
           (hasPriorQuestions : bool) : string :=
  if Js.includes q "reddit" then
    match SearchResult.redditNotes result with
    | [] => "This entry has no Reddit-derived notes yet."
    | notes =>
        "Reddit references are summarized in-app only:" ++ LF
        ++ Js.join LF (map (fun note => "- " ++ note) notes)
    end
  else if (Js.includes q "video" || Js.includes q "watch")%bool then
    match SearchResult.video result with
    | Some _ =>
        "Open the video guide section in this card. It uses a local storyboard format and stays fully in-app."
    | None =>
        "This entry does not have a curated video clip yet, but I can still help with text guidance from this card."
    end
  else faqOrSummary result question hasPriorQuestions.

Definition asksWhere (q : string) : bool :=
  (Js.includes q "where" || Js.includes q "find" || Js.includes q "location")%bool.

Definition asksHow (q : string) : bool :=
  (Js.includes q "how" || Js.includes q "use" || Js.includes q "craft"
   || Js.includes q "build")%bool.

Definition asksTip (q : string) : bool :=
  (Js.includes q "tip" || Js.includes q "best" || Js.includes q "fast"
   || Js.includes q "efficient")%bool.

Definition buildFollowUpAnswer (result : SearchResult.t) (question : string)
           (history : list ChatMessage.t) : string :=
  let q := normalize question in
  let hasPriorQuestions := existsb isUser history in
  let lines := Js.split "010" (SearchResult.details result) in
  if asksWhere q then "Where-to-find summary:" ++ LF ++ hd "" lines
  else if asksHow q then
    let howLine :=
      find (fun line => Js.startsWith (Js.toLowerCase line) "how to use:") lines in
    match howLine with
    | Some line => line
    | None => "This entry includes how-to guidance in the details section above."
    end
  else
    let tipLines :=
      if asksTip q
      then firstn 2 (filter (fun line => Js.startsWith line "- ") lines)
      else [] in
    match tipLines with
    | _ :: _ => "Top tips:" ++ LF ++ Js.join LF tipLines
    | [] => afterTipBranch result question q hasPriorQuestions
    end.

(** [`${result.source}::${result.id}`]. *)
Definition getResultKey (result : SearchResult.t) : string :=
  SearchResult.source result ++ "::" ++ SearchResult.id result.

(** The updater of [toggleFavorite]: from the current favorites to the
    next ones. *)
Definition toggleFavorite (result : SearchResult.t)
           (current : list SearchResult.t) : list SearchResult.t :=
  let key := getResultKey result in
  let exists_ := existsb (fun item => String.eqb (getResultKey item) key) current in
  if exists_
  then filter (fun item => negb (String.eqb (getResultKey item) key)) current
  else result :: current.

(** The updater of [toggleExpanded]. *)
Definition toggleExpanded (result : SearchResult.t) (current : list string)
  : list string :=
  let key := getResultKey result in
  if existsb (String.eqb key) current
  then filter (fun item => negb (String.eqb item key)) current
  else (current ++ [key])%list.

(** An object used as a map from result keys: [obj[key]] is a lookup,
    [{...obj, [key]: value}] an update. *)
Definition Dict (V : Type) : Type := string -> option V.

Definition emptyDict {V : Type} : Dict V := fun _ => None.

Definition put {V : Type} (key : string) (value : V) (obj : Dict V) : Dict V :=
  fun k => if String.eqb k key then Some value else obj k.

(** The part of the state of the page that the follow-up form reads and
    writes. *)
Module Chat.
Record t : Type := mk {
  chatByResultKey : Dict (list ChatMessage.t);
  chatInputByResultKey : Dict string
}.
End Chat.

(** The state that a successful search leaves: no conversation, no
    input. *)
Definition clearedChat : Chat.t := Chat.mk emptyDict emptyDict.

(** The [onChange] handler of the follow-up input of a card. *)
Definition typeFollowUp (result : SearchResult.t) (value : string)
           (state : Chat.t) : Chat.t :=
  Chat.mk (Chat.chatByResultKey state)
          (put (getResultKey result) value (Chat.chatInputByResultKey state)).

(** [submitFollowUp], from the state of the page to the next state. *)
Definition submitFollowUp (result : SearchResult.t) (state : Chat.t) : Chat.t :=
  let key := getResultKey result in
  let rawQuestion :=
    Js.trim (match Chat.chatInputByResultKey state key with
             | Some text => text
             | None => ""
             end) in
  if Js.isEmpty rawQuestion then state
  else
    let previousHistory :=
      match Chat.chatByResultKey state key with
      | Some history => history
      | None => []
      end in
    let answer := buildFollowUpAnswer result rawQuestion previousHistory in
    let nextHistory :=
      (previousHistory
       ++ [ChatMessage.mk user rawQuestion; ChatMessage.mk assistant answer])%list in
    Chat.mk (put key nextHistory (Chat.chatByResultKey state))
            (put key "" (Chat.chatInputByResultKey state)).

(** What the user does with the follow-up form of a card. *)
Inductive Action : Type :=
| TypeText (result : SearchResult.t) (value : string)
| Submit (result : SearchResult.t).

Definition step (state : Chat.t) (action : Action) : Chat.t :=
  match action with
  | TypeText result value => typeFollowUp result value state
  | Submit result => submitFollowUp result state
  end.

(** The state after a sequence of actions. *)
Definition run (actions : list Action) (state : Chat.t) : Chat.t :=
  fold_left step actions state.

(** [chatByResultKey[resultKey] ?? []]. *)
Definition historyOf (state : Chat.t) (result : SearchResult.t)
  : list ChatMessage.t :=
  match Chat.chatByResultKey state (getResultKey result) with
  | Some history => history
  | None => []
  end.

End Page.


(* ================================================================= *)
(** ** What the claims speak of *)

(** An outbound URL in a text: a match of the expression that
    [stripExternalLinks] removes, [/(?:https?:\/\/|www\.)\S+/i], at
    some position. *)
Definition containsUrl (s : string) : bool := Js.test Live.reBareUrl s.

(** A markdown link span in a text: a match of the first expression of
    [stripExternalLinks] at some position. *)
Definition containsMarkdownLink (s : string) : bool :=
  Js.test Live.reMarkdownLink s.

(** The string fields of an answer card. *)
Definition cardStrings (card : SearchResult.t) : list string :=
  [SearchResult.id card; SearchResult.title card; SearchResult.summary card;
   SearchResult.details card; SearchResult.source card]
  ++ SearchResult.references card
  ++ SearchResult.redditNotes card
  ++ flat_map (fun item => [Faq.question item; Faq.answer item])
              (SearchResult.faq card).

Definition cardHasUrl (card : SearchResult.t) : bool :=
  existsb containsUrl (cardStrings card).

(** The results of a response. *)
Definition resultsOf (r : Response) : list SearchResult.t :=
  match r with
  | BadRequest _ => []
  | Ok _ _ results => results
  end.

(** The follow-up question is answered before the dispatcher reaches
    the summary of the card: by one of the keyword branches or by an
    entry of the FAQ. *)
Definition answeredBeforeSummary (result : SearchResult.t) (question : string)
  : bool :=
  let q := Page.normalize question in
  let lines := Js.split "010" (SearchResult.details result) in
  (Page.asksWhere q
   || Page.asksHow q
   || (Page.asksTip q
       && negb (Nat.eqb (List.length (filter (fun line => Js.startsWith line "- ") lines)) 0))
   || Js.includes q "reddit"
   || Js.includes q "video" || Js.includes q "watch"
   || match hd_error
              (Js.sort Page.byScore
                 (map (fun item => (item, Page.keywordOverlap question (Faq.question item)))
                      (SearchResult.faq result))) with
      | Some (_, S _) => true
      | _ => false
      end)%bool.

(** The number of the given tokens that are present in the stemmed token
    set of a text. *)
Definition presentTokens (text : string) (tokens : list string) : nat :=
  List.length
    (filter (fun token => existsb (String.eqb token) (Live.tokenize text)) tokens).

(** One of the words is a meta-content word. *)
Definition hasMetaWord (words : list string) : bool :=
  existsb (fun token => existsb (String.eqb token) Live.META_TITLE_KEYWORDS) words.

(** The words of a title: the pieces of its normal form between
    spaces, before any stemming. *)
Definition titleWords (title : string) : list string :=
  Js.split " " (normalizeForMatch title).

(** The terms of the weighted sum of C3 in front of the meta penalty,
    with the engagement bonus
    [log10(max(post.score + post.comments, floor) + 1) * 2]. *)
Definition sumBeforePenalty (floor : Z) (post : Live.RedditPost.t)
           (queryTokens : list string) (type : SearchType) : R :=
  let title := Live.cleanText (Live.orElse (Live.RedditPost.title post) "") in
  let body := Live.cleanText (Live.orElse (Live.RedditPost.selftext post) "") in
  let engagement :=
    (Live.orElse (Live.RedditPost.score post) 0
     + Live.orElse (Live.RedditPost.num_comments post) 0)%Z in
  (INR (presentTokens title queryTokens) * 10
   + INR (presentTokens body queryTokens) * 4
   + INR (presentTokens title (Live.MODE_KEYWORDS type)) * 3
   + INR (presentTokens body (Live.MODE_KEYWORDS type)) * 1.5
   + Live.log10 (IZR (Z.max engagement floor + 1)) * 2
   + (if Nat.leb 60 (String.length body) then 1 else 0)
   + (if Live.hasNmsContext post then 2 else 0))%R.

(** The weighted sum in the words of C3: the engagement bonus has the
    floor 0, and 4 is taken off when the title contains a meta-content
    word (one of its words is in the vocabulary) and the query does
    not. *)
Definition claimedSum (post : Live.RedditPost.t) (queryTokens : list string)
           (type : SearchType) : R :=
  let title := Live.cleanText (Live.orElse (Live.RedditPost.title post) "") in
  (sumBeforePenalty 0 post queryTokens type
   - (if (hasMetaWord (titleWords title) && negb (hasMetaWord queryTokens))%bool
      then 4 else 0))%R.

(** The words of a text: its pieces between white space that are not
    empty. *)
Definition words (s : string) : list string :=
  filter (fun w => negb (Js.isEmpty w)) (Js.splitBy Js.isSpace s).

(** Every word with a space in front of it. *)
Fixpoint glue (ws : list string) : string :=
  match ws with
  | [] => EmptyString
  | w :: ws' => String " " (w ++ glue ws')
  end.

(** The characters of [s] up to its first white space. *)
Fixpoint firstWord (s : string) : string :=
  match s with
  | EmptyString => EmptyString
  | String c s' => if Js.isSpace c then EmptyString else String c (firstWord s')
  end.

(** [collapseSpaces] as a scan with one bit of state: [inSpace] says
    that the scan is inside a run of white space (or at the start of a
    text whose leading white space is to go). *)
Fixpoint squeezeFrom (inSpace : bool) (s : string) : string :=
  match s with
  | EmptyString => EmptyString
  | String c s' =>
      if Js.isSpace c then
        if inSpace then squeezeFrom true s'
        else String " " (squeezeFrom true s')
      else String c (squeezeFrom false s')
  end.

(** No character of [s] is white space. *)
Fixpoint spaceFree (s : string) : bool :=
  match s with
  | EmptyString => true
  | String c s' => (negb (Js.isSpace c) && spaceFree s')%bool
  end.

(** The text [r] is empty or starts with white space. *)
Definition spaceLed (r : string) : bool :=
  match r with
  | EmptyString => true
  | String c _ => Js.isSpace c
  end.

(** Every character of [s] satisfies [p]. *)
Fixpoint allChars (p : ascii -> bool) (s : string) : bool :=
  match s with
  | EmptyString => true
  | String c s' => (p c && allChars p s')%bool
  end.

(** A character of a slug: a-z, 0-9 or the hyphen. *)
Definition isSlugChar (c : ascii) : bool :=
  (isWordChar c || Ascii.eqb c "-")%bool.

(** A conversation under the key [key] that is made of questions, each
    followed by the answer that the dispatcher gave for a card of that
    key and the turns before the question; [before] holds the turns in
    front of [history]. *)
Fixpoint wellAnswered (key : string) (before history : list Page.ChatMessage.t)
  : Prop :=
  match history with
  | [] => True
  | question :: answer :: rest =>
      Page.ChatMessage.role question = Page.user
      /\ Page.ChatMessage.text question <> ""
      /\ (exists result,
             Page.getResultKey result = key
             /\ answer
                = Page.ChatMessage.mk Page.assistant
                    (Page.buildFollowUpAnswer result
                       (Page.ChatMessage.text question) before))
      /\ wellAnswered key (before ++ [question; answer])%list rest
  | _ => False
  end.

(** The keys of a list of favorites. *)
Definition keysOf (favorites : list SearchResult.t) : list string :=
  map Page.getResultKey favorites.

(** The character is not the line feed. *)
Definition notLF (c : ascii) : bool := negb (Ascii.eqb c "010").

(** The normalized question holds none of the words that
    [buildFollowUpAnswer] looks for in front of the FAQ. *)
Definition namesNoTopic (q : string) : bool :=
  negb (Page.asksWhere q || Page.asksHow q || Page.asksTip q
        || Js.includes q "reddit" || Js.includes q "video"
        || Js.includes q "watch").

(** The text that [buildFollowUpAnswer] falls back on: the summary of
    the card, its references and a prompt. *)
Definition summaryAnswer (result : SearchResult.t) (hasPriorQuestions : bool)
  : string :=
  "From this result:" ++ LF ++ SearchResult.summary result
  ++ match SearchResult.references result with
     | [] => ""
     | refs => LF ++ LF ++ "Reference notes:" ++ LF ++ "- "
               ++ Js.join (LF ++ "- ") refs
     end
  ++ LF ++ LF
  ++ (if hasPriorQuestions then Page.followUpNext else Page.followUpFirst).

(** The sentences that [toSearchResultFromReddit] selects from, and its
    three selections. *)
Definition liveSentences (post : option Live.RedditPost.t) (query : string)
  : list string :=
  let title :=
    Live.sanitizeTitle (Live.orElse (Live.field Live.RedditPost.title post) "")
                       query in
  let body :=
    Live.polishSentence (Live.orElse (Live.field Live.RedditPost.selftext post) "") in
  Live.splitSentences (Live.polishSentence (title ++ ". " ++ body)).

Definition liveWhereLines (post : option Live.RedditPost.t) (query : string)
  : list string :=
  Live.pickBestSentences (liveSentences post query)
                         Live.whereGroups Live.whereFallback 2.

Definition liveHowLines (post : option Live.RedditPost.t) (query : string)
  : list string :=
  Live.pickBestSentences (liveSentences post query)
                         Live.howGroups Live.howFallback 2.

Definition liveTips (post : option Live.RedditPost.t) (query : string)
  : list string :=
  map Live.polishSentence
      (Live.pickBestSentences (liveSentences post query)
                              Live.tipGroups Live.tipFallback 3).

(** The lines of the details of a card, from its where text, its how
    text and its tips. *)
Definition detailLines (whereText howText : string) (tips : list string)
  : list string :=
  ["Where to find: " ++ whereText; "How to use: " ++ howText; "Tips:"]
  ++ map (fun tip => "- " ++ tip) tips.

(** An entry with nothing in it, the default of a lookup in the table. *)
Definition emptyEntry : Curated.KnowledgeEntry.t :=
  Curated.KnowledgeEntry.mk "" "" [] "" "" [] [] [] [] None.

(** The scored post has the quality score [v]. *)
Definition hasQuality (v : R) (item : Live.Scored.t) : bool :=
  if Req_dec_T (Live.Scored.qualityScore item) v then true else false.

(** The scored post has the normalized title [t]. *)
Definition hasTitleKey (t : string) (item : Live.Scored.t) : bool :=
  String.eqb (Live.titleKey item) t.

(** The deduplication in the words of C5: going through the sorted
    posts, with [before] the posts already passed, a post whose
    normalized title is not empty is retained when no post before it has
    that title, and a post whose normalized title is empty is retained
    when it is the very first post. *)
Fixpoint firstOccurrences (before rest : list Live.Scored.t)
  : list Live.Scored.t :=
  match rest with
  | [] => []
  | item :: rest' =>
      let retained :=
        if Js.isEmpty (Live.titleKey item)
        then match before with [] => true | _ :: _ => false end
        else negb (existsb (hasTitleKey (Live.titleKey item)) before) in
      if retained
      then item :: firstOccurrences (before ++ [item]) rest'
      else firstOccurrences (before ++ [item]) rest'
  end.

(** The where-to-find line of a card: the first line of its details that
    starts with "Where to find:", when there is one. *)
Definition whereToFindLine (card : SearchResult.t) : option string :=
  find (fun line => Js.startsWith line "Where to find:")
       (Js.split "010" (SearchResult.details card)).

(** A post whose title holds a link broken up by an emphasis mark. *)
Definition linkPost : Live.RedditPost.t :=
  Live.RedditPost.mk (Some "t3c") (Some "Sentinel farm ht*tps://evil.example/x")
    (Some "Walk the pillar loop.") (Some "r/NoMansSkyTheGame") (Some "seller")
    (Some 4%Z) (Some 1%Z) None.

(** A post whose title holds no token of the query "radiant heart" and
    whose body holds both. *)
Definition bodyOnlyPost : Live.RedditPost.t :=
  Live.RedditPost.mk (Some "t3a") (Some "Sentinel pillar loop")
    (Some "A radiant heart drops from every wave near the pillar.")
    (Some "r/NoMansSkyTheGame") (Some "traveller") (Some 12%Z) (Some 3%Z) None.

(** A post with a title and nothing else. *)
Definition plainPost : Live.RedditPost.t :=
  Live.RedditPost.mk (Some "t3b") (Some "Hello there") None None None
    (Some 0%Z) (Some 0%Z) None.

(** A post whose title holds the meta-content word "impressions". *)
Definition impressionsPost : Live.RedditPost.t :=
  Live.RedditPost.mk (Some "t3e") (Some "First impressions") None None None
    (Some 9%Z) (Some 0%Z) None.

(** A post whose title holds the meta-content word "trailer". *)
Definition trailerPost : Live.RedditPost.t :=
  Live.RedditPost.mk (Some "t3f") (Some "New trailer") None None None
    (Some 9%Z) (Some 0%Z) None.


(** A scored post given by its three scores. *)
Definition scoredAs (quality : R) (overlapTitle overlap : nat) : Live.Scored.t :=
  Live.Scored.mk bodyOnlyPost quality overlapTitle overlap.

(* ================================================================= *)
(** ** Facts about the stable sort *)

Section SortFacts.
Context {A : Type} (after : A -> A -> bool).

Lemma insert_perm (x : A) (l : list A) :
  Permutation (Js.insert after x l) (x :: l).
Proof.
  induction l as [|y l IH]; simpl.
  - apply Permutation_refl.
  - destruct (after x y).
    + eapply Permutation_trans.
      * apply perm_skip, IH.
      * apply perm_swap.
    + apply Permutation_refl.
Qed.

Lemma sort_perm (l : list A) : Permutation (Js.sort after l) l.
Proof.
  induction l as [|x l IH]; simpl.
  - constructor.
  - eapply Permutation_trans; [apply insert_perm|].
    now apply perm_skip.
Qed.

Lemma sort_length (l : list A) : List.length (Js.sort after l) = List.length l.
Proof. apply Permutation_length, sort_perm. Qed.

Hypothesis after_asym : forall a b, after a b = true -> after b a = false.
Hypothesis notafter_trans :
  forall a b c, after a b = false -> after b c = false -> after a c = false.

Lemma insert_sorted (x : A) (l : list A) :
  StronglySorted (Js.mayPrecede after) l ->
  StronglySorted (Js.mayPrecede after) (Js.insert after x l).
Proof.
  induction 1 as [|y l Hs IH Hy]; simpl.
  - constructor; constructor.
  - destruct (after x y) eqn:E.
    + constructor; [exact IH|].
      rewrite Forall_forall in *. intros z Hz.
      apply (Permutation_in _ (insert_perm x l)) in Hz.
      destruct Hz as [<-|Hz]; [now apply after_asym | now apply Hy].
    + constructor; [now constructor|].
      constructor; [exact E|].
      rewrite Forall_forall in *. intros z Hz.
      apply notafter_trans with y; [exact E | now apply Hy].
Qed.

Lemma sort_sorted (l : list A) :
  StronglySorted (Js.mayPrecede after) (Js.sort after l).
Proof.
  induction l as [|x l IH]; simpl; [constructor | now apply insert_sorted].
Qed.

Lemma insert_stable (z x : A) (l : list A) :
  filter (Js.tied after z) (Js.insert after x l)
  = filter (Js.tied after z) (x :: l).
Proof.
  induction l as [|y l IH]; [reflexivity|].
  simpl Js.insert. destruct (after x y) eqn:E; [|reflexivity].
  simpl in *. rewrite IH.
  destruct (Js.tied after z x) eqn:Tx; [|reflexivity].
  destruct (Js.tied after z y) eqn:Ty; [|reflexivity].
  exfalso. unfold Js.tied in Tx, Ty.
  apply andb_prop in Tx, Ty. destruct Tx as [_ Tx], Ty as [Ty _].
  apply negb_true_iff in Tx, Ty.
  rewrite (notafter_trans _ _ _ Tx Ty) in E. discriminate.
Qed.

Lemma sort_stable (z : A) (l : list A) :
  filter (Js.tied after z) (Js.sort after l) = filter (Js.tied after z) l.
Proof.
  induction l as [|x l IH]; [reflexivity|].
  simpl Js.sort. rewrite insert_stable. simpl. now rewrite IH.
Qed.

End SortFacts.

(** Sorting pairs on a score that is a function of the first component
    sorts the first components. *)
Lemma sort_decorated {A : Type} (f : A -> nat) (l : list A) :
  map fst (Js.sort (fun a b => Nat.ltb (snd a) (snd b))
                   (map (fun x => (x, f x)) l))
  = Js.sort (fun a b => Nat.ltb (f a) (f b)) l.
Proof.
  assert (Hins : forall x l',
             map fst (Js.insert (fun a b => Nat.ltb (snd a) (snd b)) (x, f x)
                                (map (fun y => (y, f y)) l'))
             = Js.insert (fun a b => Nat.ltb (f a) (f b)) x l').
  { intros x l'. induction l' as [|y l' IH]; [reflexivity|].
    simpl. destruct (Nat.ltb (f x) (f y)); simpl; [now rewrite IH|].
    f_equal. f_equal. rewrite map_map. simpl. now rewrite map_id. }
  induction l as [|x l IH]; [reflexivity|].
  simpl. rewrite <- IH.
  set (s := Js.sort _ (map _ l)).
  assert (Hs : s = map (fun y => (y, f y)) (map fst s)).
  { assert (Hall : Forall (fun p => snd p = f (fst p)) s).
    { subst s. rewrite Forall_forall. intros p Hp.
      apply (Permutation_in _ (sort_perm _ _)) in Hp.
      apply in_map_iff in Hp. destruct Hp as [y [<- _]]. reflexivity. }
    clearbody s. induction Hall as [|[a b] s Hab _ IHs]; [reflexivity|].
    simpl in *. subst b. now rewrite <- IHs. }
  rewrite Hs at 1. apply Hins.
Qed.

(* ================================================================= *)
(** ** The admission filter *)

Lemma geR_true (x y : R) : Live.geR x y = true <-> (y <= x)%R.
Proof.
  unfold Live.geR. destruct (Rle_dec y x); split; intros; try easy.
Qed.

Lemma geR_false (x y : R) : Live.geR x y = false <-> (x < y)%R.
Proof.
  unfold Live.geR. destruct (Rle_dec y x); split; intros; try easy; lra.
Qed.

Lemma ltR_true (x y : R) : Live.ltR x y = true <-> (x < y)%R.
Proof.
  unfold Live.ltR. destruct (Rlt_dec x y); split; intros; try easy.
Qed.

Lemma ltR_false (x y : R) : Live.ltR x y = false <-> (y <= x)%R.
Proof.
  unfold Live.ltR. destruct (Rlt_dec x y); split; intros; try easy; lra.
Qed.

(** The filter on a query of two tokens or more: coverage, a hit in the
    title and the quality threshold, all three. *)
Lemma admits_many (queryTokens : list string) (item : Live.Scored.t) :
  2 <= List.length queryTokens ->
  Live.admits queryTokens item
  = (Nat.leb (Live.minCoverageOf (List.length queryTokens)) (Live.Scored.overlap item)
     && Nat.leb 1 (Live.Scored.overlapTitle item)
     && Live.geR (Live.Scored.qualityScore item) 7)%bool.
Proof.
  intros Hn. unfold Live.admits.
  destruct (Nat.eqb_spec (List.length queryTokens) 0) as [E|_]; [lia|].
  destruct (Nat.eqb_spec (List.length queryTokens) 1) as [E|_]; [lia|].
  destruct (Nat.leb _ (Live.Scored.overlap item));
    destruct (Nat.leb 1 _); destruct (Live.geR _ _);
    destruct (Nat.leb _ _); reflexivity.
Qed.

(** The filter on a query of one token. *)
Lemma admits_one (queryTokens : list string) (item : Live.Scored.t) :
  List.length queryTokens = 1 ->
  Live.admits queryTokens item
  = (Nat.leb 1 (Live.Scored.overlapTitle item)
     && Live.geR (Live.Scored.qualityScore item) 7)%bool.
Proof.
  intros Hn. unfold Live.admits. rewrite Hn. reflexivity.
Qed.

(** A post for the examples of the filter: no query token in its
    title, both tokens of the query in its body. *)
Lemma bodyOnly_scores :
  Live.Scored.overlapTitle (Live.scorePost ["radiant"; "heart"] howto bodyOnlyPost) = 0
  /\ Live.Scored.overlap (Live.scorePost ["radiant"; "heart"] howto bodyOnlyPost) = 2.
Proof. split; vm_compute; reflexivity. Qed.

(** *** The logarithm of the engagement bonus *)

Lemma ln10_pos : (0 < ln 10)%R.
Proof. rewrite <- ln_1. apply ln_increasing; lra. Qed.

Lemma log10_nonneg (x : R) : (1 <= x)%R -> (0 <= Live.log10 x)%R.
Proof.
  intros Hx. unfold Live.log10, Rdiv.
  apply Rmult_le_pos.
  - destruct Hx as [Hx|<-].
    + left. rewrite <- ln_1. apply ln_increasing; lra.
    + rewrite ln_1. lra.
  - left. apply Rinv_0_lt_compat, ln10_pos.
Qed.

Lemma log10_1 : Live.log10 1 = 0%R.
Proof. unfold Live.log10. rewrite ln_1. unfold Rdiv. apply Rmult_0_l. Qed.

Lemma log10_2_pos : (0 < Live.log10 2)%R.
Proof.
  unfold Live.log10, Rdiv. apply Rmult_lt_0_compat.
  - rewrite <- ln_1. apply ln_increasing; lra.
  - apply Rinv_0_lt_compat, ln10_pos.
Qed.

Lemma log10_2_lt_1 : (Live.log10 2 < 1)%R.
Proof.
  unfold Live.log10.
  assert (H10 := ln10_pos).
  assert (H2 : (ln 2 < ln 10)%R) by (apply ln_increasing; lra).
  apply Rmult_lt_reg_r with (ln 10); [exact H10|].
  unfold Rdiv. rewrite Rmult_assoc, Rinv_l by lra. lra.
Qed.

(** Evaluate the counters of a score on a given post. *)
Ltac evalCounters :=
  unfold Live.scoreRedditPost, claimedSum, sumBeforePenalty; cbv zeta;
  repeat match goal with
         | |- context [INR ?n] =>
             let v := eval vm_compute in n in
             tryif constr_eq n v then fail
             else replace n with v by (vm_compute; reflexivity)
         end;
  repeat match goal with
         | |- context [if ?b then _ else _] =>
             let v := eval vm_compute in b in
             tryif constr_eq b v then fail
             else replace b with v by (vm_compute; reflexivity)
         end;
  repeat match goal with
         | |- context [IZR ?z] =>
             let v := eval vm_compute in z in
             tryif constr_eq z v then fail
             else replace z with v by (vm_compute; reflexivity)
         end;
  simpl INR.

Lemma bodyOnly_quality :
  (7 <= Live.scoreRedditPost bodyOnlyPost ["radiant"; "heart"] howto)%R.
Proof.
  evalCounters.
  assert (H := log10_nonneg 16). lra.
Qed.

Lemma plain_quality :
  Live.scoreRedditPost plainPost [] howto = (Live.log10 2 * 2)%R.
Proof.
  evalCounters. lra.
Qed.

(** C2, as the claim states it, fails: the post [bodyOnlyPost], scored
    for the query tokens "radiant", "heart", has no token of the query in
    its title, an overlap of 2 = minimum coverage + 1 and a quality score
    of 7 or more, and the filter rejects it. *)
Lemma C2_body_coverage_rejected :
  let queryTokens := ["radiant"; "heart"] in
  let item := Live.scorePost queryTokens howto bodyOnlyPost in
  2 <= List.length queryTokens
  /\ Live.Scored.overlapTitle item = 0
  /\ Live.minCoverageOf (List.length queryTokens) + 1 <= Live.Scored.overlap item
  /\ (7 <= Live.Scored.qualityScore item)%R
  /\ Live.admits queryTokens item = false.
Proof.
  cbv zeta. destruct bodyOnly_scores as [Ht Ho].
  split; [|split; [|split; [|split]]].
  - simpl. lia.
  - exact Ht.
  - rewrite Ho. vm_compute. lia.
  - apply bodyOnly_quality.
  - rewrite admits_many by (simpl; lia).
    rewrite Ht. simpl Nat.leb. rewrite andb_false_r. reflexivity.
Qed.

(** C2 (amended): for a query of two tokens or more the filter admits a
    scored post exactly when its overlap over title and body reaches the
    minimum coverage, its title holds a token of the query and its
    quality score is 7 or more; a post without a hit in its title is
    rejected, whatever its body coverage. *)
Theorem C2_admission_needs_title_hit
        (queryTokens : list string) (item : Live.Scored.t) :
  2 <= List.length queryTokens ->
  (Live.admits queryTokens item = true
   <-> Live.minCoverageOf (List.length queryTokens) <= Live.Scored.overlap item
       /\ 1 <= Live.Scored.overlapTitle item
       /\ (7 <= Live.Scored.qualityScore item)%R)
  /\ (Live.Scored.overlapTitle item = 0 -> Live.admits queryTokens item = false).
Proof.
  intros Hn. rewrite (admits_many _ _ Hn). split.
  - rewrite !andb_true_iff, !Nat.leb_le, geR_true. tauto.
  - intros H0. rewrite H0. simpl Nat.leb. rewrite andb_false_r. reflexivity.
Qed.

(** An instance: a post with a hit in the title, an overlap of 1 and the
    score 7 is admitted for the query tokens "radiant", "heart". *)
Lemma C2_admission_witness :
  2 <= List.length ["radiant"; "heart"]
  /\ Live.admits ["radiant"; "heart"] (scoredAs 7 1 1) = true.
Proof.
  split; [simpl; lia|].
  apply (proj1 (C2_admission_needs_title_hit ["radiant"; "heart"] (scoredAs 7 1 1)
                  (le_n 2))).
  split; [vm_compute; lia | split; [simpl; lia | apply Rle_refl]].
Defined.

(** C6, as the claim states it, fails: for the query "?", which has no
    token, the filter admits the post [plainPost], whose quality score is
    2 log10 2 < 7. *)
Lemma C6_no_token_admits_low_score :
  let queryTokens := Live.tokenize "?" in
  let item := Live.scorePost queryTokens howto plainPost in
  Live.admits queryTokens item = true
  /\ (Live.Scored.qualityScore item < 7)%R.
Proof.
  cbv zeta. change (Live.tokenize "?") with (@nil string). split.
  - reflexivity.
  - simpl Live.Scored.qualityScore. rewrite plain_quality.
    assert (H := log10_2_lt_1). lra.
Qed.

(** C6 (amended): for a query with at least one token, a scored post is
    admitted only if its quality score is 7 or more: with the other
    inputs held constant a score of 6.99 is rejected and, when any score
    is admitted, 7.0 is; for a query of exactly one token a hit in the
    title together with a quality score of 7 or more is sufficient,
    whatever the body coverage. *)
Theorem C6_quality_threshold
        (queryTokens : list string) (post : Live.RedditPost.t)
        (overlapTitle overlap : nat) :
  1 <= List.length queryTokens ->
  let item q := Live.Scored.mk post q overlapTitle overlap in
  (forall q, Live.admits queryTokens (item q) = true -> (7 <= q)%R)
  /\ Live.admits queryTokens (item 6.99%R) = false
  /\ (forall q, Live.admits queryTokens (item q) = true ->
                Live.admits queryTokens (item 7%R) = true)
  /\ (List.length queryTokens = 1 -> 1 <= overlapTitle ->
      forall q, (7 <= q)%R -> Live.admits queryTokens (item q) = true).
Proof.
  intros Hn item.
  assert (Hshape : forall q,
             Live.admits queryTokens (item q) = true ->
             Live.geR q 7 = true
             /\ forall q', Live.geR q' 7 = true ->
                           Live.admits queryTokens (item q') = true).
  { intros q.
    destruct (Nat.eq_dec (List.length queryTokens) 1) as [E1|N1].
    - rewrite (admits_one _ _ E1). simpl. rewrite andb_true_iff.
      intros [Ht Hq]. split; [exact Hq|].
      intros q' Hq'. rewrite (admits_one _ _ E1). simpl. now rewrite Ht, Hq'.
    - assert (H2 : 2 <= List.length queryTokens) by lia.
      rewrite (admits_many _ _ H2). simpl. rewrite !andb_true_iff.
      intros [[Hc Ht] Hq]. split; [exact Hq|].
      intros q' Hq'. rewrite (admits_many _ _ H2). simpl. now rewrite Hc, Ht, Hq'. }
  assert (H699 : Live.geR 6.99 7 = false) by (apply geR_false; lra).
  assert (H7 : Live.geR 7 7 = true) by (apply geR_true; lra).
  split; [|split; [|split]].
  - intros q Hq. apply geR_true. now apply Hshape.
  - destruct (Live.admits queryTokens (item 6.99%R)) eqn:E; [|reflexivity].
    apply Hshape in E. destruct E as [E _]. congruence.
  - intros q Hq. apply Hshape in Hq. destruct Hq as [_ Hq]. now apply Hq.
  - intros E1 Ht q Hq. rewrite (admits_one _ _ E1).
    apply andb_true_iff. split; [now apply Nat.leb_le | now apply geR_true].
Qed.

(** An instance: for the one token "nanites" a hit in the title and the
    score 7 admit a post without any body coverage. *)
Lemma C6_quality_witness :
  1 <= List.length ["nanites"]
  /\ Live.admits ["nanites"] (Live.Scored.mk plainPost 7 1 0) = true.
Proof.
  split; [simpl; lia|].
  apply (proj2 (proj2 (proj2
           (C6_quality_threshold ["nanites"] plainPost 1 0 (le_n 1)))));
    [reflexivity | lia | apply Rle_refl].
Defined.

(* ================================================================= *)
(** ** The follow-up dispatcher *)

Lemma prefix_char (sep c : ascii) (s : string) :
  String.prefix (String sep EmptyString) (String c s) = Ascii.eqb c sep.
Proof.
  simpl. destruct (ascii_dec sep c) as [->|Hne].
  - rewrite Ascii.eqb_refl. now destruct s.
  - symmetry. apply Ascii.eqb_neq. congruence.
Qed.

Lemma includes_char_cons (sep c : ascii) (s : string) :
  Js.includes (String c s) (String sep EmptyString)
  = (Ascii.eqb c sep || Js.includes s (String sep EmptyString))%bool.
Proof.
  change (Js.includes (String c s) (String sep EmptyString))
    with (String.prefix (String sep EmptyString) (String c s)
          || Js.includes s (String sep EmptyString))%bool.
  now rewrite prefix_char.
Qed.

Lemma split_first_line (sep : ascii) (a b : string) :
  Js.includes a (String sep EmptyString) = false ->
  hd "" (Js.split sep (a ++ String sep b)) = a.
Proof.
  unfold Js.split. induction a as [|c a IH].
  - intros _. simpl. now rewrite Ascii.eqb_refl.
  - rewrite includes_char_cons. intros H.
    apply orb_false_iff in H. destruct H as [Hc Hi].
    specialize (IH Hi). simpl. rewrite Hc.
    destruct (Js.splitBy _ (a ++ String sep b)) as [|w ws]; simpl in *.
    + now subst a.
    + now subst w.
Qed.

(** The first line of the details of a curated card. *)
Lemma first_line_of_join (whereText : string) (rest : list string) (more : string) :
  Js.includes whereText LF = false ->
  hd "" (Js.split "010"
           (Js.join LF (("Where to find: " ++ whereText) :: more :: rest)))
  = "Where to find: " ++ whereText.
Proof.
  intros H.
  change (Js.join LF (("Where to find: " ++ whereText) :: more :: rest))
    with (("Where to find: " ++ whereText)
          ++ String "010" (String.concat LF (more :: rest))).
  apply split_first_line.
  change (String "010" EmptyString) with LF.
  simpl append. unfold LF in *.
  repeat (rewrite includes_char_cons; simpl orb).
  exact H.
Qed.

(** The first line of a text that starts with "Where to find: ". *)
Lemma first_line_prefix (rest : string) :
  exists tail,
    hd "" (Js.split "010" ("Where to find: " ++ rest)) = "Where to find: " ++ tail.
Proof.
  unfold Js.split. simpl.
  destruct (Js.splitBy _ rest) as [|w ws].
  - now exists "".
  - now exists w.
Qed.

(** The location branch comes first and returns the first line of the
    details. *)
Lemma location_first_line (result : SearchResult.t) (question : string)
      (history : list Page.ChatMessage.t) :
  Page.asksWhere (Page.normalize question) = true ->
  Page.buildFollowUpAnswer result question history
  = "Where-to-find summary:" ++ LF
    ++ hd "" (Js.split "010" (SearchResult.details result)).
Proof.
  intros H. unfold Page.buildFollowUpAnswer. cbv zeta. now rewrite H.
Qed.

Lemma curated_first_line (entry : Curated.KnowledgeEntry.t) (type : SearchType) :
  Js.includes (Curated.KnowledgeEntry.whereToFind entry) LF = false ->
  hd "" (Js.split "010" (SearchResult.details (Curated.toSearchResult entry type)))
  = "Where to find: " ++ Curated.KnowledgeEntry.whereToFind entry.
Proof.
  intros Hnl. unfold Curated.toSearchResult. cbv zeta.
  cbv [SearchResult.details List.app].
  apply first_line_of_join. exact Hnl.
Qed.

Lemma faqOrSummary_answered (result : SearchResult.t) (question : string)
      (b1 b2 : bool) :
  match hd_error
          (Js.sort Page.byScore
             (map (fun item => (item, Page.keywordOverlap question (Faq.question item)))
                  (SearchResult.faq result))) with
  | Some (_, S _) => true
  | _ => false
  end = true ->
  Page.faqOrSummary result question b1 = Page.faqOrSummary result question b2.
Proof.
  unfold Page.faqOrSummary. cbv zeta.
  destruct (hd_error _) as [[item [|n]]|]; intros H; try discriminate.
  reflexivity.
Qed.

(** C10: the answer of the dispatcher depends on the history only
    through the presence of a turn of the user in it: two histories that
    agree on that yield the same text, and an answer given by a keyword
    branch or by an entry of the FAQ is the same for any two histories. *)
Theorem C10_history_through_one_bit
        (result : SearchResult.t) (question : string)
        (history1 history2 : list Page.ChatMessage.t) :
  (existsb Page.isUser history1 = existsb Page.isUser history2 ->
   Page.buildFollowUpAnswer result question history1
   = Page.buildFollowUpAnswer result question history2)
  /\ (answeredBeforeSummary result question = true ->
      Page.buildFollowUpAnswer result question history1
      = Page.buildFollowUpAnswer result question history2).
Proof.
  split.
  - intros H. unfold Page.buildFollowUpAnswer. cbv zeta. now rewrite H.
  - unfold answeredBeforeSummary, Page.buildFollowUpAnswer,
      Page.afterTipBranch. cbv zeta.
    set (q := Page.normalize question).
    set (lines := Js.split "010" (SearchResult.details result)).
    set (tips := filter (fun line => Js.startsWith line "- ") lines).
    destruct (Page.asksWhere q); [reflexivity|].
    destruct (Page.asksHow q); [reflexivity|].
    simpl orb.
    destruct (Page.asksTip q); simpl andb.
    + destruct tips as [|t1 [|t2 tips]]; simpl; try reflexivity.
      destruct (Js.includes q "reddit"); [reflexivity|].
      destruct (Js.includes q "video"); [reflexivity|].
      destruct (Js.includes q "watch"); [reflexivity|].
      simpl. apply faqOrSummary_answered.
    + destruct (Js.includes q "reddit"); [reflexivity|].
      destruct (Js.includes q "video"); [reflexivity|].
      destruct (Js.includes q "watch"); [reflexivity|].
      simpl. apply faqOrSummary_answered.
Qed.

(** An instance: two histories that both hold a turn of the user. *)
Lemma C10_history_witness :
  Page.buildFollowUpAnswer (Live.buildNoMatchResult "warp cell" howto)
    "anything else" [Page.ChatMessage.mk Page.user "first"]
  = Page.buildFollowUpAnswer (Live.buildNoMatchResult "warp cell" howto)
      "anything else"
      [Page.ChatMessage.mk Page.assistant "hello";
       Page.ChatMessage.mk Page.user "second"].
Proof.
  apply (proj1 (C10_history_through_one_bit
                  (Live.buildNoMatchResult "warp cell" howto) "anything else"
                  [Page.ChatMessage.mk Page.user "first"]
                  [Page.ChatMessage.mk Page.assistant "hello";
                   Page.ChatMessage.mk Page.user "second"])).
  reflexivity.
Defined.

(* ================================================================= *)
(** ** The live scorer *)

Lemma count_fold (p : string -> bool) (l : list string) (a : nat) :
  fold_left (fun sum token => sum + (if p token then 1 else 0)) l a
  = a + List.length (filter p l).
Proof.
  revert a. induction l as [|x l IH]; intros a; simpl.
  - lia.
  - rewrite IH. destruct (p x); simpl; lia.
Qed.

Lemma countTokenOverlap_present (text : string) (queryTokens : list string) :
  Live.countTokenOverlap text queryTokens = presentTokens text queryTokens.
Proof.
  unfold Live.countTokenOverlap, presentTokens, Live.has.
  destruct queryTokens as [|t l]; [reflexivity|].
  now rewrite count_fold.
Qed.

Lemma countKeywordHits_present (text : string) (keywords : list string) :
  Live.countKeywordHits text keywords = presentTokens text keywords.
Proof.
  unfold Live.countKeywordHits, presentTokens, Live.has.
  destruct keywords as [|t l]; [reflexivity|].
  now rewrite count_fold.
Qed.

Lemma filter_positive {A : Type} (p : A -> bool) (q : A -> bool) (l : list A) :
  (forall x, In x l -> q x = true) ->
  Nat.ltb 0 (List.length (filter p l)) = existsb q (filter p l).
Proof.
  intros Hq. induction l as [|x l IH]; [reflexivity|].
  simpl. destruct (p x); simpl.
  - rewrite Hq by now left. reflexivity.
  - apply IH. intros y Hy. apply Hq. now right.
Qed.

Lemma metaHits_stemmed (title : string) :
  Nat.ltb 0 (Live.countKeywordHits title Live.META_TITLE_KEYWORDS)
  = hasMetaWord (Live.tokenize title).
Proof.
  rewrite countKeywordHits_present. unfold presentTokens, hasMetaWord.
  set (tokens := Live.tokenize title).
  destruct (existsb _ tokens) eqn:E.
  - apply existsb_exists in E. destruct E as [token [Hin Hmeta]].
    apply existsb_exists in Hmeta. destruct Hmeta as [keyword [Hk Heq]].
    apply String.eqb_eq in Heq. subst keyword.
    assert (Hf : In token (filter (fun k => existsb (String.eqb k) tokens)
                                  Live.META_TITLE_KEYWORDS)).
    { apply filter_In. split; [exact Hk|].
      apply existsb_exists. exists token. split; [exact Hin | apply String.eqb_refl]. }
    destruct (filter _ Live.META_TITLE_KEYWORDS); [contradiction | reflexivity].
  - destruct (filter _ Live.META_TITLE_KEYWORDS) as [|keyword rest] eqn:Ef;
      [reflexivity|].
    exfalso.
    assert (Hf : In keyword (filter (fun k => existsb (String.eqb k) tokens)
                                    Live.META_TITLE_KEYWORDS))
      by (rewrite Ef; now left).
    apply filter_In in Hf. destruct Hf as [Hk Hin].
    apply existsb_exists in Hin. destruct Hin as [token [Hin Heq]].
    apply String.eqb_eq in Heq. subst token.
    assert (Ht : existsb (fun token => existsb (String.eqb token)
                                               Live.META_TITLE_KEYWORDS) tokens = true).
    { apply existsb_exists. exists keyword. split; [exact Hin|].
      apply existsb_exists. exists keyword. split; [exact Hk | apply String.eqb_refl]. }
    congruence.
Qed.

(** The scorer in closed form: the sum in front of the penalty, less 4
    when a stemmed token of the cleaned title is a meta-content word and
    no query token is. *)
Lemma scoreRedditPost_sum (post : Live.RedditPost.t)
      (queryTokens : list string) (type : SearchType) :
  Live.scoreRedditPost post queryTokens type
  = (sumBeforePenalty 1 post queryTokens type
     - (if (hasMetaWord
              (Live.tokenize
                 (Live.cleanText (Live.orElse (Live.RedditPost.title post) "")))
            && negb (hasMetaWord queryTokens))%bool
        then 4 else 0))%R.
Proof.
  unfold Live.scoreRedditPost, sumBeforePenalty, Live.engagementArgument. cbv zeta.
  rewrite metaHits_stemmed.
  rewrite !countTokenOverlap_present, ?countKeywordHits_present.
  reflexivity.
Qed.

(** Every meta-content word but "impressions" is a token of two or more
    characters that the stemming leaves as it is. *)
Lemma meta_word_own_stem (word : string) :
  In word Live.META_TITLE_KEYWORDS -> word <> "impressions" ->
  Nat.ltb 1 (String.length word) = true /\ Live.stem word = word.
Proof.
  intros Hin Hne. simpl in Hin.
  repeat (destruct Hin as [<-|Hin]; [first [now contradiction Hne | split; reflexivity]|]).
  contradiction.
Qed.

Lemma meta_word_stemmed (title word : string) :
  In word (titleWords title) ->
  In word Live.META_TITLE_KEYWORDS -> word <> "impressions" ->
  hasMetaWord (Live.tokenize title) = true.
Proof.
  intros Hword Hmeta Hne.
  destruct (meta_word_own_stem word Hmeta Hne) as [Hlen Hstem].
  unfold hasMetaWord. apply existsb_exists. exists word. split.
  - unfold Live.tokenize. rewrite <- Hstem at 1. apply in_map.
    apply filter_In. split; [exact Hword | exact Hlen].
  - apply existsb_exists. exists word. split; [exact Hmeta | apply String.eqb_refl].
Qed.

(** C3, as the claim states it, fails.  The post [plainPost] has score 0
    and no comments: the scorer gives it 2 log10 2, the sum of the claim
    is 0, and its engagement bonus is not 0.  The post [impressionsPost]
    has the title "First impressions", which holds a meta-content word,
    and its score and comments add up to 9: the stemmed tokens of the
    title are "first" and "impression", the scorer takes nothing off and
    returns 4 more than the sum of the claim for a query without
    meta-content word. *)
Lemma C3_claimed_sum_differs :
  ((Live.orElse (Live.RedditPost.score plainPost) 0
    + Live.orElse (Live.RedditPost.num_comments plainPost) 0 = 0)%Z
   /\ Live.scoreRedditPost plainPost [] howto = (Live.log10 2 * 2)%R
   /\ claimedSum plainPost [] howto = 0%R
   /\ Live.scoreRedditPost plainPost [] howto <> claimedSum plainPost [] howto
   /\ (Live.log10 (IZR (Live.engagementArgument plainPost)) * 2 <> 0)%R)
  /\ (hasMetaWord
        (titleWords
           (Live.cleanText (Live.orElse (Live.RedditPost.title impressionsPost) "")))
      = true
      /\ hasMetaWord ["farm"] = false
      /\ Live.tokenize
           (Live.cleanText (Live.orElse (Live.RedditPost.title impressionsPost) ""))
         = ["first"; "impression"]
      /\ Live.scoreRedditPost impressionsPost ["farm"] howto
         = (claimedSum impressionsPost ["farm"] howto + 4)%R
      /\ Live.scoreRedditPost impressionsPost ["farm"] howto
         <> claimedSum impressionsPost ["farm"] howto).
Proof.
  assert (Hpos := log10_2_pos).
  assert (H0 : claimedSum plainPost [] howto = 0%R).
  { evalCounters. rewrite log10_1. lra. }
  assert (H1 : Live.scoreRedditPost impressionsPost ["farm"] howto
               = (claimedSum impressionsPost ["farm"] howto + 4)%R).
  { evalCounters. lra. }
  split.
  - split; [reflexivity|].
    split; [apply plain_quality|].
    split; [exact H0|].
    split.
    + rewrite plain_quality, H0. lra.
    + change (Live.engagementArgument plainPost) with 2%Z. lra.
  - split; [vm_compute; reflexivity|].
    split; [vm_compute; reflexivity|].
    split; [vm_compute; reflexivity|].
    split; [exact H1|].
    rewrite H1. lra.
Qed.

(** C3 (amended): the live scorer returns the weighted sum of the claim
    with the engagement bonus log10(max(post.score + post.comments, 1) + 1)
    x 2 (the inner maximum is taken with 1, not with 0), less a penalty
    that is 0 or 4.  The penalty is 0 when a query token is a
    meta-content word.  When none is, the penalty is 4 as soon as a
    stemmed token of the title is a meta-content word, which is so when
    the title holds one of the words expedition, update, review,
    screenshot, photo, showcase, trailer; and it is 0 when neither a word
    of the title nor a stemmed token of it is a meta-content word.  A
    post with post.score + post.comments at most 1 receives the bonus
    2 log10 2, which is positive. *)
Theorem C3_scorer_weighted_sum
        (post : Live.RedditPost.t) (queryTokens : list string) (type : SearchType) :
  let title := Live.cleanText (Live.orElse (Live.RedditPost.title post) "") in
  let score := Live.scoreRedditPost post queryTokens type in
  let sum := sumBeforePenalty 1 post queryTokens type in
  (score = sum \/ score = (sum - 4)%R)
  /\ (hasMetaWord queryTokens = true -> score = sum)
  /\ (hasMetaWord queryTokens = false ->
      hasMetaWord (Live.tokenize title) = true -> score = (sum - 4)%R)
  /\ (hasMetaWord queryTokens = false ->
      forall word,
        In word (titleWords title) -> In word Live.META_TITLE_KEYWORDS ->
        word <> "impressions" -> score = (sum - 4)%R)
  /\ (hasMetaWord (titleWords title) = false ->
      hasMetaWord (Live.tokenize title) = false -> score = sum)
  /\ ((Live.orElse (Live.RedditPost.score post) 0
       + Live.orElse (Live.RedditPost.num_comments post) 0 <= 1)%Z ->
      (Live.log10 (IZR (Live.engagementArgument post)) * 2 = Live.log10 2 * 2)%R)
  /\ (0 < Live.log10 2 * 2)%R.
Proof.
  cbv zeta. rewrite scoreRedditPost_sum.
  set (title := Live.cleanText (Live.orElse (Live.RedditPost.title post) "")).
  set (sum := sumBeforePenalty 1 post queryTokens type).
  assert (Hstem : hasMetaWord queryTokens = false ->
                  hasMetaWord (Live.tokenize title) = true ->
                  (sum - (if (hasMetaWord (Live.tokenize title)
                              && negb (hasMetaWord queryTokens))%bool
                          then 4 else 0))%R = (sum - 4)%R).
  { intros Hq Ht. now rewrite Hq, Ht. }
  split; [destruct (hasMetaWord (Live.tokenize title) && _)%bool;
          [right; reflexivity | left; lra]|].
  split; [intros Hq; rewrite Hq, andb_false_r; lra|].
  split; [exact Hstem|].
  split.
  { intros Hq word Hword Hmeta Hne. apply (Hstem Hq).
    exact (meta_word_stemmed title word Hword Hmeta Hne). }
  split; [intros _ Ht; rewrite Ht; simpl; lra|].
  split.
  - intros H. unfold Live.engagementArgument.
    rewrite Z.max_r by exact H. reflexivity.
  - assert (Hpos := log10_2_pos). lra.
Qed.

(** An instance: the post "New trailer" for the query token "farm" loses
    4 for the word "trailer" of its title. *)
Lemma C3_scorer_witness :
  Live.scoreRedditPost trailerPost ["farm"] howto
  = (sumBeforePenalty 1 trailerPost ["farm"] howto - 4)%R.
Proof.
  apply (proj1 (proj2 (proj2 (proj2
           (C3_scorer_weighted_sum trailerPost ["farm"] howto))))
           eq_refl "trailer").
  - vm_compute. right. left. reflexivity.
  - vm_compute. tauto.
  - discriminate.
Defined.

(* ================================================================= *)
(** ** The sentence selector *)

Lemma filter_none {A : Type} (p : A -> bool) (l : list A) :
  (forall x, In x l -> p x = false) -> filter p l = [].
Proof.
  induction l as [|x l IH]; intros H; [reflexivity|].
  simpl. rewrite H by now left. apply IH. intros y Hy. apply H. now right.
Qed.


(** The stable sort on a natural score, largest first. *)
Lemma sort_by_score {A : Type} (f : A -> nat) (l : list A) :
  let sorted := Js.sort (fun a b => Nat.ltb (f a) (f b)) l in
  Permutation sorted l
  /\ StronglySorted (fun a b => f b <= f a) sorted
  /\ forall v, filter (fun x => Nat.eqb (f x) v) sorted
               = filter (fun x => Nat.eqb (f x) v) l.
Proof.
  set (after := fun a b => Nat.ltb (f a) (f b)).
  assert (Hasym : forall a b, after a b = true -> after b a = false).
  { unfold after. intros a b H. apply Nat.ltb_lt in H. apply Nat.ltb_ge. lia. }
  assert (Htrans : forall a b c,
             after a b = false -> after b c = false -> after a c = false).
  { unfold after. intros a b c H1 H2.
    apply Nat.ltb_ge in H1, H2. apply Nat.ltb_ge. lia. }
  cbv zeta. split; [apply sort_perm|]. split.
  - assert (Hs := sort_sorted after Hasym Htrans l).
    eapply StronglySorted_ind with (P := StronglySorted (fun a b => f b <= f a));
      [| |exact Hs].
    + constructor.
    + intros a l' _ IH Hall. constructor; [exact IH|].
      eapply Forall_impl; [|exact Hall].
      intros b Hb. unfold Js.mayPrecede, after in Hb. now apply Nat.ltb_ge in Hb.
  - intros v.
    assert (Hperm := sort_perm after l).
    destruct (existsb (fun x => Nat.eqb (f x) v) l) eqn:E.
    + apply existsb_exists in E. destruct E as [z [_ Hz]].
      apply Nat.eqb_eq in Hz. subst v.
      assert (Hext : forall x, Nat.eqb (f x) (f z) = Js.tied after z x).
      { intros x. unfold Js.tied, after.
        destruct (Nat.eqb_spec (f x) (f z)) as [->|Hne].
        - now rewrite Nat.ltb_irrefl.
        - destruct (Nat.ltb_spec (f z) (f x)); [reflexivity|].
          destruct (Nat.ltb_spec (f x) (f z)); [reflexivity|]. lia. }
      rewrite !(filter_ext _ _ Hext).
      apply (sort_stable after Htrans z l).
    + assert (Hnone : forall x, In x l -> Nat.eqb (f x) v = false).
      { intros x Hx. destruct (Nat.eqb (f x) v) eqn:Ex; [|reflexivity].
        rewrite <- E. symmetry. apply existsb_exists. now exists x. }
      rewrite (filter_none _ l Hnone). apply filter_none.
      intros x Hx. apply Hnone. now apply (Permutation_in _ Hperm).
Qed.

Lemma firstn_filterFrom {A : Type} (p : A -> nat -> bool) (l : list A) :
  forall n i,
    (forall x j, i <= j < i + n -> p x j = true) ->
    firstn n (Js.filterFrom p i l) = firstn n l.
Proof.
  induction l as [|x l IH]; intros n i Hp; [reflexivity|].
  destruct n as [|n]; [reflexivity|].
  simpl. rewrite Hp by lia. simpl. f_equal.
  apply IH. intros y j Hj. apply Hp. lia.
Qed.

(** The selection is the head of the ranking; the filter of the source
    changes nothing within the first [count] places. *)
Lemma pickBestSentences_ranked (sentences : list string)
      (keywordGroups : list (list string)) (fallback : string) (count : nat) :
  Live.pickBestSentences sentences keywordGroups fallback count
  = match firstn count
            (Js.sort (fun a b => Nat.ltb (Live.sentenceScore keywordGroups a)
                                         (Live.sentenceScore keywordGroups b))
                     sentences) with
    | [] => [fallback]
    | ranked => ranked
    end.
Proof.
  unfold Live.pickBestSentences, Js.filteri. cbv zeta.
  rewrite firstn_filterFrom.
  - rewrite <- firstn_map.
    rewrite (sort_decorated (Live.sentenceScore keywordGroups)).
    now destruct (firstn count _).
  - intros x j Hj. apply orb_true_iff. right. apply Nat.ltb_lt. lia.
Qed.





(* ================================================================= *)
(** ** Sorting, deduplication and the limit of eight *)

Lemma sortByQuality_facts (items : list Live.Scored.t) :
  let sorted := Live.sortByQuality items in
  Permutation sorted items
  /\ StronglySorted
       (fun a b => (Live.Scored.qualityScore b <= Live.Scored.qualityScore a)%R)
       sorted
  /\ forall v, filter (hasQuality v) sorted = filter (hasQuality v) items.
Proof.
  assert (Hasym : forall a b,
             Live.byQuality a b = true -> Live.byQuality b a = false).
  { unfold Live.byQuality. intros a b H.
    apply ltR_true in H. apply ltR_false. lra. }
  assert (Htrans : forall a b c,
             Live.byQuality a b = false -> Live.byQuality b c = false ->
             Live.byQuality a c = false).
  { unfold Live.byQuality. intros a b c H1 H2.
    apply ltR_false in H1, H2. apply ltR_false. lra. }
  cbv zeta. unfold Live.sortByQuality.
  split; [apply sort_perm|]. split.
  - assert (Hs := sort_sorted Live.byQuality Hasym Htrans items).
    induction Hs as [|a l _ IH Hall]; constructor; [exact IH|].
    eapply Forall_impl; [|exact Hall].
    intros b Hb. unfold Js.mayPrecede, Live.byQuality in Hb.
    now apply ltR_false in Hb.
  - intros v.
    assert (Hperm := sort_perm Live.byQuality items).
    destruct (existsb (hasQuality v) items) eqn:E.
    + apply existsb_exists in E. destruct E as [z [_ Hz]].
      unfold hasQuality in Hz.
      destruct (Req_dec_T (Live.Scored.qualityScore z) v) as [<-|]; [|discriminate].
      assert (Hext : forall x,
                 hasQuality (Live.Scored.qualityScore z) x
                 = Js.tied Live.byQuality z x).
      { intros x. unfold hasQuality, Js.tied, Live.byQuality.
        destruct (Req_dec_T _ _) as [->|Hne].
        - symmetry. apply andb_true_iff.
          split; apply negb_true_iff, ltR_false; lra.
        - symmetry. apply andb_false_iff.
          destruct (Rlt_dec (Live.Scored.qualityScore z) (Live.Scored.qualityScore x)).
          + left. apply negb_false_iff, ltR_true. exact r.
          + right. apply negb_false_iff, ltR_true. lra. }
      rewrite !(filter_ext _ _ Hext).
      apply (sort_stable Live.byQuality Htrans z items).
    + assert (Hnone : forall x, In x items -> hasQuality v x = false).
      { intros x Hx. destruct (hasQuality v x) eqn:Ex; [|reflexivity].
        rewrite <- E. symmetry. apply existsb_exists. now exists x. }
      rewrite (filter_none _ items Hnone). apply filter_none.
      intros x Hx. apply Hnone. now apply (Permutation_in _ Hperm).
Qed.

Lemma findIndex_app_none {A : Type} (p : A -> bool) (pre l : list A) :
  existsb p pre = false ->
  Js.findIndex p (pre ++ l)%list
  = option_map (Nat.add (List.length pre)) (Js.findIndex p l).
Proof.
  induction pre as [|x pre IH]; simpl; intros H.
  - now destruct (Js.findIndex p l).
  - apply orb_false_iff in H. destruct H as [Hx Hpre].
    rewrite Hx, (IH Hpre). now destruct (Js.findIndex p l).
Qed.

Lemma findIndex_app_some {A : Type} (p : A -> bool) (pre l : list A) :
  existsb p pre = true ->
  exists j, Js.findIndex p (pre ++ l)%list = Some j /\ j < List.length pre.
Proof.
  induction pre as [|x pre IH]; simpl; intros H; [discriminate|].
  destruct (p x).
  - exists 0. split; [reflexivity | lia].
  - destruct (IH H) as [j [Hj Hlt]]. exists (S j). rewrite Hj. split; [reflexivity | lia].
Qed.

Lemma isEmpty_eqb (s : string) : Js.isEmpty s = String.eqb s "".
Proof. now destruct s. Qed.

(** What the deduplicating filter keeps of one non-empty title. *)
Lemma dedupe_title (t : string) (all : list Live.Scored.t) :
  t <> "" ->
  forall l pre,
    all = (pre ++ l)%list ->
    filter (hasTitleKey t)
           (Js.filterFrom (Live.firstOfTitle all) (List.length pre) l)
    = if existsb (hasTitleKey t) pre then []
      else match find (hasTitleKey t) l with
           | Some x => [x]
           | None => []
           end.
Proof.
  intros Ht. induction l as [|x l IH]; intros pre Hall.
  - simpl. now destruct (existsb _ pre).
  - assert (Hall' : all = ((pre ++ [x]) ++ l)%list)
      by (rewrite <- app_assoc; exact Hall).
    specialize (IH (pre ++ [x])%list Hall').
    rewrite length_app in IH. simpl in IH.
    rewrite Nat.add_1_r in IH.
    rewrite existsb_app in IH. simpl in IH. rewrite orb_false_r in IH.
    simpl Js.filterFrom. simpl find.
    destruct (hasTitleKey t x) eqn:Ex.
    + (* the title of [x] is [t] *)
      rewrite orb_true_r in IH.
      assert (Hkey : Live.titleKey x = t) by now apply String.eqb_eq.
      unfold Live.firstOfTitle at 1. cbv zeta. rewrite Hkey.
      rewrite isEmpty_eqb.
      destruct (String.eqb_spec t "") as [Hemp|_]; [contradiction|].
      fold (hasTitleKey t).
      destruct (existsb (hasTitleKey t) pre) eqn:Epre.
      * destruct (findIndex_app_some (hasTitleKey t) pre (x :: l) Epre)
          as [j [Hj Hlt]].
        rewrite <- Hall in Hj. rewrite Hj.
        destruct (Nat.eqb_spec j (List.length pre)) as [Hjl|_]; [lia|].
        exact IH.
      * assert (Hj := findIndex_app_none (hasTitleKey t) pre (x :: l) Epre).
        rewrite <- Hall in Hj. simpl Js.findIndex in Hj.
        rewrite Ex in Hj. simpl option_map in Hj.
        rewrite Nat.add_0_r in Hj. rewrite Hj, Nat.eqb_refl.
        simpl filter. rewrite Ex. now rewrite IH.
    + rewrite orb_false_r in IH.
      destruct (Live.firstOfTitle all x (List.length pre)).
      * simpl filter. rewrite Ex. exact IH.
      * exact IH.
Qed.

(** What the deduplicating filter keeps of the empty title. *)
Lemma dedupe_empty_title (all : list Live.Scored.t) :
  forall l i,
    filter (hasTitleKey "") (Js.filterFrom (Live.firstOfTitle all) i l)
    = match i, l with
      | 0, x :: _ => if hasTitleKey "" x then [x] else []
      | _, _ => []
      end.
Proof.
  assert (Hlater : forall l i,
             filter (hasTitleKey "")
                    (Js.filterFrom (Live.firstOfTitle all) (S i) l) = []).
  { induction l as [|x l IH]; intros i; [reflexivity|].
    simpl Js.filterFrom.
    destruct (hasTitleKey "" x) eqn:Ex.
    - assert (Hkey : Live.titleKey x = "") by now apply String.eqb_eq.
      unfold Live.firstOfTitle at 1. cbv zeta. rewrite Hkey. simpl. apply IH.
    - destruct (Live.firstOfTitle all x (S i)); [|apply IH].
      simpl filter. rewrite Ex. apply IH. }
  intros [|x l] i; [now destruct i|].
  destruct i as [|i]; [|apply Hlater].
  simpl Js.filterFrom.
  destruct (hasTitleKey "" x) eqn:Ex.
  - assert (Hkey : Live.titleKey x = "") by now apply String.eqb_eq.
    unfold Live.firstOfTitle at 1. cbv zeta. rewrite Hkey. simpl.
    rewrite Ex. now rewrite Hlater.
  - destruct (Live.firstOfTitle all x 0); [|apply Hlater].
    simpl filter. rewrite Ex. apply Hlater.
Qed.

Lemma filterFrom_In {A : Type} (p : A -> nat -> bool) (l : list A) :
  forall i x, In x (Js.filterFrom p i l) -> In x l.
Proof.
  induction l as [|y l IH]; intros i x H; [exact H|].
  simpl in H. destruct (p y i).
  - destruct H as [<-|H]; [now left | right; now apply IH with (S i)].
  - right. now apply IH with (S i).
Qed.

Lemma first_leads_sorted {A : Type} (R : A -> A -> Prop) (p : A -> bool)
      (l : list A) :
  (forall a, R a a) ->
  StronglySorted R l ->
  forall z x, find p l = Some z -> In x l -> p x = true -> R z x.
Proof.
  intros Hrefl. induction 1 as [|a l Hs IH Ha]; intros z x Hz Hx Hp.
  - discriminate.
  - simpl in Hz. destruct (p a) eqn:Ea.
    + injection Hz as <-. destruct Hx as [<-|Hx]; [apply Hrefl|].
      rewrite Forall_forall in Ha. now apply Ha.
    + destruct Hx as [<-|Hx]; [congruence|]. now apply IH.
Qed.

(** The sort and the deduplication of any list of scored posts. *)
Lemma sort_dedupe_facts (admitted : list Live.Scored.t) :
  let sorted := Live.sortByQuality admitted in
  let kept := Live.dedupe sorted in
  (Permutation sorted admitted
   /\ StronglySorted
        (fun a b => (Live.Scored.qualityScore b <= Live.Scored.qualityScore a)%R)
        sorted
   /\ forall v, filter (hasQuality v) sorted = filter (hasQuality v) admitted)
  /\ (forall t, t <> "" ->
        filter (hasTitleKey t) kept
        = match find (hasTitleKey t) sorted with
          | Some first => [first]
          | None => []
          end)
  /\ (forall x y, In x sorted -> In y kept ->
        Live.titleKey x = Live.titleKey y -> Live.titleKey y <> "" ->
        (Live.Scored.qualityScore x <= Live.Scored.qualityScore y)%R)
  /\ filter (hasTitleKey "") kept
     = match sorted with
       | first :: _ => if hasTitleKey "" first then [first] else []
       | [] => []
       end.
Proof.
  intros sorted kept.
  assert (Hsort := sortByQuality_facts admitted). cbv zeta in Hsort.
  fold sorted in Hsort.
  assert (Htitle : forall t, t <> "" ->
             filter (hasTitleKey t) kept
             = match find (hasTitleKey t) sorted with
               | Some first => [first]
               | None => []
               end).
  { intros t Ht. exact (dedupe_title t sorted Ht sorted [] eq_refl). }
  split; [exact Hsort|].
  split; [exact Htitle|].
  split.
  - intros x y Hx Hy Hxy Hne.
    assert (Hyk : In y (filter (hasTitleKey (Live.titleKey y)) kept)).
    { apply filter_In. split; [exact Hy | apply String.eqb_refl]. }
    rewrite (Htitle _ Hne) in Hyk.
    destruct (find (hasTitleKey (Live.titleKey y)) sorted) as [z|] eqn:Ez;
      [|contradiction].
    destruct Hyk as [<-|[]].
    apply (first_leads_sorted
             (fun a b => (Live.Scored.qualityScore b <= Live.Scored.qualityScore a)%R)
             (hasTitleKey (Live.titleKey z)) sorted).
    + intros a. apply Rle_refl.
    + apply Hsort.
    + exact Ez.
    + exact Hx.
    + unfold hasTitleKey. rewrite Hxy. apply String.eqb_refl.
  - exact (dedupe_empty_title sorted sorted 0).
Qed.

(** The deduplicating filter of the route retains the first occurrences
    of the titles. *)
Lemma dedupe_firstOccurrences (rest : list Live.Scored.t) :
  forall before,
    Js.filterFrom (Live.firstOfTitle (before ++ rest)) (List.length before) rest
    = firstOccurrences before rest.
Proof.
  induction rest as [|item rest IH]; intros before; [reflexivity|].
  assert (Hall : (before ++ item :: rest = (before ++ [item]) ++ rest)%list)
    by now rewrite <- app_assoc.
  assert (Hnext : Js.filterFrom (Live.firstOfTitle (before ++ item :: rest))
                                (S (List.length before)) rest
                  = firstOccurrences (before ++ [item]) rest).
  { rewrite Hall, <- (IH (before ++ [item])%list).
    rewrite length_app. simpl. now rewrite Nat.add_1_r. }
  assert (Hkeep : Live.firstOfTitle (before ++ item :: rest) item (List.length before)
                  = if Js.isEmpty (Live.titleKey item)
                    then match before with [] => true | _ :: _ => false end
                    else negb (existsb (hasTitleKey (Live.titleKey item)) before)).
  { unfold Live.firstOfTitle. cbv zeta.
    destruct (Js.isEmpty (Live.titleKey item)); [now destruct before|].
    change (fun entry : Live.Scored.t =>
              String.eqb (Live.titleKey entry) (Live.titleKey item))
      with (hasTitleKey (Live.titleKey item)).
    destruct (existsb (hasTitleKey (Live.titleKey item)) before) eqn:E.
    - destruct (findIndex_app_some _ before (item :: rest) E) as [j [-> Hj]].
      simpl. apply Nat.eqb_neq. lia.
    - rewrite (findIndex_app_none _ before (item :: rest) E).
      simpl. unfold hasTitleKey at 1. rewrite String.eqb_refl. simpl.
      apply Nat.eqb_eq. lia. }
  cbn [Js.filterFrom firstOccurrences]. cbv zeta.
  rewrite Hkeep, Hnext. reflexivity.
Qed.

Lemma dedupe_example :
  map Live.Scored.qualityScore
      (Live.dedupe (Live.sortByQuality [scoredAs 9 1 1; scoredAs 12 1 2]))
  = [12%R].
Proof.
  unfold Live.sortByQuality. simpl Js.sort.
  assert (H : Live.byQuality (scoredAs 9 1 1) (scoredAs 12 1 2) = true)
    by (apply ltR_true; simpl; lra).
  rewrite H. reflexivity.
Qed.

(* ================================================================= *)
(** ** Outbound URLs in the answer cards *)

Lemma linkPost_admitted :
  Live.admits ["sentinel"] (Live.scorePost ["sentinel"] howto linkPost) = true.
Proof.
  rewrite admits_one by reflexivity.
  apply andb_true_iff. split; [vm_compute; reflexivity|].
  apply geR_true. simpl Live.Scored.qualityScore.
  evalCounters. assert (H := log10_nonneg 6). lra.
Qed.

Lemma linkPost_results :
  resultsOf (Live.GET (Some "sentinel") None [Some linkPost])
  = [Live.toSearchResultFromReddit (Some linkPost) "sentinel" howto].
Proof.
  unfold Live.GET.
  change (option_map Js.trim (Some "sentinel")) with (Some "sentinel").
  cbv iota beta zeta.
  change (Live.tokenize "sentinel") with ["sentinel"].
  unfold Live.dedupedRanked.
  change (Live.wellFormed [Some linkPost]) with [linkPost].
  simpl map at 2. simpl filter. rewrite linkPost_admitted.
  reflexivity.
Qed.

(** C1 on the code.  The query https://example.org/a with no live post
    yields the no-match card, whose title holds the query and so a URL;
    the curated route does the same; the FAQ question of every live card
    holds the query as it is; and the live card of [linkPost], found for
    the query "sentinel", has the title
    "Sentinel farm https://evil.example/x". *)
Theorem C1_cards_hold_urls :
  (resultsOf (Live.GET (Some "https://example.org/a") None [])
   = [Live.buildNoMatchResult "https://example.org/a" howto]
   /\ SearchResult.title (Live.buildNoMatchResult "https://example.org/a" howto)
      = "No live community match for "
        ++ String "034" ("https://example.org/a" ++ String "034" " yet")
   /\ existsb cardHasUrl (resultsOf (Live.GET (Some "https://example.org/a") None []))
      = true)
  /\ existsb cardHasUrl (resultsOf (Curated.GET (Some "https://example.org/a") None))
     = true
  /\ (forall post type,
        map Faq.question
            (SearchResult.faq
               (Live.toSearchResultFromReddit post "https://example.org/a" type))
        = ["How current is this guidance for https://example.org/a?"]
        /\ cardHasUrl (Live.toSearchResultFromReddit post "https://example.org/a" type)
           = true)
  /\ (resultsOf (Live.GET (Some "sentinel") None [Some linkPost])
      = [Live.toSearchResultFromReddit (Some linkPost) "sentinel" howto]
      /\ SearchResult.title
           (Live.toSearchResultFromReddit (Some linkPost) "sentinel" howto)
         = "Sentinel farm https://evil.example/x"
      /\ existsb cardHasUrl
           (resultsOf (Live.GET (Some "sentinel") None [Some linkPost]))
         = true).
Proof.
  split; [|split; [|split]].
  - split; [reflexivity|]. split; [reflexivity|]. vm_compute. reflexivity.
  - vm_compute. reflexivity.
  - intros post type. split; [reflexivity|].
    unfold cardHasUrl, cardStrings.
    rewrite !existsb_app. apply orb_true_iff. right.
    apply orb_true_iff. right. apply orb_true_iff. right.
    vm_compute. reflexivity.
  - split; [apply linkPost_results|].
    split; [vm_compute; reflexivity|].
    rewrite linkPost_results. vm_compute. reflexivity.
Qed.

(* ================================================================= *)
(** ** Replacement, white space and words *)

Lemma replaceFrom_here (m : string -> option nat) (rep : string -> string)
      (c : ascii) (s : string) :
  Js.replaceFrom m rep 0 (String c s)
  = match m (String c s) with
    | Some (S n) => rep (substring 0 (S n) (String c s)) ++ Js.replaceFrom m rep n s
    | _ => String c (Js.replaceFrom m rep 0 s)
    end.
Proof. reflexivity. Qed.

Lemma replaceFrom_skip (m : string -> option nat) (rep : string -> string)
      (k : nat) (c : ascii) (s : string) :
  Js.replaceFrom m rep (S k) (String c s) = Js.replaceFrom m rep k s.
Proof. reflexivity. Qed.

Lemma reSpaces_cons (c : ascii) (s : string) :
  Js.reSpaces (String c s)
  = if Js.isSpace c then Some (S (fst (Js.span Js.isSpace s))) else None.
Proof.
  unfold Js.reSpaces. simpl. destruct (Js.isSpace c); [|reflexivity].
  now destruct (Js.span Js.isSpace s).
Qed.

Lemma span_cons (p : ascii -> bool) (c : ascii) (s : string) :
  fst (Js.span p (String c s)) = if p c then S (fst (Js.span p s)) else 0.
Proof.
  simpl. destruct (p c); [|reflexivity]. now destruct (Js.span p s).
Qed.

(** The replacement of the runs of white space by one character is the
    scan [squeezeFrom]. *)
Lemma collapse_squeezeFrom (rep : string -> string) (s : string) :
  (forall x, rep x = " ") ->
  Js.replaceFrom Js.reSpaces rep 0 s = squeezeFrom false s
  /\ Js.replaceFrom Js.reSpaces rep (fst (Js.span Js.isSpace s)) s
     = squeezeFrom true s.
Proof.
  intros Hrep. induction s as [|c s [IH0 IH1]]; [split; reflexivity|].
  assert (H0 : Js.replaceFrom Js.reSpaces rep 0 (String c s)
               = squeezeFrom false (String c s)).
  { rewrite replaceFrom_here, reSpaces_cons. simpl squeezeFrom.
    destruct (Js.isSpace c).
    - now rewrite Hrep, IH1.
    - now rewrite IH0. }
  split; [exact H0|].
  rewrite span_cons. simpl squeezeFrom in *.
  destruct (Js.isSpace c).
  - rewrite replaceFrom_skip. exact IH1.
  - exact H0.
Qed.

Lemma collapseSpaces_squeezeFrom (s : string) :
  Js.collapseSpaces s = squeezeFrom false s.
Proof.
  unfold Js.collapseSpaces, Js.replaceAll.
  now apply collapse_squeezeFrom.
Qed.

Lemma squeezeFrom_true_head (s : string) :
  Js.trimStart (squeezeFrom true s) = squeezeFrom true s.
Proof.
  induction s as [|c s IH]; [reflexivity|].
  simpl. destruct (Js.isSpace c) eqn:E; [exact IH|].
  simpl. now rewrite E.
Qed.

Lemma trimStart_squeezeFrom (s : string) :
  Js.trimStart (squeezeFrom false s) = squeezeFrom true s.
Proof.
  destruct s as [|c s]; [reflexivity|].
  simpl. destruct (Js.isSpace c) eqn:E.
  - simpl. apply squeezeFrom_true_head.
  - simpl. now rewrite E.
Qed.

Lemma trimEnd_cons_word (c : ascii) (s : string) :
  Js.isSpace c = false -> Js.trimEnd (String c s) = String c (Js.trimEnd s).
Proof.
  intros E. simpl. rewrite E. now destruct (Js.trimEnd s).
Qed.

Lemma splitBy_cons (p : ascii -> bool) (s : string) :
  exists w ws, Js.splitBy p s = w :: ws.
Proof.
  induction s as [|c s [w [ws IH]]]; simpl.
  - now exists "", [].
  - destruct (p c); [now exists "", (Js.splitBy p s)|].
    rewrite IH. simpl. now exists (String c w), ws.
Qed.

(** The words are not empty. *)
Lemma words_nonempty (s : string) :
  Forall (fun w => w <> "") (words s).
Proof.
  unfold words. apply Forall_forall. intros w Hw.
  apply filter_In in Hw. destruct Hw as [_ Hw]. now destruct w.
Qed.

Lemma append_empty (s : string) : s ++ "" = s.
Proof. induction s as [|c s IH]; simpl; [reflexivity | now rewrite IH]. Qed.

Lemma append_assoc (a b c : string) : (a ++ b) ++ c = a ++ (b ++ c).
Proof. induction a as [|x a IH]; simpl; [reflexivity | now rewrite IH]. Qed.

Lemma join_glue (w : string) (ws : list string) :
  String.concat " " (w :: ws) = w ++ glue ws.
Proof.
  revert w. induction ws as [|w' ws IH]; intros w.
  - simpl. now rewrite append_empty.
  - change (String.concat " " (w :: w' :: ws))
      with (w ++ String " " (String.concat " " (w' :: ws))).
    now rewrite IH.
Qed.

(** The scan in its two states, trimmed at the end, in terms of the
    pieces of the text. *)
Lemma trimEnd_squeezeFrom (s : string) :
  Js.trimEnd (squeezeFrom false s)
  = hd "" (Js.splitBy Js.isSpace s)
    ++ glue (filter (fun w => negb (Js.isEmpty w)) (tl (Js.splitBy Js.isSpace s)))
  /\ Js.trimEnd (squeezeFrom true s) = Js.join " " (words s).
Proof.
  unfold words, Js.join.
  induction s as [|c s [IHf IHt]]; [split; reflexivity|].
  simpl squeezeFrom. simpl Js.splitBy.
  destruct (Js.isSpace c) eqn:E.
  - split.
    + simpl hd. simpl tl. simpl append.
      change (Js.trimEnd (String " " (squeezeFrom true s)))
        with (match Js.trimEnd (squeezeFrom true s) with
              | EmptyString => EmptyString
              | t => String " " t
              end).
      rewrite IHt.
      destruct (filter _ (Js.splitBy Js.isSpace s)) as [|w ws] eqn:Ef;
        [reflexivity|].
      assert (Hw : w <> "").
      { assert (Hin : In w (filter (fun w => negb (Js.isEmpty w))
                                   (Js.splitBy Js.isSpace s)))
          by (rewrite Ef; now left).
        apply filter_In in Hin. destruct Hin as [_ Hin]. now destruct w. }
      destruct w as [|a w]; [congruence|].
      rewrite join_glue. reflexivity.
    + simpl filter. exact IHt.
  - destruct (splitBy_cons Js.isSpace s) as [w [ws Hs]].
    rewrite Hs in *. simpl in IHf. simpl Js.consHead.
    rewrite (trimEnd_cons_word _ _ E), IHf.
    split; [reflexivity|].
    simpl filter. rewrite join_glue. reflexivity.
Qed.

(** [value.replace(/\s+/g, " ").trim()] joins the words of the text. *)
Lemma squeeze_words (s : string) :
  Js.trim (Js.collapseSpaces s) = Js.join " " (words s).
Proof.
  unfold Js.trim. rewrite collapseSpaces_squeezeFrom, trimStart_squeezeFrom.
  apply trimEnd_squeezeFrom.
Qed.

Lemma splitBy_app (p : ascii -> bool) (sep : ascii) (a b : string) :
  p sep = true ->
  Js.splitBy p (a ++ String sep b) = (Js.splitBy p a ++ Js.splitBy p b)%list.
Proof.
  intros Hsep. induction a as [|c a IH]; simpl.
  - now rewrite Hsep.
  - rewrite IH. destruct (p c); [reflexivity|].
    destruct (splitBy_cons p a) as [w [ws ->]]. reflexivity.
Qed.

Lemma words_app (sep : ascii) (a b : string) :
  Js.isSpace sep = true ->
  words (a ++ String sep b) = (words a ++ words b)%list.
Proof.
  intros Hsep. unfold words. rewrite (splitBy_app _ _ _ _ Hsep).
  apply filter_app.
Qed.

Lemma splitBy_spaceFree (p : ascii -> bool) (w : string) :
  (forall c, p c = true -> Js.isSpace c = true) ->
  spaceFree w = true -> Js.splitBy p w = [w].
Proof.
  intros Hp. induction w as [|c w IH]; [reflexivity|].
  simpl. intros H. apply andb_true_iff in H. destruct H as [Hc Hw].
  destruct (p c) eqn:E.
  - apply Hp in E. rewrite E in Hc. discriminate.
  - now rewrite (IH Hw).
Qed.

Lemma splitBy_pieces_spaceFree (s : string) :
  Forall (fun w => spaceFree w = true) (Js.splitBy Js.isSpace s).
Proof.
  induction s as [|c s IH]; simpl.
  - constructor; [reflexivity | constructor].
  - destruct (Js.isSpace c) eqn:E.
    + constructor; [reflexivity | exact IH].
    + destruct (Js.splitBy Js.isSpace s) as [|w ws]; simpl.
      * constructor; [|constructor]. simpl. now rewrite E.
      * inversion IH as [|? ? Hw Hws]; subst.
        constructor; [|exact Hws]. simpl. now rewrite E, Hw.
Qed.

Lemma words_spaceFree (s : string) :
  Forall (fun w => spaceFree w = true) (words s).
Proof.
  unfold words. apply Forall_forall. intros w Hw.
  apply filter_In in Hw. destruct Hw as [Hw _].
  exact (proj1 (Forall_forall _ _) (splitBy_pieces_spaceFree s) w Hw).
Qed.

(** Splitting the joined words gives the words back. *)
Lemma splitBy_join (p : ascii -> bool) (ws : list string) :
  p " "%char = true ->
  (forall c, p c = true -> Js.isSpace c = true) ->
  Forall (fun w => spaceFree w = true) ws ->
  Js.splitBy p (Js.join " " ws)
  = match ws with
    | [] => [EmptyString]
    | _ => ws
    end.
Proof.
  intros Hsp Hp. unfold Js.join.
  induction 1 as [|w ws Hw Hws IH]; [reflexivity|].
  destruct ws as [|w' ws].
  - simpl. now apply splitBy_spaceFree.
  - change (String.concat " " (w :: w' :: ws))
      with (w ++ String " " (String.concat " " (w' :: ws))).
    rewrite (splitBy_app _ _ _ _ Hsp), IH.
    now rewrite (splitBy_spaceFree _ _ Hp Hw).
Qed.

Lemma words_join (ws : list string) :
  Forall (fun w => spaceFree w = true) ws ->
  Forall (fun w => w <> "") ws ->
  words (Js.join " " ws) = ws.
Proof.
  intros Hfree Hne. unfold words.
  rewrite (splitBy_join Js.isSpace ws eq_refl (fun c H => H) Hfree).
  destruct ws as [|w ws]; [reflexivity|].
  apply forallb_filter_id. apply forallb_forall. intros x Hx.
  rewrite Forall_forall in Hne. specialize (Hne x Hx). now destruct x.
Qed.

(** [value.replace(/\s+/g, " ").trim()] is idempotent. *)
Lemma squeeze_idempotent (s : string) :
  Js.trim (Js.collapseSpaces (Js.trim (Js.collapseSpaces s)))
  = Js.trim (Js.collapseSpaces s).
Proof.
  rewrite !squeeze_words.
  now rewrite (words_join _ (words_spaceFree s) (words_nonempty s)).
Qed.

(* ================================================================= *)
(** ** The link stripper *)

Lemma space_lower (c : ascii) : Js.isSpace c = true -> Js.toLowerChar c = c.
Proof.
  unfold Js.isSpace. simpl. rewrite !orb_true_iff.
  intros H.
  repeat match goal with
         | H : _ \/ _ |- _ => destruct H as [H|H]
         end;
    try discriminate;
    apply Ascii.eqb_eq in H; subst c; reflexivity.
Qed.

(** A pattern without white space sees only the first word. *)
Lemma prefixCI_firstWord (p s : string) :
  spaceFree p = true ->
  Live.prefixCI p (firstWord s) = option_map firstWord (Live.prefixCI p s).
Proof.
  revert s. induction p as [|a p IH]; intros s Hp; [reflexivity|].
  simpl in Hp. apply andb_true_iff in Hp. destruct Hp as [Ha Hp].
  destruct s as [|c s]; [reflexivity|].
  simpl. destruct (Js.isSpace c) eqn:E.
  - rewrite (space_lower _ E).
    destruct (Ascii.eqb_spec c a) as [->|_]; [|reflexivity].
    rewrite E in Ha. discriminate.
  - simpl. destruct (Ascii.eqb (Js.toLowerChar c) a); [now apply IH | reflexivity].
Qed.

Lemma prefixCI_app (p s t : string) (r : string) :
  Live.prefixCI p s = Some r -> Live.prefixCI p (s ++ t) = Some (r ++ t).
Proof.
  revert s. induction p as [|a p IH]; intros s H.
  - simpl in *. now injection H as <-.
  - destruct s as [|c s]; [discriminate|].
    simpl in *. destruct (Ascii.eqb (Js.toLowerChar c) a); [now apply IH | discriminate].
Qed.

Lemma prefixCI_drop (p s r : string) :
  Live.prefixCI p s = Some r -> r = Js.dropString (String.length p) s.
Proof.
  revert s. induction p as [|a p IH]; intros s H.
  - simpl in *. injection H as <-. now destruct s.
  - destruct s as [|c s]; [discriminate|].
    simpl in *. destruct (Ascii.eqb (Js.toLowerChar c) a); [now apply IH | discriminate].
Qed.

Lemma urlScheme_firstWord (s : string) :
  Live.urlScheme (firstWord s)
  = option_map (fun kr => (fst kr, firstWord (snd kr))) (Live.urlScheme s).
Proof.
  unfold Live.urlScheme.
  rewrite !prefixCI_firstWord by reflexivity.
  destruct (Live.prefixCI "https://" s); [reflexivity|].
  destruct (Live.prefixCI "http://" s); [reflexivity|].
  destruct (Live.prefixCI "www." s); reflexivity.
Qed.

Lemma urlScheme_app (s t : string) (k : nat) (r : string) :
  Live.urlScheme s = Some (k, r) -> Live.urlScheme (s ++ t) = Some (k, r ++ t).
Proof.
  unfold Live.urlScheme.
  destruct (Live.prefixCI "https://" s) as [r1|] eqn:E1.
  - intros H. injection H as <- <-. now rewrite (prefixCI_app _ _ t _ E1).
  - destruct (Live.prefixCI "http://" s) as [r2|] eqn:E2.
    + intros H. injection H as <- <-.
      destruct (Live.prefixCI "https://" (s ++ t)) as [r1'|] eqn:E1'.
      * (* the longer scheme cannot appear: the eighth character is fixed *)
        exfalso. clear -E1 E2 E1'.
        do 4 (destruct s as [|? s]; [discriminate|];
              simpl in E1, E2, E1';
              destruct (Ascii.eqb (Js.toLowerChar _) _); [|discriminate]).
        destruct s as [|c s]; [discriminate|].
        simpl in E1, E2, E1'.
        destruct (Ascii.eqb (Js.toLowerChar c) ":") eqn:Ec; [|discriminate].
        apply Ascii.eqb_eq in Ec. rewrite Ec in E1'. discriminate.
      * now rewrite (prefixCI_app _ _ t _ E2).
    + destruct (Live.prefixCI "www." s) as [r3|] eqn:E3; [|discriminate].
      intros H. injection H as <- <-.
      destruct (Live.prefixCI "https://" (s ++ t)) as [r1'|] eqn:E1'.
      * exfalso. clear -E3 E1'.
        destruct s as [|c s]; [discriminate|].
        simpl in E3, E1'.
        destruct (Ascii.eqb (Js.toLowerChar c) "w") eqn:Ec; [|discriminate].
        apply Ascii.eqb_eq in Ec. rewrite Ec in E1'. discriminate.
      * destruct (Live.prefixCI "http://" (s ++ t)) as [r2'|] eqn:E2'.
        -- exfalso. clear -E3 E2'.
           destruct s as [|c s]; [discriminate|].
           simpl in E3, E2'.
           destruct (Ascii.eqb (Js.toLowerChar c) "w") eqn:Ec; [|discriminate].
           apply Ascii.eqb_eq in Ec. rewrite Ec in E2'. discriminate.
        -- now rewrite (prefixCI_app _ _ t _ E3).
Qed.

Lemma urlScheme_drop (s r : string) (k : nat) :
  Live.urlScheme s = Some (k, r) -> r = Js.dropString k s.
Proof.
  unfold Live.urlScheme.
  destruct (Live.prefixCI "https://" s) as [r1|] eqn:E1.
  - intros H. injection H as <- <-. exact (prefixCI_drop _ _ _ E1).
  - destruct (Live.prefixCI "http://" s) as [r2|] eqn:E2.
    + intros H. injection H as <- <-. exact (prefixCI_drop _ _ _ E2).
    + destruct (Live.prefixCI "www." s) as [r3|] eqn:E3; [|discriminate].
      intros H. injection H as <- <-. exact (prefixCI_drop _ _ _ E3).
Qed.

Lemma span_firstWord (s : string) :
  fst (Js.span Js.notSpace (firstWord s)) = fst (Js.span Js.notSpace s).
Proof.
  induction s as [|c s IH]; [reflexivity|].
  simpl firstWord. rewrite span_cons. unfold Js.notSpace at 2.
  destruct (Js.isSpace c) eqn:E; [reflexivity|].
  rewrite span_cons. unfold Js.notSpace at 1. rewrite E. simpl. now rewrite IH.
Qed.

(** The bare URL expression sees only the first word of a text. *)
Lemma reBareUrl_firstWord (s : string) :
  Live.reBareUrl (firstWord s) = Live.reBareUrl s.
Proof.
  unfold Live.reBareUrl. rewrite urlScheme_firstWord.
  destruct (Live.urlScheme s) as [[k r]|]; [|reflexivity].
  simpl. now rewrite span_firstWord.
Qed.

Lemma span_app_positive (p : ascii -> bool) (r t : string) :
  fst (Js.span p r) <> 0 -> fst (Js.span p (r ++ t)) <> 0.
Proof.
  destruct r as [|c r]; [easy|].
  simpl append. rewrite !span_cons. now destruct (p c).
Qed.

(** A match of the bare URL expression stays when the text goes on. *)
Lemma reBareUrl_app (s t : string) :
  Live.reBareUrl s <> None -> Live.reBareUrl (s ++ t) <> None.
Proof.
  unfold Live.reBareUrl.
  destruct (Live.urlScheme s) as [[k r]|] eqn:E; [|easy].
  rewrite (urlScheme_app _ t _ _ E).
  intros H.
  assert (Hr : fst (Js.span Js.notSpace r) <> 0)
    by (destruct (fst (Js.span Js.notSpace r)); congruence).
  apply (span_app_positive _ _ t) in Hr.
  destruct (fst (Js.span Js.notSpace (r ++ t))); congruence.
Qed.

Lemma dropString_add (a b : nat) (s : string) :
  Js.dropString (a + b) s = Js.dropString b (Js.dropString a s).
Proof.
  revert s. induction a as [|a IH]; intros s; [reflexivity|].
  destruct s as [|c s]; [now destruct b|]. simpl. apply IH.
Qed.

Lemma span_rest (p : ascii -> bool) (s : string) :
  snd (Js.span p s) = Js.dropString (fst (Js.span p s)) s.
Proof.
  induction s as [|c s IH]; [reflexivity|].
  simpl. destruct (p c); [|reflexivity].
  destruct (Js.span p s) as [n r]. simpl in *. exact IH.
Qed.

Lemma span_notSpace_led (s : string) :
  spaceLed (snd (Js.span Js.notSpace s)) = true.
Proof.
  induction s as [|c s IH]; [reflexivity|].
  simpl. unfold Js.notSpace at 1. destruct (Js.isSpace c) eqn:E; simpl.
  - exact E.
  - destruct (Js.span Js.notSpace s) as [n r]. exact IH.
Qed.

(** A match of the bare URL expression ends at white space or at the
    end of the text. *)
Lemma reBareUrl_end (s : string) (n : nat) :
  Live.reBareUrl s = Some n -> spaceLed (Js.dropString n s) = true.
Proof.
  unfold Live.reBareUrl.
  destruct (Live.urlScheme s) as [[k r]|] eqn:E; [|discriminate].
  apply urlScheme_drop in E.
  destruct (fst (Js.span Js.notSpace r)) as [|m] eqn:Em; [discriminate|].
  intros H. injection H as <-.
  rewrite dropString_add, <- E, <- Em, <- span_rest.
  apply span_notSpace_led.
Qed.

Lemma reBareUrl_spaceLed (s : string) :
  spaceLed s = true -> Live.reBareUrl s = None.
Proof.
  destruct s as [|c s]; [reflexivity|].
  simpl. intros E. unfold Live.reBareUrl, Live.urlScheme. simpl.
  rewrite (space_lower _ E).
  destruct (Ascii.eqb_spec c "h") as [->|_]; [discriminate|].
  destruct (Ascii.eqb_spec c "w") as [->|_]; [discriminate|].
  reflexivity.
Qed.

Lemma replaceFrom_drop (m : string -> option nat) (rep : string -> string)
      (s : string) :
  m "" = None ->
  forall k, Js.replaceFrom m rep k s = Js.replaceFrom m rep 0 (Js.dropString k s).
Proof.
  intros Hm. induction s as [|c s IH]; intros [|k]; try reflexivity.
  - simpl. now rewrite Hm.
  - rewrite replaceFrom_skip. simpl Js.dropString. apply IH.
Qed.

Lemma erased_spaceLed (s : string) :
  spaceLed s = true ->
  spaceLed (Js.replaceFrom Live.reBareUrl Live.erase 0 s) = true.
Proof.
  intros H. destruct s as [|c s]; [reflexivity|].
  rewrite replaceFrom_here, (reBareUrl_spaceLed _ H). exact H.
Qed.

Lemma firstWord_app_led (p r : string) :
  spaceLed r = true -> firstWord (p ++ r) = firstWord p.
Proof.
  intros H. induction p as [|c p IH]; simpl.
  - destruct r as [|d r]; [reflexivity|]. simpl in *. now rewrite H.
  - now rewrite IH.
Qed.

(** What no bare URL starts, no bare URL starts after the removal of
    the bare URLs behind it. *)
Lemma erased_no_new_match (s : string) :
  forall pre,
    Live.reBareUrl (pre ++ s) = None ->
    Live.reBareUrl (pre ++ Js.replaceFrom Live.reBareUrl Live.erase 0 s) = None.
Proof.
  induction s as [|d s IH]; intros pre H; [exact H|].
  rewrite replaceFrom_here.
  destruct (Live.reBareUrl (String d s)) as [[|n]|] eqn:E.
  - replace (pre ++ String d (Js.replaceFrom Live.reBareUrl Live.erase 0 s))
      with ((pre ++ String d "") ++ Js.replaceFrom Live.reBareUrl Live.erase 0 s)
      by (rewrite append_assoc; reflexivity).
    apply IH. rewrite append_assoc. exact H.
  - unfold Live.erase at 1. simpl append at 2.
    rewrite (replaceFrom_drop _ _ _ eq_refl).
    assert (Hled : spaceLed (Js.replaceFrom Live.reBareUrl Live.erase 0
                               (Js.dropString n s)) = true).
    { apply erased_spaceLed. exact (reBareUrl_end _ _ E). }
    rewrite <- reBareUrl_firstWord, (firstWord_app_led _ _ Hled),
      reBareUrl_firstWord.
    destruct (Live.reBareUrl pre) eqn:Ep; [|reflexivity].
    exfalso. apply (reBareUrl_app pre (String d s)); [congruence | exact H].
  - replace (pre ++ String d (Js.replaceFrom Live.reBareUrl Live.erase 0 s))
      with ((pre ++ String d "") ++ Js.replaceFrom Live.reBareUrl Live.erase 0 s)
      by (rewrite append_assoc; reflexivity).
    apply IH. rewrite append_assoc. exact H.
Qed.

Lemma test_cons (m : string -> option nat) (c : ascii) (s : string) :
  Js.test m (String c s)
  = match m (String c s) with
    | Some _ => true
    | None => Js.test m s
    end.
Proof. reflexivity. Qed.

(** After the removal of the bare URLs no bare URL is left. *)
Lemma erased_no_url (s : string) :
  forall k, containsUrl (Js.replaceFrom Live.reBareUrl Live.erase k s) = false.
Proof.
  unfold containsUrl.
  induction s as [|c s IH]; intros k.
  - destruct k; reflexivity.
  - destruct k as [|k]; [|rewrite replaceFrom_skip; apply IH].
    rewrite replaceFrom_here.
    destruct (Live.reBareUrl (String c s)) as [[|n]|] eqn:E.
    + (* a match of length 0 does not occur *)
      exfalso. unfold Live.reBareUrl in E.
      destruct (Live.urlScheme (String c s)) as [[k r]|] eqn:Ek; [|discriminate].
      destruct (fst (Js.span Js.notSpace r)); [discriminate|].
      injection E as E. lia.
    + unfold Live.erase at 1. apply IH.
    + rewrite test_cons.
      assert (Hn := erased_no_new_match s (String c "") E).
      simpl append in Hn. rewrite Hn. apply IH.
Qed.

(** A replacement that finds no match leaves the text as it is. *)
Lemma replaceAll_no_match (m : string -> option nat) (rep : string -> string)
      (s : string) :
  Js.test m s = false -> Js.replaceAll m rep s = s.
Proof.
  unfold Js.replaceAll. induction s as [|c s IH]; intros H.
  - simpl in *. now destruct (m "").
  - rewrite test_cons in H. rewrite replaceFrom_here.
    destruct (m (String c s)); [discriminate|]. now rewrite IH.
Qed.

Lemma firstWord_piece (s : string) :
  hd "" (Js.splitBy Js.isSpace s) = firstWord s.
Proof.
  induction s as [|c s IH]; [reflexivity|].
  simpl. destruct (Js.isSpace c); [reflexivity|].
  destruct (splitBy_cons Js.isSpace s) as [w [ws Hs]].
  rewrite Hs in *. simpl in *. now rewrite IH.
Qed.

Lemma firstWord_idempotent (s : string) : firstWord (firstWord s) = firstWord s.
Proof.
  induction s as [|c s IH]; [reflexivity|].
  simpl. destruct (Js.isSpace c) eqn:E; [reflexivity|].
  simpl. now rewrite E, IH.
Qed.

(** A text holds a URL exactly when one of its pieces between white
    space does. *)
Lemma containsUrl_pieces (s : string) :
  containsUrl s = existsb containsUrl (Js.splitBy Js.isSpace s).
Proof.
  unfold containsUrl.
  induction s as [|c s IH]; [reflexivity|].
  rewrite test_cons. simpl Js.splitBy.
  destruct (Js.isSpace c) eqn:E.
  - rewrite (reBareUrl_spaceLed (String c s) E). simpl. exact IH.
  - assert (Hfw := firstWord_piece s).
    destruct (splitBy_cons Js.isSpace s) as [w [ws Hs]].
    rewrite Hs in *. simpl in Hfw. simpl Js.consHead. simpl existsb.
    assert (Hsame : Live.reBareUrl (String c w) = Live.reBareUrl (String c s)).
    { rewrite <- (reBareUrl_firstWord (String c w)),
        <- (reBareUrl_firstWord (String c s)).
      simpl. rewrite E. subst w. now rewrite firstWord_idempotent. }
    rewrite Hsame.
    destruct (Live.reBareUrl (String c s)); [reflexivity|].
    rewrite IH. reflexivity.
Qed.

Lemma containsUrl_words (s : string) :
  containsUrl s = existsb containsUrl (words s).
Proof.
  rewrite containsUrl_pieces. unfold words.
  induction (Js.splitBy Js.isSpace s) as [|w ws IH]; [reflexivity|].
  simpl. destruct w as [|a w]; simpl.
  - exact IH.
  - now rewrite IH.
Qed.

(** [value.replace(/\s+/g, " ").trim()] neither adds nor removes a URL. *)
Lemma containsUrl_squeeze (s : string) :
  containsUrl (Js.trim (Js.collapseSpaces s)) = containsUrl s.
Proof.
  rewrite squeeze_words, (containsUrl_words (Js.join " " (words s))).
  rewrite (words_join _ (words_spaceFree s) (words_nonempty s)).
  symmetry. apply containsUrl_words.
Qed.

(** C4, as the claim states it, fails: the link stripper turns the text
    [a]([b](http://y)www. z) into [a](www. z), which still holds a
    markdown link span, and a second pass removes that span. *)
Lemma C4_nested_link_survives :
  Live.stripExternalLinks "[a]([b](http://y)www. z)" = "[a](www. z)"
  /\ containsMarkdownLink (Live.stripExternalLinks "[a]([b](http://y)www. z)")
     = true
  /\ Live.stripExternalLinks (Live.stripExternalLinks "[a]([b](http://y)www. z)")
     <> Live.stripExternalLinks "[a]([b](http://y)www. z)".
Proof.
  split; [vm_compute; reflexivity|].
  split; [vm_compute; reflexivity|].
  vm_compute. discriminate.
Qed.

(** C4 (amended): for every input string x, [stripExternalLinks x] holds
    no bare http(s):// or www.-prefixed token; a markdown span that was
    put together by the removal of an inner link or of a bare URL can
    remain, and on every x whose result holds no markdown span at all the
    link stripper is idempotent. *)
Theorem C4_strip_links_bare_url_free (x : string) :
  containsUrl (Live.stripExternalLinks x) = false
  /\ (containsMarkdownLink (Live.stripExternalLinks x) = false ->
      Live.stripExternalLinks (Live.stripExternalLinks x)
      = Live.stripExternalLinks x).
Proof.
  assert (Hfree : containsUrl (Live.stripExternalLinks x) = false).
  { unfold Live.stripExternalLinks. rewrite containsUrl_squeeze.
    apply erased_no_url. }
  split; [exact Hfree|].
  intros Hmd.
  set (y := Live.stripExternalLinks x) in *.
  unfold Live.stripExternalLinks at 1.
  rewrite (replaceAll_no_match _ _ _ Hmd), (replaceAll_no_match _ _ _ Hfree).
  subst y. unfold Live.stripExternalLinks. apply squeeze_idempotent.
Qed.

(** An instance: a text with a markdown link and a bare URL. *)
Lemma C4_strip_links_witness :
  Live.stripExternalLinks
    (Live.stripExternalLinks "see [the wiki](https://nms.example/w) or www.x.org now")
  = Live.stripExternalLinks "see [the wiki](https://nms.example/w) or www.x.org now".
Proof.
  apply (proj2 (C4_strip_links_bare_url_free
                  "see [the wiki](https://nms.example/w) or www.x.org now")).
  vm_compute. reflexivity.
Defined.

(* ================================================================= *)
(** ** The local knowledge scorer *)

Lemma mapString_app (f : ascii -> ascii) (a b : string) :
  Js.mapString f (a ++ b) = Js.mapString f a ++ Js.mapString f b.
Proof. induction a as [|c a IH]; simpl; [reflexivity | now rewrite IH]. Qed.

(** The tokens of the curated route are the words of two or more
    characters of the text in lower case with every other character than
    a-z, 0-9 and white space blanked. *)
Lemma tokenize_words (value : string) :
  Curated.tokenize value
  = filter (fun token => Nat.ltb 1 (String.length token))
           (words (Js.mapString blankOther (Js.toLowerCase value))).
Proof.
  unfold Curated.tokenize, normalizeForMatch, Js.split.
  rewrite squeeze_words.
  rewrite splitBy_join.
  - now destruct (words _).
  - reflexivity.
  - intros c H. apply Ascii.eqb_eq in H. now subst c.
  - apply words_spaceFree.
Qed.

Lemma tokenize_app (a b : string) :
  Curated.tokenize (a ++ " " ++ b)
  = (Curated.tokenize a ++ Curated.tokenize b)%list.
Proof.
  rewrite !tokenize_words. unfold Js.toLowerCase.
  change (" " ++ b) with (String " " b).
  rewrite !mapString_app. simpl Js.mapString.
  change (blankOther (Js.toLowerChar " ")) with " "%char.
  rewrite (words_app " " _ _ eq_refl). apply filter_app.
Qed.

Lemma fold_alias_bounds (normalizedQuery : string) (aliases : list string) :
  forall score,
    score <= fold_left
               (fun score alias =>
                  if Js.includes normalizedQuery (normalizeForMatch alias)
                  then score + 80 else score)
               aliases score
    /\ ((forall alias, In alias aliases ->
           Js.includes normalizedQuery (normalizeForMatch alias) = false) ->
        fold_left
          (fun score alias =>
             if Js.includes normalizedQuery (normalizeForMatch alias)
             then score + 80 else score)
          aliases score = score).
Proof.
  induction aliases as [|alias aliases IH]; intros score; simpl.
  - split; [lia | reflexivity].
  - split.
    + destruct (Js.includes _ _);
        [destruct (IH (score + 80)) as [H _] | destruct (IH score) as [H _]]; lia.
    + intros H. rewrite (H alias) by now left.
      apply IH. intros a Ha. apply H. now right.
Qed.

Lemma fold_tokens (searchableTokens queryTokens : list string) :
  forall score,
    fold_left
      (fun score token =>
         if Curated.mem token searchableTokens then score + 12 else score)
      queryTokens score
    = score
      + 12 * List.length
               (filter (fun token => Curated.mem token searchableTokens) queryTokens).
Proof.
  induction queryTokens as [|token queryTokens IH]; intros score; simpl.
  - lia.
  - rewrite IH. destruct (Curated.mem token searchableTokens); simpl; lia.
Qed.

Lemma mem_In (token : string) (tokens : list string) :
  Curated.mem token tokens = true <-> In token tokens.
Proof.
  unfold Curated.mem. rewrite existsb_exists. split.
  - intros [x [Hx E]]. apply String.eqb_eq in E. now subst x.
  - intros H. exists token. split; [exact H | apply String.eqb_refl].
Qed.

(** C8: when the normalized query equals the normalized title of an
    entry, the score of that entry strictly exceeds the score of every
    entry that has neither an exact title match nor an alias whose
    normalized form lies in the normalized query, whatever number of
    query tokens the searchable text of the other entry holds. *)
Theorem C8_exact_title_outranks_overlap
        (exact other : Curated.KnowledgeEntry.t) (query : string) :
  normalizeForMatch (Curated.KnowledgeEntry.title exact) = normalizeForMatch query ->
  normalizeForMatch (Curated.KnowledgeEntry.title other) <> normalizeForMatch query ->
  (forall alias, In alias (Curated.KnowledgeEntry.aliases other) ->
     Js.includes (normalizeForMatch query) (normalizeForMatch alias) = false) ->
  Curated.scoreEntry other query < Curated.scoreEntry exact query.
Proof.
  intros Hexact Hother Halias.
  unfold Curated.scoreEntry. cbv zeta.
  rewrite !fold_tokens.
  rewrite Hexact, String.eqb_refl.
  destruct (String.eqb_spec (normalizeForMatch (Curated.KnowledgeEntry.title other))
                            (normalizeForMatch query)) as [E|_]; [contradiction|].
  rewrite (proj2 (fold_alias_bounds _ _ 0) Halias).
  assert (Hge := proj1 (fold_alias_bounds (normalizeForMatch query)
                          (Curated.KnowledgeEntry.aliases exact) (0 + 120))).
  assert (Hall : filter (fun token =>
                           Curated.mem token (Curated.tokenize (Curated.searchable exact)))
                        (Curated.tokenize query)
                 = Curated.tokenize query).
  { apply forallb_filter_id. apply forallb_forall. intros token Htoken.
    apply mem_In. unfold Curated.searchable. rewrite tokenize_app.
    apply in_or_app. left.
    unfold Curated.tokenize in *. now rewrite Hexact. }
  rewrite Hall.
  assert (Hle := filter_length_le
                   (fun token =>
                      Curated.mem token (Curated.tokenize (Curated.searchable other)))
                   (Curated.tokenize query)).
  lia.
Qed.

(** An instance on the table: the query "Radiant  Heart!" ranks the
    Radiant Heart entry above the Oxygen entry. *)
Lemma C8_radiant_heart_witness :
  Curated.scoreEntry (nth 2 Curated.LOCAL_KNOWLEDGE emptyEntry) "Radiant  Heart!"
  < Curated.scoreEntry (nth 0 Curated.LOCAL_KNOWLEDGE emptyEntry) "Radiant  Heart!".
Proof.
  apply C8_exact_title_outranks_overlap.
  - vm_compute. reflexivity.
  - vm_compute. discriminate.
  - intros alias [<-|[<-|[<-|[]]]]; vm_compute; reflexivity.
Defined.

(* ================================================================= *)
(** ** Normalization and tokens *)

Lemma wordChar_fixed (c : ascii) :
  isWordChar c = true ->
  Js.toLowerChar c = c /\ blankOther c = c /\ Js.isSpace c = false.
Proof.
  destruct c as [[] [] [] [] [] [] [] []]; vm_compute;
    first [discriminate | intros _; repeat split].
Qed.

Lemma blank_lower_kind (c : ascii) :
  (isWordChar (blankOther (Js.toLowerChar c))
   || Js.isSpace (blankOther (Js.toLowerChar c)))%bool = true.
Proof. destruct c as [[] [] [] [] [] [] [] []]; vm_compute; reflexivity. Qed.

Lemma allChars_app (p : ascii -> bool) (a b : string) :
  allChars p (a ++ b) = (allChars p a && allChars p b)%bool.
Proof.
  induction a as [|c a IH]; [reflexivity|].
  simpl. rewrite IH. now rewrite andb_assoc.
Qed.

Lemma allChars_fixed (p : ascii -> bool) (f : ascii -> ascii) (s : string) :
  (forall c, p c = true -> f c = c) ->
  allChars p s = true -> Js.mapString f s = s.
Proof.
  intros Hf. induction s as [|c s IH]; [reflexivity|].
  simpl. intros H. apply andb_true_iff in H. destruct H as [Hc Hs].
  now rewrite (Hf c Hc), (IH Hs).
Qed.

Lemma allChars_impl (p q : ascii -> bool) (s : string) :
  (forall c, p c = true -> q c = true) ->
  allChars p s = true -> allChars q s = true.
Proof.
  intros Hpq. induction s as [|c s IH]; [reflexivity|].
  simpl. intros H. apply andb_true_iff in H. destruct H as [Hc Hs].
  now rewrite (Hpq c Hc), (IH Hs).
Qed.

Lemma allChars_join (p : ascii -> bool) (ws : list string) :
  p " "%char = true ->
  Forall (fun w => allChars p w = true) ws ->
  allChars p (Js.join " " ws) = true.
Proof.
  intros Hsp. unfold Js.join. induction 1 as [|w ws Hw Hws IH]; [reflexivity|].
  destruct ws as [|w' ws]; [exact Hw|].
  change (String.concat " " (w :: w' :: ws))
    with (w ++ String " " (String.concat " " (w' :: ws))).
  set (rest := String.concat " " (w' :: ws)) in *.
  rewrite allChars_app. simpl. now rewrite Hw, Hsp, IH.
Qed.

(** The pieces between white space of a text of word characters and
    white space hold word characters only. *)
Lemma pieces_wordChars (s : string) :
  allChars (fun c => (isWordChar c || Js.isSpace c)%bool) s = true ->
  Forall (fun w => allChars isWordChar w = true) (Js.splitBy Js.isSpace s).
Proof.
  induction s as [|c s IH]; simpl.
  - intros _. constructor; [reflexivity | constructor].
  - intros H. apply andb_true_iff in H. destruct H as [Hc Hs].
    specialize (IH Hs).
    destruct (Js.isSpace c) eqn:E.
    + constructor; [reflexivity | exact IH].
    + rewrite orb_false_r in Hc.
      destruct (Js.splitBy Js.isSpace s) as [|w ws]; simpl.
      * constructor; [|constructor]. simpl. now rewrite Hc.
      * inversion IH as [|? ? Hw Hws]; subst.
        constructor; [|exact Hws]. simpl. now rewrite Hc, Hw.
Qed.

Lemma blanked_kind (value : string) :
  allChars (fun c => (isWordChar c || Js.isSpace c)%bool)
           (Js.mapString blankOther (Js.toLowerCase value)) = true.
Proof.
  unfold Js.toLowerCase. induction value as [|c s IH]; [reflexivity|].
  simpl. now rewrite blank_lower_kind, IH.
Qed.

(** The words that [normalizeForMatch] joins. *)
Lemma normalized_words (value : string) :
  Forall (fun w => allChars isWordChar w = true)
         (words (Js.mapString blankOther (Js.toLowerCase value))).
Proof.
  unfold words. apply Forall_forall. intros w Hw.
  apply filter_In in Hw. destruct Hw as [Hw _].
  exact (proj1 (Forall_forall _ _)
               (pieces_wordChars _ (blanked_kind value)) w Hw).
Qed.

Lemma normalizeForMatch_words (value : string) :
  normalizeForMatch value
  = Js.join " " (words (Js.mapString blankOther (Js.toLowerCase value))).
Proof. unfold normalizeForMatch. apply squeeze_words. Qed.

Lemma normalize_idempotent (value : string) :
  normalizeForMatch (normalizeForMatch value) = normalizeForMatch value.
Proof.
  rewrite (normalizeForMatch_words value).
  set (ws := words (Js.mapString blankOther (Js.toLowerCase value))).
  assert (Hws : Forall (fun w => allChars isWordChar w = true) ws)
    by apply normalized_words.
  assert (Hkind : allChars (fun c => (isWordChar c || Ascii.eqb c " ")%bool)
                           (Js.join " " ws) = true).
  { apply allChars_join; [reflexivity|].
    eapply Forall_impl; [|exact Hws].
    intros w. apply allChars_impl. intros c Hc. now rewrite Hc. }
  assert (Hfix : forall c,
             (isWordChar c || Ascii.eqb c " ")%bool = true ->
             Js.toLowerChar c = c /\ blankOther c = c).
  { intros c Hc. apply orb_true_iff in Hc. destruct Hc as [Hc|Hc].
    - split; now apply wordChar_fixed.
    - apply Ascii.eqb_eq in Hc. now subst c. }
  unfold normalizeForMatch, Js.toLowerCase.
  rewrite (allChars_fixed _ Js.toLowerChar _ (fun c Hc => proj1 (Hfix c Hc)) Hkind).
  rewrite (allChars_fixed _ blankOther _ (fun c Hc => proj2 (Hfix c Hc)) Hkind).
  rewrite squeeze_words. f_equal.
  apply words_join; [apply words_spaceFree | apply words_nonempty].
Qed.

Lemma split_normalized (value : string) :
  Js.split " " (normalizeForMatch value)
  = match words (Js.mapString blankOther (Js.toLowerCase value)) with
    | [] => [EmptyString]
    | ws => ws
    end.
Proof.
  rewrite normalizeForMatch_words. unfold Js.split.
  rewrite splitBy_join.
  - now destruct (words _).
  - reflexivity.
  - intros c H. apply Ascii.eqb_eq in H. now subst c.
  - apply words_spaceFree.
Qed.

(** X1: normalization is idempotent: a normalized text normalizes to
    itself, in the two routes and in the page alike. *)
Theorem X1_normalize_idempotent (value : string) :
  normalizeForMatch (normalizeForMatch value) = normalizeForMatch value
  /\ Page.normalize (Page.normalize value) = Page.normalize value.
Proof. split; apply normalize_idempotent. Qed.

(** X2: a normalized text is empty, or it is made of non-empty runs of
    a-z and 0-9 with one space between two of them: no other character,
    no space at either end, no two spaces in a row. *)
Theorem X2_normalized_shape (value : string) :
  Js.join " " (Js.split " " (normalizeForMatch value)) = normalizeForMatch value
  /\ (normalizeForMatch value = ""
      \/ Forall (fun w => w <> "" /\ allChars isWordChar w = true)
                (Js.split " " (normalizeForMatch value))).
Proof.
  rewrite split_normalized, normalizeForMatch_words.
  assert (Hne := words_nonempty (Js.mapString blankOther (Js.toLowerCase value))).
  assert (Hwc := normalized_words value).
  destruct (words (Js.mapString blankOther (Js.toLowerCase value))) as [|w ws].
  - split; [reflexivity | now left].
  - split; [reflexivity | right].
    apply Forall_forall. intros x Hx. rewrite Forall_forall in Hne, Hwc.
    split; [now apply Hne | now apply Hwc].
Qed.

Lemma substring_prefix_length (s : string) :
  forall m, m <= String.length s -> String.length (substring 0 m s) = m.
Proof.
  induction s as [|c s IH]; intros [|m] H; simpl in *; try reflexivity; try lia.
  rewrite IH; [reflexivity | lia].
Qed.

Lemma substring_prefix_allChars (p : ascii -> bool) (s : string) :
  forall m, allChars p s = true -> allChars p (substring 0 m s) = true.
Proof.
  induction s as [|c s IH]; intros [|m] H; simpl in *; try reflexivity.
  apply andb_true_iff in H. destruct H as [Hc Hs].
  now rewrite Hc, (IH m Hs).
Qed.

Lemma stem_shape (token : string) :
  2 <= String.length token -> allChars isWordChar token = true ->
  2 <= String.length (Live.stem token)
  /\ allChars isWordChar (Live.stem token) = true.
Proof.
  intros Hlen Hwc. unfold Live.stem, Js.dropLast.
  destruct (Nat.ltb_spec 4 (String.length token)) as [H4|H4]; simpl andb.
  - destruct (Js.endsWith token "es").
    + split; [|now apply substring_prefix_allChars].
      rewrite substring_prefix_length; lia.
    + destruct (Nat.ltb_spec 3 (String.length token)) as [H3|H3]; simpl andb.
      * destruct (Js.endsWith token "s"); [|now split].
        split; [|now apply substring_prefix_allChars].
        rewrite substring_prefix_length; lia.
      * now split.
  - destruct (Nat.ltb_spec 3 (String.length token)) as [H3|H3]; simpl andb.
    + destruct (Js.endsWith token "s"); [|now split].
      split; [|now apply substring_prefix_allChars].
      rewrite substring_prefix_length; lia.
    + now split.
Qed.

Lemma liveTokenize_words (value : string) :
  Live.tokenize value
  = map Live.stem
        (filter (fun token => Nat.ltb 1 (String.length token))
                (words (Js.mapString blankOther (Js.toLowerCase value)))).
Proof.
  unfold Live.tokenize. rewrite split_normalized.
  now destruct (words _).
Qed.

(** X3: every token, of the live route (stemmed) and of the curated
    route alike, has two characters or more, all of them a-z or 0-9; a
    text whose normalized form is empty has no token. *)
Theorem X3_tokens_shape (value : string) :
  Forall (fun token => 2 <= String.length token
                       /\ allChars isWordChar token = true)
         (Live.tokenize value)
  /\ Forall (fun token => 2 <= String.length token
                          /\ allChars isWordChar token = true)
            (Curated.tokenize value)
  /\ (normalizeForMatch value = "" ->
      Live.tokenize value = [] /\ Curated.tokenize value = []).
Proof.
  assert (Hwc := normalized_words value).
  assert (Hlong : Forall (fun token => 2 <= String.length token
                                       /\ allChars isWordChar token = true)
                         (filter (fun token => Nat.ltb 1 (String.length token))
                                 (words (Js.mapString blankOther
                                                      (Js.toLowerCase value))))).
  { apply Forall_forall. intros t Ht. apply filter_In in Ht.
    destruct Ht as [Hin Hlen]. apply Nat.ltb_lt in Hlen.
    rewrite Forall_forall in Hwc. split; [lia | now apply Hwc]. }
  split; [|split].
  - rewrite liveTokenize_words. apply Forall_forall. intros t Ht.
    apply in_map_iff in Ht. destruct Ht as [u [<- Hu]].
    rewrite Forall_forall in Hlong. destruct (Hlong u Hu) as [H1 H2].
    now apply stem_shape.
  - rewrite tokenize_words. exact Hlong.
  - intros Hempty. unfold Live.tokenize, Curated.tokenize.
    rewrite Hempty. split; reflexivity.
Qed.

Lemma X3_tokens_witness :
  Live.tokenize " ?! -- " = [] /\ Curated.tokenize " ?! -- " = [].
Proof.
  apply (proj2 (proj2 (X3_tokens_shape " ?! -- "))).
  vm_compute. reflexivity.
Defined.

(* ================================================================= *)
(** ** Coverage of the title and of the whole post *)

Lemma liveTokenize_app (a b : string) :
  Live.tokenize (a ++ " " ++ b) = (Live.tokenize a ++ Live.tokenize b)%list.
Proof.
  rewrite !liveTokenize_words. unfold Js.toLowerCase.
  change (" " ++ b) with (String " " b).
  rewrite !mapString_app. simpl Js.mapString.
  change (blankOther (Js.toLowerChar " ")) with " "%char.
  rewrite (words_app " " _ _ eq_refl), filter_app. apply map_app.
Qed.

Lemma filter_length_mono {A : Type} (p q : A -> bool) (l : list A) :
  (forall x, p x = true -> q x = true) ->
  List.length (filter p l) <= List.length (filter q l).
Proof.
  intros Hpq. induction l as [|x l IH]; [reflexivity|].
  simpl. destruct (p x) eqn:E.
  - rewrite (Hpq x E). simpl. lia.
  - destruct (q x); simpl; lia.
Qed.

Lemma existsb_app_l {A : Type} (p : A -> bool) (l l' : list A) :
  existsb p l = true -> existsb p (l ++ l')%list = true.
Proof. intros H. rewrite existsb_app, H. reflexivity. Qed.

Lemma overlap_bounds
      (post : Live.RedditPost.t) (queryTokens : list string) (type : SearchType) :
  Live.Scored.overlapTitle (Live.scorePost queryTokens type post)
  <= Live.Scored.overlap (Live.scorePost queryTokens type post)
  /\ Live.Scored.overlap (Live.scorePost queryTokens type post)
     <= List.length queryTokens.
Proof.
  unfold Live.scorePost.
  cbn [Live.Scored.overlapTitle Live.Scored.overlap].
  rewrite !countTokenOverlap_present. unfold presentTokens.
  split.
  - apply filter_length_mono. intros token H.
    rewrite liveTokenize_app. now apply existsb_app_l.
  - apply filter_length_le.
Qed.

(** X4: the overlap of a title with the query tokens is at most the
    overlap of the title and the body together, which is at most the
    number of query tokens: in [GET], [overlapTitle <= overlap <=
    queryTokens.length] for every post. *)
Theorem X4_title_overlap_within_overlap
        (post : Live.RedditPost.t) (queryTokens : list string) (type : SearchType) :
  Live.Scored.overlapTitle (Live.scorePost queryTokens type post)
  <= Live.Scored.overlap (Live.scorePost queryTokens type post)
  /\ Live.Scored.overlap (Live.scorePost queryTokens type post)
     <= List.length queryTokens.
Proof. apply overlap_bounds. Qed.

(** X5: in [GET], a post whose title alone reaches the minimum coverage
    is admitted as soon as its quality score is 7 or more, whatever its
    body; for a query of one or two tokens the filter admits a post
    exactly when its title holds a query token and its quality score is
    7 or more. *)
Theorem X5_title_coverage_admits
        (post : Live.RedditPost.t) (queryTokens : list string) (type : SearchType) :
  1 <= List.length queryTokens ->
  let item := Live.scorePost queryTokens type post in
  (Live.minCoverageOf (List.length queryTokens) <= Live.Scored.overlapTitle item ->
   (7 <= Live.Scored.qualityScore item)%R ->
   Live.admits queryTokens item = true)
  /\ (List.length queryTokens <= 2 ->
      (Live.admits queryTokens item = true
       <-> 1 <= Live.Scored.overlapTitle item
           /\ (7 <= Live.Scored.qualityScore item)%R)).
Proof.
  intros Hn item.
  destruct (overlap_bounds post queryTokens type) as [Hle _].
  fold item in Hle.
  assert (Hmin : 1 <= Live.minCoverageOf (List.length queryTokens))
    by (unfold Live.minCoverageOf; lia).
  destruct (Nat.eq_dec (List.length queryTokens) 1) as [E1|N1].
  - rewrite (admits_one _ _ E1), andb_true_iff, Nat.leb_le, geR_true.
    split; [|tauto]. intros Ht Hq. split; [lia | exact Hq].
  - assert (H2 : 2 <= List.length queryTokens) by lia.
    rewrite (admits_many _ _ H2), !andb_true_iff, !Nat.leb_le, geR_true.
    split.
    + intros Ht Hq. split; [split|]; [lia | lia | exact Hq].
    + intros Hle2.
      assert (E2 : List.length queryTokens = 2) by lia.
      rewrite E2. change (Live.minCoverageOf 2) with 1.
      split; [tauto|]. intros [Ht Hq]. split; [split|]; [lia | exact Ht | exact Hq].
Qed.

(** An instance: the post "Sentinel farm ..." is admitted for the one
    token "sentinel" of its title. *)
Lemma X5_title_coverage_witness :
  1 <= List.length ["sentinel"]
  /\ Live.admits ["sentinel"] (Live.scorePost ["sentinel"] howto linkPost) = true.
Proof.
  split; [apply le_n|].
  apply (proj1 (X5_title_coverage_admits linkPost ["sentinel"] howto (le_n 1))).
  - vm_compute. apply le_n.
  - simpl Live.Scored.qualityScore.
    evalCounters. assert (H := log10_nonneg 6). lra.
Defined.

(* ================================================================= *)
(** ** Bounds of the live scorer *)

Lemma log10_mono (x y : R) : (0 < x)%R -> (x <= y)%R ->
  (Live.log10 x <= Live.log10 y)%R.
Proof.
  intros Hx Hxy. unfold Live.log10, Rdiv.
  apply Rmult_le_compat_r.
  - left. apply Rinv_0_lt_compat, ln10_pos.
  - destruct Hxy as [Hlt|<-]; [left; now apply ln_increasing | apply Rle_refl].
Qed.

Lemma engagement_floor (post : Live.RedditPost.t) :
  (Live.log10 2 <= Live.log10 (IZR (Live.engagementArgument post)))%R.
Proof.
  apply log10_mono; [lra|].
  apply IZR_le. unfold Live.engagementArgument. lia.
Qed.

(** X6: the quality score of a post is at least ten times the overlap
    of its cleaned title plus four times the overlap of its cleaned body
    plus 2 log10 2, less the meta penalty of 4; the penalty is not
    applied when a token of the query is a meta-content word, and then a
    post with a query token in its cleaned title scores 7 or more. *)
Theorem X6_score_lower_bound
        (post : Live.RedditPost.t) (queryTokens : list string) (type : SearchType) :
  let title := Live.cleanText (Live.orElse (Live.RedditPost.title post) "") in
  let body := Live.cleanText (Live.orElse (Live.RedditPost.selftext post) "") in
  let floor := (INR (Live.countTokenOverlap title queryTokens) * 10
                + INR (Live.countTokenOverlap body queryTokens) * 4
                + Live.log10 2 * 2)%R in
  (floor - 4 <= Live.scoreRedditPost post queryTokens type)%R
  /\ (hasMetaWord queryTokens = true ->
      (floor <= Live.scoreRedditPost post queryTokens type)%R
      /\ (1 <= Live.countTokenOverlap title queryTokens ->
          (7 <= Live.scoreRedditPost post queryTokens type)%R)).
Proof.
  cbv zeta.
  set (title := Live.cleanText (Live.orElse (Live.RedditPost.title post) "")).
  set (body := Live.cleanText (Live.orElse (Live.RedditPost.selftext post) "")).
  assert (He := engagement_floor post).
  assert (H3 := pos_INR (Live.countKeywordHits title (Live.MODE_KEYWORDS type))).
  assert (H4 := pos_INR (Live.countKeywordHits body (Live.MODE_KEYWORDS type))).
  assert (H2 := pos_INR (Live.countTokenOverlap body queryTokens)).
  assert (Hlog := log10_2_pos).
  unfold Live.scoreRedditPost. cbv zeta. fold title body.
  fold (hasMetaWord queryTokens).
  split.
  - destruct (Nat.leb 60 (String.length body)), (Live.hasNmsContext post),
      (Nat.ltb 0 (Live.countKeywordHits title Live.META_TITLE_KEYWORDS)
       && negb (hasMetaWord queryTokens))%bool; lra.
  - intros Hmeta. rewrite Hmeta, andb_false_r.
    split.
    + destruct (Nat.leb 60 (String.length body)), (Live.hasNmsContext post); lra.
    + intros H1. apply le_INR in H1. simpl INR in H1.
      destruct (Nat.leb 60 (String.length body)), (Live.hasNmsContext post); lra.
Qed.

Lemma X6_score_witness :
  (7 <= Live.scoreRedditPost
          (Live.RedditPost.mk (Some "t3d") (Some "Expedition update notes")
                              None None None None None None)
          ["update"] howto)%R.
Proof.
  apply (proj2 (X6_score_lower_bound
                  (Live.RedditPost.mk (Some "t3d") (Some "Expedition update notes")
                                      None None None None None None)
                  ["update"] howto)).
  - vm_compute. reflexivity.
  - vm_compute. lia.
Defined.

(** X7: of two posts with the same title, body and forum label, the one
    with the larger sum of score and comments has the larger or equal
    quality score: engagement never lowers the score. *)
Theorem X7_score_monotone_in_engagement
        (post1 post2 : Live.RedditPost.t) (queryTokens : list string)
        (type : SearchType) :
  Live.RedditPost.title post1 = Live.RedditPost.title post2 ->
  Live.RedditPost.selftext post1 = Live.RedditPost.selftext post2 ->
  Live.RedditPost.subreddit_name_prefixed post1
  = Live.RedditPost.subreddit_name_prefixed post2 ->
  (Live.orElse (Live.RedditPost.score post1) 0
   + Live.orElse (Live.RedditPost.num_comments post1) 0
   <= Live.orElse (Live.RedditPost.score post2) 0
      + Live.orElse (Live.RedditPost.num_comments post2) 0)%Z ->
  (Live.scoreRedditPost post1 queryTokens type
   <= Live.scoreRedditPost post2 queryTokens type)%R.
Proof.
  intros Ht Hb Hs He.
  assert (Hlog : (Live.log10 (IZR (Live.engagementArgument post1))
                  <= Live.log10 (IZR (Live.engagementArgument post2)))%R).
  { apply log10_mono.
    - apply IZR_lt. unfold Live.engagementArgument. lia.
    - apply IZR_le. unfold Live.engagementArgument. lia. }
  unfold Live.scoreRedditPost, Live.hasNmsContext. cbv zeta.
  rewrite Ht, Hb, Hs. lra.
Qed.

Lemma X7_score_witness :
  (Live.scoreRedditPost plainPost ["hello"] howto
   <= Live.scoreRedditPost
        (Live.RedditPost.mk (Some "t3b") (Some "Hello there") None None None
                            (Some 40%Z) (Some 2%Z) None)
        ["hello"] howto)%R.
Proof.
  apply X7_score_monotone_in_engagement; try reflexivity.
  vm_compute. discriminate.
Defined.

(* ================================================================= *)
(** ** The topical context of a post *)

Lemma prefix_app_l (k x y : string) :
  String.prefix k x = true -> String.prefix k (x ++ y) = true.
Proof.
  revert x. induction k as [|a k IH]; intros x H.
  - now destruct (x ++ y).
  - destruct x as [|c x]; [discriminate|].
    simpl in *. destruct (ascii_dec a c); [now apply IH | discriminate].
Qed.

Lemma includes_app_l (x y k : string) :
  Js.includes x k = true -> Js.includes (x ++ y) k = true.
Proof.
  induction x as [|c x IH]; intros H.
  - simpl in H. rewrite orb_false_r in H.
    destruct k as [|a k]; [|discriminate]. now destruct y.
  - simpl in H. apply orb_true_iff in H.
    change (Js.includes (String c x ++ y) k)
      with (String.prefix k (String c x ++ y) || Js.includes (x ++ y) k)%bool.
    apply orb_true_iff. destruct H as [H|H].
    + left. now apply (prefix_app_l k (String c x) y).
    + right. now apply IH.
Qed.

Lemma includes_app_r (x y k : string) :
  Js.includes y k = true -> Js.includes (x ++ y) k = true.
Proof.
  intros H. induction x as [|c x IH]; [exact H|].
  change (Js.includes (String c x ++ y) k)
    with (String.prefix k (String c x ++ y) || Js.includes (x ++ y) k)%bool.
  rewrite IH. apply orb_true_r.
Qed.

Lemma glue_app (l1 l2 : list string) : glue (l1 ++ l2) = glue l1 ++ glue l2.
Proof.
  induction l1 as [|w l1 IH]; [reflexivity|].
  simpl. now rewrite IH, append_assoc.
Qed.

Lemma includes_empty (s : string) : Js.includes s "" = true.
Proof. now destruct s. Qed.

(** What the joined words of one text hold, the joined words of two
    texts hold. *)
Lemma includes_join_app (l1 l2 : list string) (k : string) :
  Js.includes (Js.join " " l1) k = true \/ Js.includes (Js.join " " l2) k = true ->
  Js.includes (Js.join " " (l1 ++ l2)) k = true.
Proof.
  unfold Js.join. intros H.
  destruct l1 as [|w1 l1]; [|destruct l2 as [|w2 l2]].
  - destruct H as [H|H]; [|exact H].
    simpl in H. rewrite orb_false_r in H.
    destruct k as [|a k]; [|discriminate].
    apply includes_empty.
  - rewrite app_nil_r. destruct H as [H|H]; [exact H|].
    simpl in H. rewrite orb_false_r in H.
    destruct k as [|a k]; [|discriminate].
    apply includes_empty.
  - simpl app. rewrite (join_glue w1 (l1 ++ w2 :: l2)), glue_app.
    rewrite join_glue in H. rewrite (join_glue w2 l2) in H.
    rewrite <- append_assoc.
    destruct H as [H|H].
    + now apply includes_app_l.
    + apply includes_app_r.
      change (glue (w2 :: l2)) with (" " ++ (w2 ++ glue l2)).
      now apply includes_app_r.
Qed.

Lemma normalizeForMatch_app (a b : string) :
  normalizeForMatch (a ++ " " ++ b)
  = Js.join " " (words (Js.mapString blankOther (Js.toLowerCase a))
                 ++ words (Js.mapString blankOther (Js.toLowerCase b)))%list.
Proof.
  rewrite normalizeForMatch_words. unfold Js.toLowerCase.
  change (" " ++ b) with (String " " b).
  rewrite !mapString_app. simpl Js.mapString.
  change (blankOther (Js.toLowerChar " ")) with " "%char.
  now rewrite (words_app " " _ _ eq_refl).
Qed.

(** What the normalized form of one of two texts holds, the normalized
    form of the two texts with a space between them holds. *)
Lemma includes_normalized_app (a b k : string) :
  Js.includes (normalizeForMatch a) k = true
  \/ Js.includes (normalizeForMatch b) k = true ->
  Js.includes (normalizeForMatch (a ++ " " ++ b)) k = true.
Proof.
  rewrite normalizeForMatch_app, !normalizeForMatch_words.
  apply includes_join_app.
Qed.

(** X8: a post has topical context as soon as the normalized form of its
    title, of its body or of its forum label alone holds one of the six
    context keywords; so every post with the forum label
    r/NoMansSkyTheGame has it, whatever its title and body. *)
Theorem X8_context_from_one_field :
  (forall (post : Live.RedditPost.t) (keyword : string),
     In keyword ["no man s sky"; "nomanssky"; "nms"; "anomaly"; "sentinel"; "atlas"] ->
     Js.includes (normalizeForMatch (Live.orElse (Live.RedditPost.title post) ""))
                 keyword = true
     \/ Js.includes (normalizeForMatch (Live.orElse (Live.RedditPost.selftext post) ""))
                    keyword = true
     \/ Js.includes
          (normalizeForMatch
             (Live.orElse (Live.RedditPost.subreddit_name_prefixed post) ""))
          keyword = true ->
     Live.hasNmsContext post = true)
  /\ (forall (post : Live.RedditPost.t),
        Live.RedditPost.subreddit_name_prefixed post = Some "r/NoMansSkyTheGame" ->
        Live.hasNmsContext post = true).
Proof.
  assert (Hgen : forall (post : Live.RedditPost.t) (keyword : string),
     In keyword ["no man s sky"; "nomanssky"; "nms"; "anomaly"; "sentinel"; "atlas"] ->
     Js.includes (normalizeForMatch (Live.orElse (Live.RedditPost.title post) ""))
                 keyword = true
     \/ Js.includes (normalizeForMatch (Live.orElse (Live.RedditPost.selftext post) ""))
                    keyword = true
     \/ Js.includes
          (normalizeForMatch
             (Live.orElse (Live.RedditPost.subreddit_name_prefixed post) ""))
          keyword = true ->
     Live.hasNmsContext post = true).
  { intros post keyword Hin H. unfold Live.hasNmsContext. cbv zeta.
    apply existsb_exists. exists keyword. split; [exact Hin|].
    apply includes_normalized_app.
    destruct H as [H|[H|H]]; [now left | right | right];
      apply includes_normalized_app; [now left | now right]. }
  split; [exact Hgen|].
  intros post Hsub. apply (Hgen post "nomanssky").
  - right. now left.
  - right. right. rewrite Hsub. vm_compute. reflexivity.
Qed.

Lemma X8_context_witness :
  Live.hasNmsContext bodyOnlyPost = true.
Proof.
  apply (proj2 X8_context_from_one_field bodyOnlyPost).
  reflexivity.
Defined.

(* ================================================================= *)
(** ** The shape of a cleaned text *)

(** A text that went through [.replace(/\s+/g, " ").trim()] is its
    pieces between single spaces, none of them empty or with white space
    inside, joined again. *)
Lemma squeezed_shape (s : string) :
  let out := Js.trim (Js.collapseSpaces s) in
  Js.join " " (Js.split " " out) = out
  /\ (out = ""
      \/ Forall (fun w => w <> "" /\ spaceFree w = true) (Js.split " " out)).
Proof.
  cbv zeta. rewrite squeeze_words. unfold Js.split.
  rewrite (splitBy_join (fun c => Ascii.eqb c " ") (words s) eq_refl).
  - assert (Hne := words_nonempty s). assert (Hfree := words_spaceFree s).
    destruct (words s) as [|w ws].
    + split; [reflexivity | now left].
    + split; [reflexivity | right].
      apply Forall_forall. intros x Hx. rewrite Forall_forall in Hne, Hfree.
      split; [now apply Hne | now apply Hfree].
  - intros c H. apply Ascii.eqb_eq in H. now subst c.
  - apply words_spaceFree.
Qed.

(** X9: the link stripper, the text cleaner and the sentence polisher
    return a text without a line break, a tab or any white space other
    than single spaces between its words: the text is empty or it splits
    at its spaces into non-empty pieces free of white space, and joining
    the pieces gives it back. *)
Theorem X9_cleaned_single_spaced (value : string) :
  Forall (fun out =>
            Js.join " " (Js.split " " out) = out
            /\ (out = ""
                \/ Forall (fun w => w <> "" /\ spaceFree w = true)
                          (Js.split " " out)))
         [Live.stripExternalLinks value; Live.cleanText value;
          Live.polishSentence value].
Proof.
  constructor; [exact (squeezed_shape _)|].
  constructor; [exact (squeezed_shape _)|].
  constructor; [exact (squeezed_shape _) | constructor].
Qed.

Lemma substring_allChars (p : ascii -> bool) (s : string) :
  forall n m, allChars p s = true -> allChars p (substring n m s) = true.
Proof.
  induction s as [|c s IH]; intros n m H.
  - now destruct n, m.
  - simpl in H. apply andb_true_iff in H. destruct H as [Hc Hs].
    destruct n as [|n]; simpl.
    + destruct m as [|m]; [reflexivity|]. simpl. now rewrite Hc, (IH 0 m Hs).
    + now apply IH.
Qed.

(** A replacement whose replacement texts keep a class of characters
    keeps it. *)
Lemma replaceFrom_allChars (p : ascii -> bool) (m : string -> option nat)
      (rep : string -> string) :
  (forall x, allChars p x = true -> allChars p (rep x) = true) ->
  forall s k, allChars p s = true ->
              allChars p (Js.replaceFrom m rep k s) = true.
Proof.
  intros Hrep. induction s as [|c s IH]; intros k H.
  - destruct k; simpl; [|reflexivity].
    destruct (m "") as [[|n]|]; try reflexivity.
    rewrite allChars_app, andb_true_r. now apply Hrep.
  - assert (Hs : allChars p s = true)
      by (simpl in H; now apply andb_true_iff in H).
    destruct k as [|k]; [|rewrite replaceFrom_skip; now apply IH].
    rewrite replaceFrom_here.
    destruct (m (String c s)) as [[|n]|].
    + simpl in *. apply andb_true_iff in H. destruct H as [Hc _].
      now rewrite Hc, (IH 0 Hs).
    + rewrite allChars_app, (IH n Hs), andb_true_r.
      apply Hrep. now apply substring_allChars.
    + simpl in *. apply andb_true_iff in H. destruct H as [Hc _].
      now rewrite Hc, (IH 0 Hs).
Qed.

Lemma trimStart_allChars (p : ascii -> bool) (s : string) :
  allChars p s = true -> allChars p (Js.trimStart s) = true.
Proof.
  induction s as [|c s IH]; [reflexivity|].
  intros H. simpl. destruct (Js.isSpace c); [|exact H].
  simpl in H. apply andb_true_iff in H. now apply IH.
Qed.

Lemma trimEnd_allChars (p : ascii -> bool) (s : string) :
  allChars p s = true -> allChars p (Js.trimEnd s) = true.
Proof.
  induction s as [|c s IH]; [reflexivity|].
  intros H. simpl in H. apply andb_true_iff in H. destruct H as [Hc Hs].
  specialize (IH Hs). simpl.
  destruct (Js.trimEnd s) as [|d t].
  - destruct (Js.isSpace c); [reflexivity|]. simpl. now rewrite Hc.
  - simpl in *. now rewrite Hc, IH.
Qed.

Lemma squeeze_allChars (p : ascii -> bool) (s : string) :
  p " "%char = true ->
  allChars p s = true -> allChars p (Js.trim (Js.collapseSpaces s)) = true.
Proof.
  intros Hsp H. unfold Js.trim, Js.collapseSpaces, Js.replaceAll.
  apply trimEnd_allChars, trimStart_allChars, replaceFrom_allChars.
  - intros x _. simpl. now rewrite Hsp.
  - exact H.
Qed.

Lemma filterString_allChars (p : ascii -> bool) (s : string) :
  allChars p (Js.filterString p s) = true.
Proof.
  induction s as [|c s IH]; [reflexivity|].
  simpl. destruct (p c) eqn:E; [|exact IH]. simpl. now rewrite E, IH.
Qed.

(** The text cleaner leaves no emphasis mark. *)
Lemma cleanText_no_markup (value : string) :
  allChars (fun c => negb (Live.isMarkup c)) (Live.cleanText value) = true.
Proof.
  unfold Live.cleanText.
  apply squeeze_allChars; [reflexivity|].
  apply replaceFrom_allChars; [intros x _; reflexivity|].
  apply filterString_allChars.
Qed.

Lemma pipes_removed (s : string) :
  forall k,
    allChars (fun c => negb (Ascii.eqb c "|"))
             (Js.replaceFrom Live.rePipes (fun _ => " ") k s) = true.
Proof.
  induction s as [|c s IH]; intros k.
  - destruct k; reflexivity.
  - destruct k as [|k]; [|rewrite replaceFrom_skip; apply IH].
    rewrite replaceFrom_here. unfold Live.rePipes at 1. rewrite span_cons.
    destruct (Ascii.eqb_spec "|"%char c) as [<-|Hne].
    + simpl. apply IH.
    + simpl. rewrite IH, andb_true_r.
      apply negb_true_iff, Ascii.eqb_neq. congruence.
Qed.

Lemma allChars_both (p q : ascii -> bool) (s : string) :
  allChars p s = true -> allChars q s = true ->
  allChars (fun c => (p c && q c)%bool) s = true.
Proof.
  induction s as [|c s IH]; [reflexivity|].
  simpl. intros Hp Hq.
  apply andb_true_iff in Hp, Hq. destruct Hp as [Hp1 Hp2], Hq as [Hq1 Hq2].
  now rewrite Hp1, Hq1, IH.
Qed.

Lemma polishSentence_no_markup (value : string) :
  allChars (fun c => (negb (Live.isMarkup c) && negb (Ascii.eqb c "|"))%bool)
           (Live.polishSentence value) = true.
Proof.
  unfold Live.polishSentence.
  apply squeeze_allChars; [reflexivity|].
  apply replaceFrom_allChars.
  { intros x Hx. unfold Live.lastChar. now apply substring_allChars. }
  apply replaceFrom_allChars.
  { intros x Hx. unfold Live.firstChar. now apply substring_allChars. }
  apply replaceFrom_allChars; [intros x _; reflexivity|].
  apply allChars_both.
  - apply replaceFrom_allChars; [intros x _; reflexivity|].
    apply cleanText_no_markup.
  - apply pipes_removed.
Qed.

(** X10: the text cleaner returns a text without any of the emphasis
    marks, and the sentence polisher a text without emphasis marks and
    without the pipe. *)
Theorem X10_no_markup_left (value : string) :
  allChars (fun c => negb (Live.isMarkup c)) (Live.cleanText value) = true
  /\ allChars (fun c => (negb (Live.isMarkup c) && negb (Ascii.eqb c "|"))%bool)
              (Live.polishSentence value) = true.
Proof.
  split; [apply cleanText_no_markup | apply polishSentence_no_markup].
Qed.

(* ================================================================= *)
(** ** Sentences and the lines of a card *)

(** X11: every sentence that the sentence splitter returns is non-empty,
    free of emphasis marks and pipes, and single-spaced (trimming it and
    collapsing its white space changes nothing); a text that the
    polisher empties has no sentence. *)
Theorem X11_sentences_shape (value : string) :
  Forall (fun sentence =>
            sentence <> ""
            /\ Js.trim (Js.collapseSpaces sentence) = sentence
            /\ allChars (fun c => (negb (Live.isMarkup c)
                                   && negb (Ascii.eqb c "|"))%bool)
                        sentence = true)
         (Live.splitSentences value)
  /\ (Live.polishSentence value = "" -> Live.splitSentences value = []).
Proof.
  split.
  - unfold Live.splitSentences. apply Forall_forall. intros sentence H.
    apply filter_In in H. destruct H as [Hin Hlen].
    apply in_map_iff in Hin. destruct Hin as [piece [<- _]].
    split; [|split].
    + intros E. rewrite E in Hlen. discriminate.
    + unfold Live.polishSentence. apply squeeze_idempotent.
    + apply polishSentence_no_markup.
  - intros E. unfold Live.splitSentences. rewrite E. reflexivity.
Qed.

Lemma splitBy_solid (p : ascii -> bool) (w : string) :
  allChars (fun c => negb (p c)) w = true -> Js.splitBy p w = [w].
Proof.
  induction w as [|c w IH]; [reflexivity|].
  simpl. intros H. apply andb_true_iff in H. destruct H as [Hc Hw].
  apply negb_true_iff in Hc. now rewrite Hc, (IH Hw).
Qed.

(** Splitting joined lines at the separator gives the lines back, when
    no line holds the separator. *)
Lemma splitBy_concat (p : ascii -> bool) (sep : ascii) (ws : list string) :
  p sep = true ->
  Forall (fun w => allChars (fun c => negb (p c)) w = true) ws ->
  Js.splitBy p (String.concat (String sep EmptyString) ws)
  = match ws with
    | [] => [EmptyString]
    | _ => ws
    end.
Proof.
  intros Hsep. induction 1 as [|w ws Hw Hws IH]; [reflexivity|].
  destruct ws as [|w' ws].
  - simpl. now apply splitBy_solid.
  - change (String.concat (String sep EmptyString) (w :: w' :: ws))
      with (w ++ String sep (String.concat (String sep EmptyString) (w' :: ws))).
    rewrite (splitBy_app _ _ _ _ Hsep), IH.
    now rewrite (splitBy_solid _ _ Hw).
Qed.

Lemma spaceFree_noLF (w : string) :
  spaceFree w = true -> allChars notLF w = true.
Proof.
  induction w as [|c w IH]; [reflexivity|].
  simpl. intros H. apply andb_true_iff in H. destruct H as [Hc Hw].
  rewrite (IH Hw), andb_true_r. unfold notLF.
  destruct (Ascii.eqb_spec c "010") as [->|_]; [discriminate | reflexivity].
Qed.

Lemma squeezed_noLF (s : string) :
  allChars notLF (Js.trim (Js.collapseSpaces s)) = true.
Proof.
  rewrite squeeze_words. apply allChars_join; [reflexivity|].
  eapply Forall_impl; [|apply words_spaceFree].
  intros w. apply spaceFree_noLF.
Qed.

Lemma polishSentence_noLF (value : string) :
  allChars notLF (Live.polishSentence value) = true.
Proof. unfold Live.polishSentence. apply squeezed_noLF. Qed.

(** What the selector returns comes from the sentences or is the
    fallback, and there are between one and [count] of them. *)
Lemma picked_members (sentences : list string) (keywordGroups : list (list string))
      (fallback : string) (count : nat) :
  1 <= count ->
  let picked := Live.pickBestSentences sentences keywordGroups fallback count in
  (forall s, In s picked -> In s sentences \/ s = fallback)
  /\ 1 <= List.length picked <= count.
Proof.
  intros Hcount. cbv zeta. rewrite pickBestSentences_ranked.
  set (ranked := Js.sort _ sentences).
  assert (Hperm : Permutation ranked sentences) by apply sort_perm.
  assert (Hlen := firstn_le_length count ranked).
  destruct (firstn count ranked) as [|r rs] eqn:E.
  - split; [|simpl; lia]. intros s [<-|[]]. now right.
  - split; [|simpl in *; lia].
    intros s Hs. left. apply (Permutation_in _ Hperm).
    rewrite <- (firstn_skipn count ranked). apply in_or_app. left.
    now rewrite E.
Qed.

Lemma liveSentences_noLF (post : option Live.RedditPost.t) (query : string) :
  Forall (fun s => allChars notLF s = true) (liveSentences post query).
Proof.
  unfold liveSentences, Live.splitSentences. cbv zeta.
  apply Forall_forall. intros s Hs.
  apply filter_In in Hs. destruct Hs as [Hs _].
  apply in_map_iff in Hs. destruct Hs as [x [<- _]].
  apply polishSentence_noLF.
Qed.

Lemma picked_noLF (post : option Live.RedditPost.t) (query : string)
      (keywordGroups : list (list string)) (fallback : string) (count : nat) :
  1 <= count -> allChars notLF fallback = true ->
  allChars notLF
    (Js.join " " (Live.pickBestSentences (liveSentences post query)
                                         keywordGroups fallback count)) = true.
Proof.
  intros Hcount Hfb. apply allChars_join; [reflexivity|].
  apply Forall_forall. intros s Hs.
  destruct (proj1 (picked_members _ keywordGroups fallback count Hcount) s Hs)
    as [Hin| ->]; [|exact Hfb].
  exact (proj1 (Forall_forall _ _) (liveSentences_noLF post query) s Hin).
Qed.

(** The lines of the details come back from the joined text when no
    line holds a line feed. *)
Lemma split_detailLines (whereText howText : string) (tips : list string) :
  allChars notLF whereText = true ->
  allChars notLF howText = true ->
  Forall (fun tip => allChars notLF tip = true) tips ->
  Js.split "010" (Js.join LF (detailLines whereText howText tips))
  = detailLines whereText howText tips.
Proof.
  intros Hw Hh Ht. unfold Js.split, Js.join, LF.
  rewrite (splitBy_concat (fun c => Ascii.eqb c "010") "010" _ eq_refl).
  - reflexivity.
  - unfold detailLines. simpl app.
    constructor; [simpl; exact Hw|].
    constructor; [simpl; exact Hh|].
    constructor; [reflexivity|].
    apply Forall_forall. intros line Hline.
    apply in_map_iff in Hline. destruct Hline as [tip [<- Htip]].
    simpl. exact (proj1 (Forall_forall _ _) Ht tip Htip).
Qed.

Lemma live_details (post : option Live.RedditPost.t) (query : string)
      (type : SearchType) :
  SearchResult.details (Live.toSearchResultFromReddit post query type)
  = Js.join LF (detailLines (Js.join " " (liveWhereLines post query))
                            (Js.join " " (liveHowLines post query))
                            (liveTips post query)).
Proof.
  unfold detailLines, liveTips. rewrite map_map. reflexivity.
Qed.

Lemma live_detail_lines (post : option Live.RedditPost.t) (query : string)
      (type : SearchType) :
  Js.split "010" (SearchResult.details (Live.toSearchResultFromReddit post query type))
  = detailLines (Js.join " " (liveWhereLines post query))
                (Js.join " " (liveHowLines post query))
                (liveTips post query).
Proof.
  rewrite live_details. apply split_detailLines.
  - exact (picked_noLF post query Live.whereGroups Live.whereFallback 2
             (le_S _ _ (le_n 1)) eq_refl).
  - exact (picked_noLF post query Live.howGroups Live.howFallback 2
             (le_S _ _ (le_n 1)) eq_refl).
  - unfold liveTips. apply Forall_forall. intros tip Htip.
    apply in_map_iff in Htip. destruct Htip as [x [<- _]].
    apply polishSentence_noLF.
Qed.

(** X12: the details of a live card are, line by line, the where line,
    the how line, the header "Tips:" and one bullet per tip, with one or
    two sentences in the where line and in the how line and one to three
    tips: four to six lines, none of them broken. *)
Theorem X12_live_details_lines (post : option Live.RedditPost.t) (query : string)
        (type : SearchType) :
  Js.split "010" (SearchResult.details (Live.toSearchResultFromReddit post query type))
  = detailLines (Js.join " " (liveWhereLines post query))
                (Js.join " " (liveHowLines post query))
                (liveTips post query)
  /\ 1 <= List.length (liveWhereLines post query) <= 2
  /\ 1 <= List.length (liveHowLines post query) <= 2
  /\ 1 <= List.length (liveTips post query) <= 3
  /\ 4 <= List.length
            (Js.split "010"
               (SearchResult.details (Live.toSearchResultFromReddit post query type)))
       <= 6.
Proof.
  assert (Hw := proj2 (picked_members (liveSentences post query) Live.whereGroups
                         Live.whereFallback 2 (le_S _ _ (le_n 1)))).
  assert (Hh := proj2 (picked_members (liveSentences post query) Live.howGroups
                         Live.howFallback 2 (le_S _ _ (le_n 1)))).
  assert (Ht := proj2 (picked_members (liveSentences post query) Live.tipGroups
                         Live.tipFallback 3 (le_S _ _ (le_S _ _ (le_n 1))))).
  cbv zeta in Hw, Hh, Ht.
  assert (Htips : 1 <= List.length (liveTips post query) <= 3)
    by (unfold liveTips; rewrite length_map; exact Ht).
  split; [apply live_detail_lines|].
  split; [exact Hw|]. split; [exact Hh|]. split; [exact Htips|].
  rewrite live_detail_lines. unfold detailLines.
  rewrite length_app, length_map. cbn [List.length]. lia.
Qed.

(* ================================================================= *)
(** ** The dispatcher on the cards of the two routes *)

Lemma prefix_empty (s : string) : String.prefix "" s = true.
Proof. now destruct s. Qed.

Lemma find_how_line (whereText howText : string) (tips : list string) :
  find (fun line => Js.startsWith (Js.toLowerCase line) "how to use:")
       (detailLines whereText howText tips)
  = Some ("How to use: " ++ howText).
Proof.
  unfold detailLines, Js.startsWith, Js.toLowerCase. simpl.
  reflexivity.
Qed.

Lemma filter_bullets (whereText howText : string) (tips : list string) :
  filter (fun line => Js.startsWith line "- ") (detailLines whereText howText tips)
  = map (fun tip => "- " ++ tip) tips.
Proof.
  unfold detailLines, Js.startsWith. simpl.
  induction tips as [|tip tips IH]; [reflexivity|].
  simpl. now rewrite prefix_empty, IH.
Qed.

(** The first three branches of the dispatcher on a card whose details
    are the given lines. *)
Lemma followUp_on_lines (result : SearchResult.t) (question : string)
      (history : list Page.ChatMessage.t)
      (whereText howText : string) (tips : list string) :
  Js.split "010" (SearchResult.details result)
  = detailLines whereText howText tips ->
  let q := Page.normalize question in
  let answer := Page.buildFollowUpAnswer result question history in
  (Page.asksWhere q = true ->
   answer = "Where-to-find summary:" ++ LF ++ "Where to find: " ++ whereText)
  /\ (Page.asksWhere q = false -> Page.asksHow q = true ->
      answer = "How to use: " ++ howText)
  /\ (Page.asksWhere q = false -> Page.asksHow q = false ->
      Page.asksTip q = true -> tips <> [] ->
      answer = "Top tips:" ++ LF
               ++ Js.join LF (firstn 2 (map (fun tip => "- " ++ tip) tips))).
Proof.
  intros Hlines. cbv zeta. unfold Page.buildFollowUpAnswer. cbv zeta.
  rewrite Hlines. split; [|split].
  - intros ->. reflexivity.
  - intros -> ->. now rewrite find_how_line.
  - intros -> -> -> Hne. rewrite filter_bullets.
    destruct tips as [|t1 tips]; [congruence|].
    reflexivity.
Qed.

(** X13: on every live card the dispatcher answers a location question
    with the where line of the card, a how question (one without a
    location word) with its how line, never with the generic pointer,
    and a tip question (one without a location or how word) with the
    header "Top tips:" and the first two bullets of the card, or the
    only one. *)
Theorem X13_follow_up_on_live_card
        (post : option Live.RedditPost.t) (query : string) (type : SearchType)
        (question : string) (history : list Page.ChatMessage.t) :
  let q := Page.normalize question in
  let answer :=
    Page.buildFollowUpAnswer (Live.toSearchResultFromReddit post query type)
                             question history in
  (Page.asksWhere q = true ->
   answer = "Where-to-find summary:" ++ LF ++ "Where to find: "
            ++ Js.join " " (liveWhereLines post query))
  /\ (Page.asksWhere q = false -> Page.asksHow q = true ->
      answer = "How to use: " ++ Js.join " " (liveHowLines post query))
  /\ (Page.asksWhere q = false -> Page.asksHow q = false ->
      Page.asksTip q = true ->
      answer = "Top tips:" ++ LF
               ++ Js.join LF (firstn 2 (map (fun tip => "- " ++ tip)
                                            (liveTips post query)))).
Proof.
  destruct (followUp_on_lines _ question history _ _ _
              (live_detail_lines post query type)) as [Hw [Hh Ht]].
  cbv zeta in *. split; [exact Hw|]. split; [exact Hh|].
  intros H1 H2 H3. apply Ht; try assumption.
  assert (Hlen := proj2 (picked_members (liveSentences post query) Live.tipGroups
                           Live.tipFallback 3 (le_S _ _ (le_S _ _ (le_n 1))))).
  cbv zeta in Hlen. unfold liveTips.
  destruct (Live.pickBestSentences _ Live.tipGroups _ 3); [simpl in Hlen; lia|].
  discriminate.
Qed.

Lemma X13_follow_up_witness :
  Page.buildFollowUpAnswer (Live.toSearchResultFromReddit (Some linkPost) "sentinel" howto)
                           "any fast tip?" []
  = "Top tips:" ++ LF
    ++ Js.join LF (firstn 2 (map (fun tip => "- " ++ tip)
                                 (liveTips (Some linkPost) "sentinel"))).
Proof.
  apply (proj2 (proj2 (X13_follow_up_on_live_card (Some linkPost) "sentinel" howto
                         "any fast tip?" [])));
    vm_compute; reflexivity.
Defined.

Lemma curated_detail_lines (entry : Curated.KnowledgeEntry.t) (type : SearchType) :
  allChars notLF (Curated.KnowledgeEntry.whereToFind entry) = true ->
  allChars notLF (Curated.KnowledgeEntry.howToUse entry) = true ->
  Forall (fun tip => allChars notLF tip = true) (Curated.KnowledgeEntry.tips entry) ->
  Js.split "010" (SearchResult.details (Curated.toSearchResult entry type))
  = detailLines (Curated.KnowledgeEntry.whereToFind entry)
                (Curated.KnowledgeEntry.howToUse entry)
                (Curated.KnowledgeEntry.tips entry).
Proof.
  intros Hw Hh Ht.
  change (SearchResult.details (Curated.toSearchResult entry type))
    with (Js.join LF (detailLines (Curated.KnowledgeEntry.whereToFind entry)
                                  (Curated.KnowledgeEntry.howToUse entry)
                                  (Curated.KnowledgeEntry.tips entry))).
  now apply split_detailLines.
Qed.

(** X14: for an entry whose where text, how text and tips hold no line
    feed - every entry of the built-in table is one - the details of the
    curated card split into the where line, the how line, the header
    "Tips:" and one bullet per tip, and the dispatcher answers a how
    question (one without a location word) with "How to use: " followed
    by the how text of the entry. *)
Theorem X14_curated_card_lines (entry : Curated.KnowledgeEntry.t) (type : SearchType) :
  (allChars notLF (Curated.KnowledgeEntry.whereToFind entry) = true ->
   allChars notLF (Curated.KnowledgeEntry.howToUse entry) = true ->
   Forall (fun tip => allChars notLF tip = true) (Curated.KnowledgeEntry.tips entry) ->
   Js.split "010" (SearchResult.details (Curated.toSearchResult entry type))
   = detailLines (Curated.KnowledgeEntry.whereToFind entry)
                 (Curated.KnowledgeEntry.howToUse entry)
                 (Curated.KnowledgeEntry.tips entry)
   /\ forall question history,
        Page.asksWhere (Page.normalize question) = false ->
        Page.asksHow (Page.normalize question) = true ->
        Page.buildFollowUpAnswer (Curated.toSearchResult entry type) question history
        = "How to use: " ++ Curated.KnowledgeEntry.howToUse entry)
  /\ (In entry Curated.LOCAL_KNOWLEDGE ->
      allChars notLF (Curated.KnowledgeEntry.whereToFind entry) = true
      /\ allChars notLF (Curated.KnowledgeEntry.howToUse entry) = true
      /\ Forall (fun tip => allChars notLF tip = true)
                (Curated.KnowledgeEntry.tips entry)).
Proof.
  split.
  - intros Hw Hh Ht.
    assert (Hlines := curated_detail_lines entry type Hw Hh Ht).
    split; [exact Hlines|].
    intros question history H1 H2.
    now apply (followUp_on_lines _ question history _ _ _ Hlines).
  - intros Hin. simpl in Hin.
    repeat (destruct Hin as [<-|Hin];
            [split; [reflexivity | split; [reflexivity|]];
             repeat constructor|]).
    contradiction.
Qed.

Lemma X14_curated_witness :
  Page.buildFollowUpAnswer
    (Curated.toSearchResult (nth 5 Curated.LOCAL_KNOWLEDGE emptyEntry) howto)
    "How do I use these?" []
  = "How to use: Main currency for tech upgrades and class improvements.".
Proof.
  apply (proj1 (X14_curated_card_lines (nth 5 Curated.LOCAL_KNOWLEDGE emptyEntry) howto));
    try (vm_compute; reflexivity).
  repeat constructor.
Defined.

(* ================================================================= *)
(** ** The response of the live route *)

(** X15: the live route rejects a request whose query is missing or
    blank with "Missing query." and answers every other request with the
    trimmed query, the mode "where" only for the type parameter
    "where", and between one and eight cards, all of them with the source
    label "Live Community Search" and without a video; when the payload
    holds no post the one card is the no-match card. *)
Theorem X15_live_response_shape
        (q typeParam : option string) (children : list (option Live.RedditPost.t)) :
  match Live.GET q typeParam children with
  | BadRequest message =>
      message = "Missing query."
      /\ (q = None \/ exists text, q = Some text /\ Js.trim text = "")
  | Ok query type results =>
      (exists text, q = Some text /\ query = Js.trim text)
      /\ query <> ""
      /\ (type = where_ <-> typeParam = Some "where")
      /\ 1 <= List.length results <= 8
      /\ Forall (fun card =>
                   SearchResult.source card = "Live Community Search"
                   /\ SearchResult.video card = None) results
      /\ (children = [] -> results = [Live.buildNoMatchResult query type])
  end.
Proof.
  unfold Live.GET.
  destruct q as [text|]; simpl option_map; [|split; [reflexivity | now left]].
  destruct (Js.trim text) as [|c query] eqn:Etrim.
  - split; [reflexivity|]. right. now exists text.
  - split; [now exists text|]. split; [discriminate|].
    split.
    { destruct typeParam as [t|]; [|split; discriminate].
      destruct (String.eqb_spec t "where") as [->|Hne].
      - split; reflexivity.
      - split; [discriminate|]. intros H. injection H as ->. contradiction. }
    set (type := match typeParam with
                 | Some t => if String.eqb t "where" then where_ else howto
                 | None => howto
                 end).
    set (ranked := firstn 8 (Live.dedupedRanked children _ type)).
    assert (Hlen : List.length ranked <= 8) by apply firstn_le_length.
    assert (Hempty : children = [] -> ranked = []).
    { intros ->. subst ranked. reflexivity. }
    clearbody ranked.
    destruct ranked as [|item ranked].
    + simpl. split; [lia|]. split; [|reflexivity].
      constructor; [split; reflexivity | constructor].
    + split; [simpl in *; rewrite length_map; lia|].
      split; [|intros H; specialize (Hempty H); discriminate].
      apply Forall_forall. intros card Hcard.
      apply in_map_iff in Hcard. destruct Hcard as [x [<- _]].
      split; reflexivity.
Qed.

Lemma wellFormed_app (l1 l2 : list (option Live.RedditPost.t)) :
  Live.wellFormed (l1 ++ l2) = (Live.wellFormed l1 ++ Live.wellFormed l2)%list.
Proof.
  induction l1 as [|[post|] l1 IH]; simpl; [reflexivity| |exact IH].
  destruct (Live.truthy _ && Live.truthy _)%bool; simpl; now rewrite IH.
Qed.

(** X16: a fragment of the payload without data, or whose identifier or
    title is missing or empty, is dropped before scoring: the response
    is the one of the payload without that fragment. *)
Theorem X16_malformed_fragment_ignored
        (q typeParam : option string)
        (before after : list (option Live.RedditPost.t))
        (fragment : option Live.RedditPost.t) :
  match fragment with
  | None => True
  | Some post =>
      Live.truthy (Live.RedditPost.id post) = false
      \/ Live.truthy (Live.RedditPost.title post) = false
  end ->
  Live.GET q typeParam (before ++ fragment :: after)
  = Live.GET q typeParam (before ++ after).
Proof.
  intros Hbad.
  assert (Hwf : Live.wellFormed (before ++ fragment :: after)
                = Live.wellFormed (before ++ after)).
  { rewrite !wellFormed_app. f_equal. simpl.
    destruct fragment as [post|]; [|reflexivity].
    destruct Hbad as [H|H]; rewrite H; [reflexivity | now rewrite andb_false_r]. }
  unfold Live.GET, Live.dedupedRanked. now rewrite Hwf.
Qed.

Lemma X16_malformed_witness :
  Live.GET (Some "sentinel") None
           [Some (Live.RedditPost.mk (Some "t3f") (Some "") None None None None None None);
            Some linkPost]
  = Live.GET (Some "sentinel") None [Some linkPost].
Proof.
  apply (X16_malformed_fragment_ignored (Some "sentinel") None [] [Some linkPost]).
  now right.
Defined.

(* ================================================================= *)
(** ** The local knowledge scorer and the curated route *)

Lemma scoreEntry_normalized (entry : Curated.KnowledgeEntry.t) (q1 q2 : string) :
  normalizeForMatch q1 = normalizeForMatch q2 ->
  Curated.scoreEntry entry q1 = Curated.scoreEntry entry q2.
Proof.
  intros H. unfold Curated.scoreEntry, Curated.tokenize. now rewrite H.
Qed.

Lemma fold_alias_upper (normalizedQuery : string) (aliases : list string) :
  forall score,
    fold_left
      (fun score alias =>
         if Js.includes normalizedQuery (normalizeForMatch alias)
         then score + 80 else score)
      aliases score
    <= score + 80 * List.length aliases.
Proof.
  induction aliases as [|alias aliases IH]; intros score; simpl; [lia|].
  destruct (Js.includes _ _).
  - specialize (IH (score + 80)). lia.
  - specialize (IH score). lia.
Qed.

Lemma fold_alias_zero (normalizedQuery : string) (aliases : list string) :
  fold_left
    (fun score alias =>
       if Js.includes normalizedQuery (normalizeForMatch alias)
       then score + 80 else score)
    aliases 0 = 0 ->
  forall alias, In alias aliases ->
    Js.includes normalizedQuery (normalizeForMatch alias) = false.
Proof.
  induction aliases as [|a aliases IH]; intros H alias Hin; [contradiction|].
  cbn [fold_left] in H.
  destruct (Js.includes normalizedQuery (normalizeForMatch a)) eqn:E.
  - assert (Hge := proj1 (fold_alias_bounds normalizedQuery aliases (0 + 80))). lia.
  - destruct Hin as [<-|Hin]; [exact E | now apply IH].
Qed.

(** X17: the score of an entry depends on the query only through its
    normalized form, so the normalized query scores like the query; it
    is at most 120 + 80 per alias + 12 per query token; and it is 0
    exactly when the normalized title differs from the normalized query,
    no normalized alias lies in the normalized query and no query token
    is a token of the searchable text. *)
Theorem X17_scoreEntry_facts (entry : Curated.KnowledgeEntry.t) (query : string) :
  Curated.scoreEntry entry (normalizeForMatch query) = Curated.scoreEntry entry query
  /\ Curated.scoreEntry entry query
     <= 120 + 80 * List.length (Curated.KnowledgeEntry.aliases entry)
        + 12 * List.length (Curated.tokenize query)
  /\ (Curated.scoreEntry entry query = 0
      <-> normalizeForMatch (Curated.KnowledgeEntry.title entry)
          <> normalizeForMatch query
          /\ (forall alias, In alias (Curated.KnowledgeEntry.aliases entry) ->
                Js.includes (normalizeForMatch query) (normalizeForMatch alias) = false)
          /\ (forall token, In token (Curated.tokenize query) ->
                ~ In token (Curated.tokenize (Curated.searchable entry)))).
Proof.
  split; [apply scoreEntry_normalized, normalize_idempotent|].
  unfold Curated.scoreEntry. cbv zeta. rewrite fold_tokens.
  set (nq := normalizeForMatch query).
  set (aliases := Curated.KnowledgeEntry.aliases entry).
  set (hits := filter (fun token =>
                         Curated.mem token (Curated.tokenize (Curated.searchable entry)))
                      (Curated.tokenize query)).
  assert (Hhits : List.length hits <= List.length (Curated.tokenize query))
    by apply filter_length_le.
  split.
  - destruct (String.eqb _ nq).
    + assert (H := fold_alias_upper nq aliases (0 + 120)). lia.
    + assert (H := fold_alias_upper nq aliases 0). lia.
  - split.
    + intros H0.
      destruct (String.eqb_spec (normalizeForMatch (Curated.KnowledgeEntry.title entry)) nq)
        as [E|E].
      * assert (H := proj1 (fold_alias_bounds nq aliases (0 + 120))). lia.
      * split; [exact E|].
        assert (Hal : fold_left
                        (fun score alias =>
                           if Js.includes nq (normalizeForMatch alias)
                           then score + 80 else score) aliases 0 = 0) by lia.
        split; [exact (fold_alias_zero nq aliases Hal)|].
        intros token Hin Hmem.
        assert (Hh : In token hits).
        { apply filter_In. split; [exact Hin | now apply mem_In]. }
        destruct hits; [contradiction | simpl in H0; lia].
    + intros [Ht [Ha Hk]].
      destruct (String.eqb_spec (normalizeForMatch (Curated.KnowledgeEntry.title entry)) nq)
        as [E|_]; [contradiction|].
      rewrite (proj2 (fold_alias_bounds nq aliases 0) Ha).
      assert (Hnone : hits = []).
      { apply filter_none. intros token Hin.
        destruct (Curated.mem token _) eqn:Em; [|reflexivity].
        apply mem_In in Em. now apply Hk in Em. }
      now rewrite Hnone.
Qed.

Lemma filter_map_decorated {A : Type} (f : A -> nat) (p : nat -> bool) (l : list A) :
  filter (fun item => p (snd item)) (map (fun x => (x, f x)) l)
  = map (fun x => (x, f x)) (filter (fun x => p (f x)) l).
Proof.
  induction l as [|x l IH]; [reflexivity|].
  simpl. destruct (p (f x)); simpl; now rewrite IH.
Qed.

Lemma sort_keeps_decoration {A : Type} (f : A -> nat) (l : list A) :
  Forall (fun item => snd item = f (fst item))
         (Js.sort (fun a b => Nat.ltb (snd a) (snd b)) (map (fun x => (x, f x)) l)).
Proof.
  apply Forall_forall. intros item Hin.
  apply (Permutation_in _ (sort_perm _ _)) in Hin.
  apply in_map_iff in Hin. destruct Hin as [x [<- _]]. reflexivity.
Qed.

Lemma sorted_app_order {A : Type} (R : A -> A -> Prop) (l1 l2 : list A) :
  StronglySorted R (l1 ++ l2) ->
  forall a b, In a l1 -> In b l2 -> R a b.
Proof.
  induction l1 as [|x l1 IH]; intros Hs a b Ha Hb; [contradiction|].
  simpl in Hs. inversion Hs as [|? ? Hs' Hx]; subst.
  destruct Ha as [<-|Ha].
  - rewrite Forall_forall in Hx. apply Hx, in_or_app. now right.
  - now apply IH.
Qed.

Lemma sorted_firstn {A : Type} (R : A -> A -> Prop) (l : list A) (n : nat) :
  StronglySorted R l -> StronglySorted R (firstn n l).
Proof.
  intros Hs. revert n. induction Hs as [|x l Hs IH Hx]; intros n.
  - rewrite firstn_nil. constructor.
  - destruct n as [|n]; [constructor|].
    simpl. constructor; [apply IH|].
    rewrite Forall_forall in *. intros y Hy. apply Hx.
    rewrite <- (firstn_skipn n l). apply in_or_app. now left.
Qed.

Lemma ranked_entries (knowledge : list Curated.KnowledgeEntry.t) (query : string) :
  Curated.ranked knowledge query
  = map (fun entry => (entry, Curated.scoreEntry entry query))
        (firstn 8
           (Js.sort (fun a b => Nat.ltb (Curated.scoreEntry a query)
                                        (Curated.scoreEntry b query))
                    (filter (fun entry => Nat.ltb 0 (Curated.scoreEntry entry query))
                            knowledge))).
Proof.
  unfold Curated.ranked.
  rewrite (filter_map_decorated (fun entry => Curated.scoreEntry entry query)
                                (Nat.ltb 0)).
  set (positive := filter _ knowledge).
  assert (Hdec := sort_keeps_decoration
                    (fun entry => Curated.scoreEntry entry query) positive).
  assert (Hfst := sort_decorated
                    (fun entry => Curated.scoreEntry entry query) positive).
  cbv beta in Hfst. rewrite <- Hfst, <- firstn_map.
  change Curated.byScore
    with (fun a b : Curated.KnowledgeEntry.t * nat => Nat.ltb (snd a) (snd b)).
  set (sorted := Js.sort _ (map _ positive)) in *.
  f_equal. clearbody sorted. clear Hfst.
  induction Hdec as [|[entry score] sorted Hhead _ IH]; [reflexivity|].
  simpl in *. subst score. now rewrite <- IH.
Qed.

Lemma ranked_facts (knowledge : list Curated.KnowledgeEntry.t) (query : string) :
  let score := fun entry => Curated.scoreEntry entry query in
  let kept := map fst (Curated.ranked knowledge query) in
  map snd (Curated.ranked knowledge query) = map score kept
  /\ Forall (fun entry => In entry knowledge /\ 0 < score entry) kept
  /\ StronglySorted (fun a b => score b <= score a) kept
  /\ List.length kept
     = Nat.min 8 (List.length (filter (fun entry => Nat.ltb 0 (score entry)) knowledge))
  /\ (forall left, In left knowledge -> 0 < score left -> ~ In left kept ->
        forall entry, In entry kept -> score left <= score entry)
  /\ (forall v, exists rest,
        filter (fun entry => Nat.eqb (score entry) (S v)) knowledge
        = (filter (fun entry => Nat.eqb (score entry) (S v)) kept ++ rest)%list).
Proof.
  intros score kept. subst kept. rewrite ranked_entries.
  rewrite !map_map. cbn [fst snd]. rewrite map_id.
  fold score.
  set (positive := filter (fun entry => Nat.ltb 0 (score entry)) knowledge).
  destruct (sort_by_score score positive) as [Hperm [Hsorted Hstable]].
  cbv zeta in Hperm, Hsorted, Hstable.
  set (sorted := Js.sort _ positive) in *.
  split; [reflexivity|].
  split.
  { apply Forall_forall. intros entry Hin.
    assert (Hs : In entry sorted).
    { rewrite <- (firstn_skipn 8 sorted). apply in_or_app. now left. }
    apply (Permutation_in _ Hperm) in Hs. apply filter_In in Hs.
    destruct Hs as [Hk Hp]. apply Nat.ltb_lt in Hp. now split. }
  split; [now apply sorted_firstn|].
  split.
  { rewrite length_firstn. f_equal. exact (Permutation_length Hperm). }
  split.
  { intros left Hleft Hpos Hout entry Hin.
    assert (Hs : In left sorted).
    { apply (Permutation_in _ (Permutation_sym Hperm)).
      apply filter_In. split; [exact Hleft | now apply Nat.ltb_lt]. }
    rewrite <- (firstn_skipn 8 sorted) in Hs, Hsorted.
    apply in_app_or in Hs. destruct Hs as [Hs|Hs]; [contradiction|].
    exact (sorted_app_order _ _ _ Hsorted entry left Hin Hs). }
  intros v. exists (filter (fun entry => Nat.eqb (score entry) (S v)) (skipn 8 sorted)).
  rewrite <- filter_app, firstn_skipn, Hstable.
  subst positive. clear. induction knowledge as [|entry knowledge IH]; [reflexivity|].
  simpl. destruct (Nat.eqb_spec (score entry) (S v)) as [E|E].
  - rewrite E. simpl. rewrite E, Nat.eqb_refl. now rewrite IH.
  - destruct (Nat.ltb 0 (score entry)); simpl; [|exact IH].
    destruct (Nat.eqb_spec (score entry) (S v)); [contradiction|exact IH].
Qed.

(** X18: the ranking of the curated route.  The entries kept are entries
    of the knowledge list with a positive score, each paired with its
    score, in the order of falling score; there are eight of them, or all
    the entries with a positive score when these are fewer; an entry with
    a positive score that is left out scores no more than any entry kept;
    and the entries kept with one score stand in the order of the list,
    as its first entries with that score. *)
Theorem X18_curated_ranking (knowledge : list Curated.KnowledgeEntry.t) (query : string) :
  let score := fun entry => Curated.scoreEntry entry query in
  let kept := map fst (Curated.ranked knowledge query) in
  map snd (Curated.ranked knowledge query) = map score kept
  /\ Forall (fun entry => In entry knowledge /\ 0 < score entry) kept
  /\ StronglySorted (fun a b => score b <= score a) kept
  /\ List.length kept
     = Nat.min 8 (List.length (filter (fun entry => Nat.ltb 0 (score entry)) knowledge))
  /\ (forall left, In left knowledge -> 0 < score left -> ~ In left kept ->
        forall entry, In entry kept -> score left <= score entry)
  /\ (forall v, exists rest,
        filter (fun entry => Nat.eqb (score entry) (S v)) knowledge
        = (filter (fun entry => Nat.eqb (score entry) (S v)) kept ++ rest)%list).
Proof. exact (ranked_facts knowledge query). Qed.

(** X19: the curated route rejects a request whose query is missing or
    blank with "Missing query." and answers every other request with the
    trimmed query, the mode "where" only for the type parameter "where",
    and between one and eight cards with the source label "NMS Local KB":
    the one no-match card when no entry of the table scores above 0, and
    otherwise the cards of the ranked entries, in their order. *)
Theorem X19_curated_response_shape (q typeParam : option string) :
  match Curated.GET q typeParam with
  | BadRequest message =>
      message = "Missing query."
      /\ (q = None \/ exists text, q = Some text /\ Js.trim text = "")
  | Ok query type results =>
      (exists text, q = Some text /\ query = Js.trim text)
      /\ query <> ""
      /\ (type = where_ <-> typeParam = Some "where")
      /\ 1 <= List.length results <= 8
      /\ Forall (fun card => SearchResult.source card = "NMS Local KB") results
      /\ ((forall entry, In entry Curated.LOCAL_KNOWLEDGE ->
             Curated.scoreEntry entry query = 0)
          /\ results = [Curated.buildNoMatchResult query type]
          \/ (exists entry, In entry Curated.LOCAL_KNOWLEDGE
                            /\ 0 < Curated.scoreEntry entry query)
             /\ results = map (fun entry => Curated.toSearchResult entry type)
                              (map fst (Curated.ranked Curated.LOCAL_KNOWLEDGE query)))
  end.
Proof.
  unfold Curated.GET.
  destruct q as [text|]; simpl option_map; [|split; [reflexivity | now left]].
  destruct (Js.trim text) as [|c query] eqn:Etrim.
  - split; [reflexivity|]. right. now exists text.
  - split; [now exists text|]. split; [discriminate|].
    split.
    { destruct typeParam as [t|]; [|split; discriminate].
      destruct (String.eqb_spec t "where") as [->|Hne].
      - split; reflexivity.
      - split; [discriminate|]. intros H. injection H as ->. contradiction. }
    set (type := match typeParam with
                 | Some t => if String.eqb t "where" then where_ else howto
                 | None => howto
                 end).
    destruct (ranked_facts Curated.LOCAL_KNOWLEDGE (String c query))
      as [_ [Hin [_ [Hlen _]]]].
    cbv zeta in Hin, Hlen.
    rewrite <- (map_map fst (fun entry => Curated.toSearchResult entry type)).
    set (kept := map fst (Curated.ranked Curated.LOCAL_KNOWLEDGE (String c query))) in *.
    set (positive := filter _ Curated.LOCAL_KNOWLEDGE) in Hlen.
    assert (Hpos : kept = [] ->
                   forall entry, In entry Curated.LOCAL_KNOWLEDGE ->
                                 Curated.scoreEntry entry (String c query) = 0).
    { intros Hnil entry Hentry.
      destruct (Curated.scoreEntry entry (String c query)) as [|n] eqn:E; [reflexivity|].
      assert (Hp : In entry positive).
      { apply filter_In. split; [exact Hentry|]. now rewrite E. }
      rewrite Hnil in Hlen. destruct positive; [contradiction | discriminate]. }
    assert (Hle : List.length kept <= 8) by (rewrite Hlen; apply Nat.le_min_l).
    clearbody kept. clear Hlen.
    destruct kept as [|entry kept].
    + simpl. split; [lia|]. split; [constructor; [reflexivity | constructor]|].
      left. split; [now apply Hpos | reflexivity].
    + set (cards := map _ (entry :: kept)).
      assert (Hcards : List.length cards = List.length (entry :: kept))
        by apply length_map.
      assert (Hsrc : Forall (fun card => SearchResult.source card = "NMS Local KB") cards).
      { apply Forall_forall. intros card Hcard.
        apply in_map_iff in Hcard. destruct Hcard as [x [<- _]]. reflexivity. }
      assert (Hsome : exists e, In e Curated.LOCAL_KNOWLEDGE
                                /\ 0 < Curated.scoreEntry e (String c query)).
      { exists entry. now inversion Hin. }
      assert (Hshape : cards <> []) by discriminate.
      clearbody cards.
      destruct cards as [|card cards]; [contradiction|].
      split; [simpl in *; lia|].
      split; [exact Hsrc|]. right. split; [exact Hsome | reflexivity].
Qed.

(* ================================================================= *)
(** ** Queries that name an entry of the table *)

Lemma trimStart_decompose (s : string) :
  exists t, s = t ++ Js.trimStart s /\ allChars Js.isSpace t = true.
Proof.
  induction s as [|c s [t [Hs Ht]]]; [now exists ""|].
  simpl. destruct (Js.isSpace c) eqn:E.
  - exists (String c t). simpl. rewrite E, Ht. split; [now rewrite <- Hs | reflexivity].
  - now exists "".
Qed.

Lemma trimEnd_decompose (s : string) :
  exists t, s = Js.trimEnd s ++ t /\ allChars Js.isSpace t = true.
Proof.
  induction s as [|c s [t [Hs Ht]]]; [now exists ""|].
  simpl. destruct (Js.trimEnd s) as [|d r] eqn:E.
  - simpl in Hs. destruct (Js.isSpace c) eqn:Ec.
    + exists (String c s). simpl. rewrite Ec. split; [reflexivity|].
      now rewrite Hs.
    + exists t. simpl. split; [now rewrite <- Hs | exact Ht].
  - exists t. split; [|exact Ht]. simpl. simpl in Hs. now rewrite <- Hs.
Qed.

Lemma words_spaces_l (t s : string) :
  allChars Js.isSpace t = true -> words (t ++ s) = words s.
Proof.
  induction t as [|c t IH]; [reflexivity|].
  simpl. intros H. apply andb_true_iff in H. destruct H as [Hc Ht].
  unfold words in *. simpl. rewrite Hc. simpl. now apply IH.
Qed.

Lemma words_spaces (t : string) :
  allChars Js.isSpace t = true -> words t = [].
Proof.
  intros H. rewrite <- (append_empty t). now rewrite words_spaces_l.
Qed.

Lemma words_spaces_r (s t : string) :
  allChars Js.isSpace t = true -> words (s ++ t) = words s.
Proof.
  destruct t as [|c t]; [now rewrite append_empty|].
  simpl. intros H. apply andb_true_iff in H. destruct H as [Hc Ht].
  rewrite (words_app c s t Hc), (words_spaces t Ht). apply app_nil_r.
Qed.

Lemma blank_lower_spaces (t : string) :
  allChars Js.isSpace t = true ->
  Js.mapString blankOther (Js.toLowerCase t) = t.
Proof.
  unfold Js.toLowerCase. induction t as [|c t IH]; [reflexivity|].
  simpl. intros H. apply andb_true_iff in H. destruct H as [Hc Ht].
  rewrite (space_lower c Hc), (IH Ht).
  unfold blankOther. now rewrite Hc, orb_true_r.
Qed.

Lemma blank_lower_app (a b : string) :
  Js.mapString blankOther (Js.toLowerCase (a ++ b))
  = Js.mapString blankOther (Js.toLowerCase a)
    ++ Js.mapString blankOther (Js.toLowerCase b).
Proof. unfold Js.toLowerCase. now rewrite !mapString_app. Qed.

(** White space at the two ends of a text does not reach its normal
    form. *)
Lemma normalize_trim (value : string) :
  normalizeForMatch (Js.trim value) = normalizeForMatch value.
Proof.
  rewrite !normalizeForMatch_words. f_equal. unfold Js.trim.
  destruct (trimStart_decompose value) as [t1 [H1 Ht1]].
  destruct (trimEnd_decompose (Js.trimStart value)) as [t2 [H2 Ht2]].
  rewrite H1 at 2. rewrite H2 at 2.
  rewrite !blank_lower_app, (blank_lower_spaces t1 Ht1), (blank_lower_spaces t2 Ht2).
  now rewrite (words_spaces_l t1 _ Ht1), (words_spaces_r _ t2 Ht2).
Qed.

Lemma ranked_normalized (knowledge : list Curated.KnowledgeEntry.t) (q1 q2 : string) :
  normalizeForMatch q1 = normalizeForMatch q2 ->
  Curated.ranked knowledge q1 = Curated.ranked knowledge q2.
Proof.
  intros H. unfold Curated.ranked. do 3 f_equal.
  apply map_ext. intros entry. now rewrite (scoreEntry_normalized entry q1 q2 H).
Qed.

Lemma table_title_first (i : nat) :
  i < List.length Curated.LOCAL_KNOWLEDGE ->
  let entry := nth i Curated.LOCAL_KNOWLEDGE emptyEntry in
  normalizeForMatch (Curated.KnowledgeEntry.title entry) <> ""
  /\ exists score rest,
       Curated.ranked Curated.LOCAL_KNOWLEDGE (Curated.KnowledgeEntry.title entry)
       = (entry, score) :: rest.
Proof.
  intros Hi. cbv zeta.
  do 6 (destruct i as [|i];
        [split; [vm_compute; discriminate
                | vm_compute; eexists; eexists; reflexivity]|]).
  simpl in Hi. lia.
Qed.

Lemma title_query_first (entry : Curated.KnowledgeEntry.t) (text : string)
      (typeParam : option string) :
  In entry Curated.LOCAL_KNOWLEDGE ->
  normalizeForMatch text = normalizeForMatch (Curated.KnowledgeEntry.title entry) ->
  exists type rest,
    Curated.GET (Some text) typeParam
    = Ok (Js.trim text) type (Curated.toSearchResult entry type :: rest).
Proof.
  intros Hin Hq.
  destruct (In_nth _ _ emptyEntry Hin) as [i [Hi Hnth]].
  destruct (table_title_first i Hi) as [Hne [score [rest Hranked]]].
  cbv zeta in Hne, Hranked. rewrite Hnth in Hne, Hranked.
  assert (Htrim : normalizeForMatch (Js.trim text)
                  = normalizeForMatch (Curated.KnowledgeEntry.title entry))
    by now rewrite normalize_trim.
  unfold Curated.GET. simpl option_map.
  destruct (Js.trim text) as [|c query] eqn:E.
  - exfalso. apply Hne. rewrite <- Htrim. reflexivity.
  - rewrite (ranked_normalized _ _ _ Htrim), Hranked.
    eexists. eexists. cbn [map fst]. reflexivity.
Qed.

(** X20: on the built-in table, a query whose normal form is the one of
    the title of an entry (the title in any case, with any punctuation
    and white space around its words) is answered with the card of that
    entry in the first place. *)
Theorem X20_title_query_first (entry : Curated.KnowledgeEntry.t) (text : string)
        (typeParam : option string) :
  In entry Curated.LOCAL_KNOWLEDGE ->
  normalizeForMatch text = normalizeForMatch (Curated.KnowledgeEntry.title entry) ->
  exists type rest,
    Curated.GET (Some text) typeParam
    = Ok (Js.trim text) type (Curated.toSearchResult entry type :: rest).
Proof. exact (title_query_first entry text typeParam). Qed.

Lemma X20_title_query_witness :
  exists type rest,
    Curated.GET (Some "  LIVING-glass?! ") (Some "where")
    = Ok "LIVING-glass?!" type
         (Curated.toSearchResult (nth 1 Curated.LOCAL_KNOWLEDGE emptyEntry) type :: rest).
Proof.
  apply (X20_title_query_first (nth 1 Curated.LOCAL_KNOWLEDGE emptyEntry)
                               "  LIVING-glass?! " (Some "where")).
  - right. left. reflexivity.
  - vm_compute. reflexivity.
Defined.

(* ================================================================= *)
(** ** The identifier of the no-match card *)

Lemma dash_word (rep : string -> string) (w r : string) :
  spaceFree w = true ->
  Js.replaceFrom Js.reSpaces rep 0 (w ++ r)
  = w ++ Js.replaceFrom Js.reSpaces rep 0 r.
Proof.
  induction w as [|c w IH]; [reflexivity|].
  simpl spaceFree. intros H. apply andb_true_iff in H. destruct H as [Hc Hw].
  apply negb_true_iff in Hc.
  change (String c w ++ r) with (String c (w ++ r)).
  rewrite replaceFrom_here, reSpaces_cons, Hc, (IH Hw). reflexivity.
Qed.

Lemma dash_join (ws : list string) :
  Forall (fun w => spaceFree w = true) ws ->
  Forall (fun w => w <> "") ws ->
  dashSpaces (Js.join " " ws) = Js.join "-" ws.
Proof.
  unfold dashSpaces, Js.replaceAll, Js.join.
  induction 1 as [|w ws Hw Hws IH]; intros Hne; [reflexivity|].
  inversion Hne as [|? ? _ Hne']; subst. specialize (IH Hne').
  destruct ws as [|w' ws].
  - cbn [String.concat]. rewrite <- (append_empty w) at 1.
    rewrite (dash_word _ w "" Hw).
    change (Js.replaceFrom Js.reSpaces (fun _ : string => "-") 0 "") with "".
    apply append_empty.
  - change (String.concat " " (w :: w' :: ws))
      with (w ++ String " " (String.concat " " (w' :: ws))).
    change (String.concat "-" (w :: w' :: ws))
      with (w ++ String "-" (String.concat "-" (w' :: ws))).
    rewrite (dash_word _ w _ Hw). f_equal.
    rewrite replaceFrom_here, reSpaces_cons.
    change (Js.isSpace " ") with true. cbv iota.
    assert (Hspan : fst (Js.span Js.isSpace (String.concat " " (w' :: ws))) = 0).
    { rewrite join_glue.
      inversion Hws as [|? ? Hw' _]; inversion Hne' as [|? ? Hne0 _]; subst.
      destruct w' as [|c w']; [contradiction|].
      simpl in Hw'. apply andb_true_iff in Hw'. destruct Hw' as [Hc _].
      apply negb_true_iff in Hc.
      change (String c w' ++ glue ws) with (String c (w' ++ glue ws)).
      now rewrite span_cons, Hc. }
    rewrite Hspan, IH. reflexivity.
Qed.

Lemma allChars_joinWith (p : ascii -> bool) (sep : ascii) (ws : list string) :
  p sep = true ->
  Forall (fun w => allChars p w = true) ws ->
  allChars p (String.concat (String sep "") ws) = true.
Proof.
  intros Hsep. induction 1 as [|w ws Hw Hws IH]; [reflexivity|].
  destruct ws as [|w' ws]; [exact Hw|].
  change (String.concat (String sep "") (w :: w' :: ws))
    with (w ++ String sep (String.concat (String sep "") (w' :: ws))).
  set (rest := String.concat (String sep "") (w' :: ws)) in *.
  rewrite allChars_app, Hw. simpl. now rewrite Hsep, IH.
Qed.

Lemma noMatchId_words (query : string) :
  Live.noMatchId query
  = "no-match-"
    ++ match words (Js.mapString blankOther (Js.toLowerCase query)) with
       | [] => "query"
       | ws => Js.join "-" ws
       end.
Proof.
  unfold Live.noMatchId. cbv zeta. f_equal.
  rewrite normalizeForMatch_words.
  assert (Hne := words_nonempty (Js.mapString blankOther (Js.toLowerCase query))).
  rewrite (dash_join _ (words_spaceFree _) Hne).
  destruct (words _) as [|w ws]; [reflexivity|].
  inversion Hne as [|? ? Hw _]; subst.
  destruct w as [|c w]; [contradiction|].
  unfold Js.join. destruct ws; reflexivity.
Qed.

(** X21: the identifier of the no-match card.  It is the same in the two
    routes; it is "no-match-query" when the normal form of the query is
    empty, and "no-match-" followed by the words of the normalized query
    joined by "-" otherwise; it holds only the
    characters a-z, 0-9 and "-"; and queries with one normal form get
    one identifier. *)
Theorem X21_no_match_id (query : string) (type : SearchType) :
  let id := SearchResult.id (Live.buildNoMatchResult query type) in
  SearchResult.id (Curated.buildNoMatchResult query type) = id
  /\ (normalizeForMatch query = "" -> id = "no-match-query")
  /\ (normalizeForMatch query <> "" ->
      id = "no-match-" ++ Js.join "-" (Js.split " " (normalizeForMatch query)))
  /\ allChars isSlugChar id = true
  /\ (forall other, normalizeForMatch other = normalizeForMatch query ->
        SearchResult.id (Live.buildNoMatchResult other type) = id).
Proof.
  cbv zeta. change (SearchResult.id (Live.buildNoMatchResult query type))
    with (Live.noMatchId query).
  split; [reflexivity|].
  split.
  { intros H. unfold Live.noMatchId. now rewrite H. }
  split.
  { intros H. rewrite noMatchId_words, split_normalized.
    rewrite normalizeForMatch_words in H.
    destruct (words _); [now contradiction H | reflexivity]. }
  split.
  { rewrite noMatchId_words.
    assert (Hw := normalized_words query).
    destruct (words _) as [|w ws] eqn:E; [reflexivity|].
    rewrite allChars_app. apply andb_true_iff. split; [reflexivity|].
    apply (allChars_joinWith isSlugChar "-"); [reflexivity|].
    apply Forall_forall. intros x Hx.
    apply (allChars_impl isWordChar); [|exact (proj1 (Forall_forall _ _) Hw x Hx)].
    intros c Hc. unfold isSlugChar. now rewrite Hc. }
  intros other H.
  change (SearchResult.id (Live.buildNoMatchResult other type))
    with (Live.noMatchId other).
  unfold Live.noMatchId. now rewrite H.
Qed.

(* ================================================================= *)
(** ** The word overlap and the FAQ of the page *)

Lemma keywordOverlap_count (a b : string) :
  Page.keywordOverlap a b
  = List.length (filter (fun token => existsb (String.eqb token) (Page.words b))
                        (nodup string_dec (Page.words a))).
Proof.
  unfold Page.keywordOverlap. cbv zeta.
  generalize (nodup string_dec (Page.words a)). intros l.
  assert (H : forall n,
             fold_left
               (fun score token =>
                  if existsb (String.eqb token) (Page.words b)
                  then score + 1 else score) l n
             = n + List.length
                     (filter (fun token => existsb (String.eqb token) (Page.words b)) l)).
  { induction l as [|x l IH]; intros n; simpl; [lia|].
    rewrite IH. destruct (existsb _ _); simpl; lia. }
  now rewrite H.
Qed.

Lemma existsb_eqb_In (token : string) (l : list string) :
  existsb (String.eqb token) l = true <-> In token l.
Proof.
  rewrite existsb_exists. split.
  - intros [x [Hx E]]. apply String.eqb_eq in E. now subst x.
  - intros H. exists token. split; [exact H | apply String.eqb_refl].
Qed.

Lemma common_words (a b : string) (token : string) :
  In token (filter (fun token => existsb (String.eqb token) (Page.words b))
                   (nodup string_dec (Page.words a)))
  <-> In token (Page.words a) /\ In token (Page.words b).
Proof.
  rewrite filter_In, nodup_In, existsb_eqb_In. reflexivity.
Qed.

Lemma keywordOverlap_facts (a b : string) :
  Page.keywordOverlap a b = Page.keywordOverlap b a
  /\ Page.keywordOverlap a b <= List.length (nodup string_dec (Page.words a))
  /\ Page.keywordOverlap a a = List.length (nodup string_dec (Page.words a))
  /\ (Page.keywordOverlap a b = 0
      <-> forall token, In token (Page.words a) -> ~ In token (Page.words b)).
Proof.
  rewrite !keywordOverlap_count.
  split.
  { apply Permutation_length, NoDup_Permutation.
    - apply NoDup_filter, NoDup_nodup.
    - apply NoDup_filter, NoDup_nodup.
    - intros token. rewrite !common_words. tauto. }
  split; [apply filter_length_le|].
  split.
  { f_equal. apply forallb_filter_id. apply forallb_forall.
    intros token Hin. apply existsb_eqb_In. now apply nodup_In in Hin. }
  split.
  - intros H token Ha Hb.
    assert (Hin : In token
                     (filter (fun token => existsb (String.eqb token) (Page.words b))
                             (nodup string_dec (Page.words a))))
      by now apply common_words.
    destruct (filter _ _); [contradiction | discriminate].
  - intros H. rewrite filter_none; [reflexivity|].
    intros token Hin. apply nodup_In in Hin.
    destruct (existsb _ _) eqn:E; [|reflexivity].
    apply existsb_eqb_In in E. now apply H in E.
Qed.

(** X22: the word overlap of the page counts the distinct words of two
    or more characters that the two normalized texts share: it is
    symmetric, at most the number of distinct words of a text, equal to
    that number for a text with itself, and 0 exactly when the texts
    share no word. *)
Theorem X22_keyword_overlap (a b : string) :
  Page.keywordOverlap a b = Page.keywordOverlap b a
  /\ Page.keywordOverlap a b <= List.length (nodup string_dec (Page.words a))
  /\ Page.keywordOverlap a a = List.length (nodup string_dec (Page.words a))
  /\ (Page.keywordOverlap a b = 0
      <-> forall token, In token (Page.words a) -> ~ In token (Page.words b)).
Proof. exact (keywordOverlap_facts a b). Qed.

(** The head of the stable sort on a falling score is the first element
    with the highest score. *)
Lemma sort_head {A : Type} (f : A -> nat) (x : A) (l : list A) :
  exists before best later,
    x :: l = (before ++ best :: later)%list
    /\ hd_error (Js.sort (fun a b => Nat.ltb (f a) (f b)) (x :: l)) = Some best
    /\ Forall (fun other => f other < f best) before
    /\ Forall (fun other => f other <= f best) later.
Proof.
  revert x. induction l as [|y l IH]; intros x.
  - exists [], x, []. repeat split; constructor.
  - destruct (IH y) as [before [best [later [Hl [Hhd [Hb Hlater]]]]]].
    cbn [Js.sort] in *.
    destruct (Js.insert _ y (Js.sort _ l)) as [|top rest] eqn:E; [discriminate|].
    injection Hhd as ->.
    cbn [Js.insert].
    destruct (Nat.ltb (f x) (f best)) eqn:Ex.
    + apply Nat.ltb_lt in Ex.
      exists (x :: before), best, later.
      split; [simpl; now rewrite <- Hl|].
      split; [reflexivity|]. split; [now constructor | exact Hlater].
    + apply Nat.ltb_ge in Ex.
      exists [], x, (y :: l).
      split; [reflexivity|]. split; [reflexivity|]. split; [constructor|].
      rewrite Hl. apply Forall_app. split.
      * eapply Forall_impl; [|exact Hb]. simpl. intros; lia.
      * constructor; [exact Ex|].
        eapply Forall_impl; [|exact Hlater]. simpl. intros; lia.
Qed.

Lemma faqOrSummary_answer (result : SearchResult.t) (question : string)
      (hasPriorQuestions : bool) :
  let overlap := fun item => Page.keywordOverlap question (Faq.question item) in
  let answer := Page.faqOrSummary result question hasPriorQuestions in
  (Forall (fun item => overlap item = 0) (SearchResult.faq result)
   /\ answer = summaryAnswer result hasPriorQuestions)
  \/ exists before best later,
       SearchResult.faq result = (before ++ best :: later)%list
       /\ answer = Faq.answer best
       /\ 0 < overlap best
       /\ Forall (fun other => overlap other < overlap best) before
       /\ Forall (fun other => overlap other <= overlap best) later.
Proof.
  intros overlap answer. subst answer. unfold Page.faqOrSummary. cbv zeta.
  fold (summaryAnswer result hasPriorQuestions).
  change Page.byScore with (fun a b : Faq.t * nat => Nat.ltb (snd a) (snd b)).
  assert (Hdec := sort_keeps_decoration overlap (SearchResult.faq result)).
  assert (Hfst := sort_decorated overlap (SearchResult.faq result)).
  fold overlap.
  set (sorted := Js.sort _ (map _ (SearchResult.faq result))) in *.
  destruct (SearchResult.faq result) as [|x l] eqn:Efaq.
  - left. split; [constructor | reflexivity].
  - destruct (sort_head overlap x l) as [before [best [later [Hl [Hhd [Hb Hlater]]]]]].
    rewrite <- Hfst in Hhd.
    destruct sorted as [|[item score] rest]; [discriminate|].
    simpl in Hhd. injection Hhd as ->.
    inversion Hdec as [|? ? Hscore _]; subst. simpl in Hscore.
    cbn [hd_error].
    destruct score as [|n].
    + left. split; [|reflexivity].
      rewrite Hl. apply Forall_app. split.
      * eapply Forall_impl; [|exact Hb]. simpl. intros; lia.
      * constructor; [now symmetry|].
        eapply Forall_impl; [|exact Hlater]. simpl. intros; lia.
    + right. exists before, best, later.
      split; [exact Hl|]. split; [reflexivity|].
      split; [lia|]. split; assumption.
Qed.

Lemma plain_question_answer (result : SearchResult.t) (question : string)
      (history : list Page.ChatMessage.t) :
  namesNoTopic (Page.normalize question) = true ->
  Page.buildFollowUpAnswer result question history
  = Page.faqOrSummary result question (existsb Page.isUser history).
Proof.
  unfold namesNoTopic. intros H. apply negb_true_iff in H.
  set (q := Page.normalize question) in *.
  destruct (Page.asksWhere q) eqn:Ewhere; [discriminate|].
  destruct (Page.asksHow q) eqn:Ehow; [discriminate|].
  destruct (Page.asksTip q) eqn:Etip; [discriminate|].
  destruct (Js.includes q "reddit") eqn:Ereddit; [discriminate|].
  destruct (Js.includes q "video") eqn:Evideo; [discriminate|].
  destruct (Js.includes q "watch") eqn:Ewatch; [discriminate|].
  unfold Page.buildFollowUpAnswer. cbv zeta. fold q.
  rewrite Ewhere, Ehow, Etip. unfold Page.afterTipBranch.
  rewrite Ereddit, Evideo, Ewatch. reflexivity.
Qed.

(** X23: a question that names none of the topics of the dispatcher is
    answered from the FAQ of the card: with the answer of the entry whose
    question shares the most words with it, the first such entry of the
    list, when that number is above 0; and with the summary of the card,
    its references and a prompt when no entry shares a word with it. *)
Theorem X23_faq_answer (result : SearchResult.t) (question : string)
        (history : list Page.ChatMessage.t) :
  namesNoTopic (Page.normalize question) = true ->
  let overlap := fun item => Page.keywordOverlap question (Faq.question item) in
  let answer := Page.buildFollowUpAnswer result question history in
  (Forall (fun item => overlap item = 0) (SearchResult.faq result)
   /\ answer = summaryAnswer result (existsb Page.isUser history))
  \/ exists before best later,
       SearchResult.faq result = (before ++ best :: later)%list
       /\ answer = Faq.answer best
       /\ 0 < overlap best
       /\ Forall (fun other => overlap other < overlap best) before
       /\ Forall (fun other => overlap other <= overlap best) later.
Proof.
  intros H. cbv zeta. rewrite (plain_question_answer result question history H).
  exact (faqOrSummary_answer result question (existsb Page.isUser history)).
Qed.

Lemma X23_faq_witness :
  let result := Curated.toSearchResult (nth 0 Curated.LOCAL_KNOWLEDGE emptyEntry) howto in
  let question := "Is the plant farm ready soon?" in
  let overlap := fun item => Page.keywordOverlap question (Faq.question item) in
  let answer := Page.buildFollowUpAnswer result question [] in
  (Forall (fun item => overlap item = 0) (SearchResult.faq result)
   /\ answer = summaryAnswer result (existsb Page.isUser []))
  \/ exists before best later,
       SearchResult.faq result = (before ++ best :: later)%list
       /\ answer = Faq.answer best
       /\ 0 < overlap best
       /\ Forall (fun other => overlap other < overlap best) before
       /\ Forall (fun other => overlap other <= overlap best) later.
Proof.
  apply (X23_faq_answer
           (Curated.toSearchResult (nth 0 Curated.LOCAL_KNOWLEDGE emptyEntry) howto)
           "Is the plant farm ready soon?" []).
  vm_compute. reflexivity.
Defined.

(* ================================================================= *)
(** ** Favorites and expanded cards *)

Lemma filter_key_absent (key : string) (l : list string) :
  ~ In key l -> filter (fun item => negb (String.eqb item key)) l = l.
Proof.
  intros H. apply forallb_filter_id. apply forallb_forall. intros x Hx.
  destruct (String.eqb_spec x key) as [->|_]; [contradiction | reflexivity].
Qed.

Lemma filter_map_key (key : string) (l : list SearchResult.t) :
  map Page.getResultKey
      (filter (fun item => negb (String.eqb (Page.getResultKey item) key)) l)
  = filter (fun item => negb (String.eqb item key)) (map Page.getResultKey l).
Proof.
  induction l as [|x l IH]; [reflexivity|].
  simpl. destruct (String.eqb (Page.getResultKey x) key); simpl; now rewrite IH.
Qed.

Lemma existsb_key (key : string) (l : list SearchResult.t) :
  existsb (fun item => String.eqb (Page.getResultKey item) key) l = true
  <-> In key (keysOf l).
Proof.
  unfold keysOf. rewrite existsb_exists, in_map_iff. split.
  - intros [x [Hx E]]. apply String.eqb_eq in E. now exists x.
  - intros [x [E Hx]]. exists x. split; [exact Hx | now apply String.eqb_eq].
Qed.

Lemma filter_removes_key (key : string) (l : list string) :
  ~ In key (filter (fun item => negb (String.eqb item key)) l).
Proof.
  intros H. apply filter_In in H. destruct H as [_ H].
  now rewrite String.eqb_refl in H.
Qed.

Lemma toggleFavorite_facts (result : SearchResult.t) (current : list SearchResult.t) :
  let key := Page.getResultKey result in
  let others := fun item => negb (String.eqb (Page.getResultKey item) key) in
  let next := Page.toggleFavorite result current in
  (In key (keysOf next) <-> ~ In key (keysOf current))
  /\ filter others next = filter others current
  /\ (NoDup (keysOf current) -> NoDup (keysOf next))
  /\ (~ In key (keysOf current) -> Page.toggleFavorite result next = current).
Proof.
  intros key others next. subst next. unfold Page.toggleFavorite. cbv zeta.
  fold key. fold others.
  destruct (existsb _ current) eqn:E.
  - apply existsb_key in E.
    split.
    { unfold keysOf, others. rewrite filter_map_key. split.
      - intros H. now apply filter_removes_key in H.
      - intros H. contradiction. }
    split.
    { clear E. induction current as [|x l IH]; [reflexivity|].
      simpl. destruct (others x) eqn:Ex; simpl; rewrite ?Ex, IH; reflexivity. }
    split; [|intros H; contradiction].
    intros Hnd. unfold keysOf, others. rewrite filter_map_key.
    now apply NoDup_filter.
  - assert (Hout : ~ In key (keysOf current)).
    { intros H. apply existsb_key in H. fold key in H. congruence. }
    split.
    { split; [intros _; exact Hout | intros _; now left]. }
    split.
    { simpl. unfold others at 1. now rewrite String.eqb_refl. }
    split.
    { intros Hnd. simpl. now constructor. }
    intros _. cbn [existsb]. rewrite String.eqb_refl. cbn [orb filter].
    fold others. change (others result) with (negb (String.eqb key key)).
    rewrite String.eqb_refl. cbn [negb].
    apply forallb_filter_id. apply forallb_forall. intros x Hx.
    unfold others.
    destruct (String.eqb_spec (Page.getResultKey x) key) as [Ek|_]; [|reflexivity].
    exfalso. apply Hout. unfold keysOf. rewrite <- Ek. now apply in_map.
Qed.

(** X24: the star of a card.  Toggling a favorite flips whether the key
    of the card is among the keys of the favorites; it leaves the
    favorites with other keys as they are, in their order; it keeps the
    keys of the favorites distinct; and for a card whose key is not among
    them, toggling twice gives the favorites back. *)
Theorem X24_toggle_favorite (result : SearchResult.t) (current : list SearchResult.t) :
  let key := Page.getResultKey result in
  let others := fun item => negb (String.eqb (Page.getResultKey item) key) in
  let next := Page.toggleFavorite result current in
  (In key (keysOf next) <-> ~ In key (keysOf current))
  /\ filter others next = filter others current
  /\ (NoDup (keysOf current) -> NoDup (keysOf next))
  /\ (~ In key (keysOf current) -> Page.toggleFavorite result next = current).
Proof. exact (toggleFavorite_facts result current). Qed.

Lemma toggleExpanded_facts (result : SearchResult.t) (current : list string) :
  let key := Page.getResultKey result in
  let others := fun item => negb (String.eqb item key) in
  let next := Page.toggleExpanded result current in
  (In key next <-> ~ In key current)
  /\ filter others next = filter others current
  /\ (NoDup current -> NoDup next)
  /\ (~ In key current -> Page.toggleExpanded result next = current).
Proof.
  intros key others next. subst next. unfold Page.toggleExpanded. cbv zeta.
  fold key. fold others.
  destruct (existsb (String.eqb key) current) eqn:E.
  - apply existsb_eqb_In in E.
    split.
    { split; [intros H; now apply filter_removes_key in H | intros H; contradiction]. }
    split.
    { clear E. induction current as [|x l IH]; [reflexivity|].
      simpl. destruct (others x) eqn:Ex; simpl; rewrite ?Ex, IH; reflexivity. }
    split; [intros Hnd; now apply NoDup_filter | intros H; contradiction].
  - assert (Hout : ~ In key current).
    { intros H. apply existsb_eqb_In in H. congruence. }
    split.
    { split; [intros _; exact Hout | intros _; apply in_or_app; right; now left]. }
    split.
    { rewrite filter_app. cbn [filter].
      change (others key) with (negb (String.eqb key key)).
      rewrite String.eqb_refl. apply app_nil_r. }
    split.
    { intros Hnd. apply NoDup_app; [exact Hnd | repeat constructor; intros [] |].
      intros x Hx [<-|[]]. contradiction. }
    intros _.
    assert (Hin : existsb (String.eqb key) (current ++ [key]) = true).
    { apply existsb_eqb_In, in_or_app. right. now left. }
    rewrite Hin, filter_app. cbn [filter]. fold others.
    change (others key) with (negb (String.eqb key key)).
    rewrite String.eqb_refl. cbn [negb]. rewrite app_nil_r.
    now apply filter_key_absent.
Qed.

(** X25: the expanded cards.  Toggling a card flips whether its key is
    among the expanded keys; it leaves the other keys as they are, in
    their order; it keeps the keys distinct; and for a card that is not
    expanded, toggling twice gives the list back. *)
Theorem X25_toggle_expanded (result : SearchResult.t) (current : list string) :
  let key := Page.getResultKey result in
  let others := fun item => negb (String.eqb item key) in
  let next := Page.toggleExpanded result current in
  (In key next <-> ~ In key current)
  /\ filter others next = filter others current
  /\ (NoDup current -> NoDup next)
  /\ (~ In key current -> Page.toggleExpanded result next = current).
Proof. exact (toggleExpanded_facts result current). Qed.

(* ================================================================= *)
(** ** The follow-up form of a card *)

Lemma put_same {V : Type} (key : string) (value : V) (obj : Page.Dict V) :
  Page.put key value obj key = Some value.
Proof. unfold Page.put. now rewrite String.eqb_refl. Qed.

Lemma put_other {V : Type} (key other : string) (value : V) (obj : Page.Dict V) :
  other <> key -> Page.put key value obj other = obj other.
Proof.
  intros H. unfold Page.put.
  destruct (String.eqb_spec other key); [contradiction | reflexivity].
Qed.

Lemma submitFollowUp_facts (result : SearchResult.t) (state : Page.Chat.t) :
  let key := Page.getResultKey result in
  let typed :=
    Js.trim (match Page.Chat.chatInputByResultKey state key with
             | Some text => text
             | None => ""
             end) in
  let next := Page.submitFollowUp result state in
  (typed = "" -> next = state)
  /\ (typed <> "" ->
      Page.historyOf next result
      = (Page.historyOf state result
         ++ [Page.ChatMessage.mk Page.user typed;
             Page.ChatMessage.mk Page.assistant
               (Page.buildFollowUpAnswer result typed (Page.historyOf state result))])%list
      /\ Page.Chat.chatInputByResultKey next key = Some "")
  /\ (forall other, other <> key ->
        Page.Chat.chatByResultKey next other = Page.Chat.chatByResultKey state other
        /\ Page.Chat.chatInputByResultKey next other
           = Page.Chat.chatInputByResultKey state other)
  /\ Page.submitFollowUp result next = next.
Proof.
  intros key typed next. subst next. unfold Page.submitFollowUp. cbv zeta.
  fold key. fold typed.
  assert (E : Js.trim (match Page.Chat.chatInputByResultKey state key with
                       | Some text => text
                       | None => ""
                       end) = typed) by reflexivity.
  clearbody typed. destruct typed as [|c tail].
  - cbn [Js.isEmpty]. split; [reflexivity|].
    split; [intros H; now contradiction H|].
    split; [intros other _; split; reflexivity|].
    rewrite E. reflexivity.
  - cbn [Js.isEmpty]. split; [discriminate|].
    split.
    { intros _. unfold Page.historyOf. cbn [Page.Chat.chatByResultKey
                                              Page.Chat.chatInputByResultKey].
      fold key. rewrite !put_same. split; reflexivity. }
    split.
    { intros other Hother. cbn [Page.Chat.chatByResultKey
                                  Page.Chat.chatInputByResultKey].
      now rewrite !put_other. }
    cbn [Page.Chat.chatInputByResultKey]. rewrite put_same. reflexivity.
Qed.

(** X26: submitting the follow-up form of a card.  A blank input leaves
    the state as it is; any other input appends to the conversation of
    the key of the card the trimmed question and the answer that the
    dispatcher gives for it on the conversation so far, and empties the
    input of that key; the conversations and inputs of the other keys
    stay as they are; and a second submission without typing changes
    nothing. *)
Theorem X26_submit_follow_up (result : SearchResult.t) (state : Page.Chat.t) :
  let key := Page.getResultKey result in
  let typed :=
    Js.trim (match Page.Chat.chatInputByResultKey state key with
             | Some text => text
             | None => ""
             end) in
  let next := Page.submitFollowUp result state in
  (typed = "" -> next = state)
  /\ (typed <> "" ->
      Page.historyOf next result
      = (Page.historyOf state result
         ++ [Page.ChatMessage.mk Page.user typed;
             Page.ChatMessage.mk Page.assistant
               (Page.buildFollowUpAnswer result typed (Page.historyOf state result))])%list
      /\ Page.Chat.chatInputByResultKey next key = Some "")
  /\ (forall other, other <> key ->
        Page.Chat.chatByResultKey next other = Page.Chat.chatByResultKey state other
        /\ Page.Chat.chatInputByResultKey next other
           = Page.Chat.chatInputByResultKey state other)
  /\ Page.submitFollowUp result next = next.
Proof. exact (submitFollowUp_facts result state). Qed.

Lemma pair_induction {A : Type} (P : list A -> Prop) :
  P [] -> (forall x, P [x]) -> (forall x y l, P l -> P (x :: y :: l)) ->
  forall l, P l.
Proof.
  intros H0 H1 H2 l.
  assert (H : P l /\ forall x, P (x :: l)).
  { induction l as [|y l [IH1 IH2]]; [split; [exact H0 | exact H1]|].
    split; [apply IH2|]. intros x. now apply H2. }
  exact (proj1 H).
Qed.

Lemma wellAnswered_snoc (key : string) (history : list Page.ChatMessage.t) :
  forall before question answer,
    wellAnswered key before history ->
    Page.ChatMessage.role question = Page.user ->
    Page.ChatMessage.text question <> "" ->
    (exists result,
        Page.getResultKey result = key
        /\ answer
           = Page.ChatMessage.mk Page.assistant
               (Page.buildFollowUpAnswer result (Page.ChatMessage.text question)
                                         (before ++ history)%list)) ->
    wellAnswered key before (history ++ [question; answer])%list.
Proof.
  induction history as [|x|x y l IH] using pair_induction;
    intros before question answer Hw Hrole Htext Hans.
  - rewrite app_nil_r in Hans. simpl. repeat split; assumption.
  - contradiction.
  - simpl in Hw. destruct Hw as [Hr [Ht [Ha Hrest]]].
    simpl. split; [exact Hr|]. split; [exact Ht|]. split; [exact Ha|].
    apply IH; try assumption.
    destruct Hans as [result [Hk Hans]]. exists result. split; [exact Hk|].
    rewrite <- app_assoc. exact Hans.
Qed.

Lemma step_well_answered (state : Page.Chat.t) (action : Page.Action) :
  (forall result,
      wellAnswered (Page.getResultKey result) [] (Page.historyOf state result)) ->
  forall result,
    wellAnswered (Page.getResultKey result) []
                 (Page.historyOf (Page.step state action) result).
Proof.
  intros Hinv result. destruct action as [card value|card]; simpl.
  - exact (Hinv result).
  - destruct (submitFollowUp_facts card state) as [Hblank [Htyped [Hother _]]].
    cbv zeta in Hblank, Htyped, Hother.
    destruct (Js.trim _) as [|c typed] eqn:E.
    + rewrite (Hblank eq_refl). exact (Hinv result).
    + destruct (string_dec (Page.getResultKey result) (Page.getResultKey card))
        as [Ek|Ek].
      * destruct (Htyped ltac:(discriminate)) as [Hh _].
        unfold Page.historyOf in *. rewrite Ek. rewrite Hh.
        apply wellAnswered_snoc.
        -- rewrite <- Ek. exact (Hinv result).
        -- reflexivity.
        -- discriminate.
        -- exists card. split; [now symmetry|]. reflexivity.
      * unfold Page.historyOf. rewrite (proj1 (Hother _ Ek)). exact (Hinv result).
Qed.

Lemma run_well_answered (actions : list Page.Action) :
  forall state,
    (forall result,
        wellAnswered (Page.getResultKey result) [] (Page.historyOf state result)) ->
    forall result,
      wellAnswered (Page.getResultKey result) []
                   (Page.historyOf (Page.run actions state) result).
Proof.
  unfold Page.run. induction actions as [|action actions IH]; intros state Hinv.
  - exact Hinv.
  - simpl. apply IH. now apply step_well_answered.
Qed.

(** X27: whatever is typed and submitted in the follow-up forms after a
    search, the conversation of every card is a sequence of pairs: a
    question of the user that is not empty, and the answer that the
    dispatcher gave to it for a card with the same key on the part of the
    conversation in front of the question. *)
Theorem X27_conversations_well_formed
        (actions : list Page.Action) (result : SearchResult.t) :
  wellAnswered (Page.getResultKey result) []
               (Page.historyOf (Page.run actions Page.clearedChat) result).
Proof.
  apply run_well_answered. intros card. exact I.
Qed.

Lemma step_history_grows (state : Page.Chat.t) (action : Page.Action)
      (result : SearchResult.t) :
  exists added,
    Page.historyOf (Page.step state action) result
    = (Page.historyOf state result ++ added)%list
    /\ (added = [] \/ exists question answer,
           added = [Page.ChatMessage.mk Page.user question;
                    Page.ChatMessage.mk Page.assistant answer]).
Proof.
  destruct action as [card value|card]; simpl.
  - exists []. split; [now rewrite app_nil_r | now left].
  - destruct (submitFollowUp_facts card state) as [Hblank [Htyped [Hother _]]].
    cbv zeta in Hblank, Htyped, Hother.
    destruct (Js.trim _) as [|c typed] eqn:E.
    + rewrite (Hblank eq_refl). exists []. split; [now rewrite app_nil_r | now left].
    + destruct (string_dec (Page.getResultKey result) (Page.getResultKey card))
        as [Ek|Ek].
      * destruct (Htyped ltac:(discriminate)) as [Hh _].
        unfold Page.historyOf in *. rewrite Ek, Hh.
        eexists. split; [reflexivity|]. right. eexists. eexists. reflexivity.
      * unfold Page.historyOf. rewrite (proj1 (Hother _ Ek)).
        exists []. split; [now rewrite app_nil_r | now left].
Qed.

Lemma run_history_grows (actions : list Page.Action) (result : SearchResult.t) :
  forall state,
    exists added,
      Page.historyOf (Page.run actions state) result
      = (Page.historyOf state result ++ added)%list
      /\ List.length added <= 2 * List.length actions.
Proof.
  unfold Page.run. induction actions as [|action actions IH]; intros state.
  - exists []. split; [now rewrite app_nil_r | simpl; lia].
  - cbn [fold_left].
    destruct (IH (Page.step state action)) as [later [Hlater Hlen]].
    destruct (step_history_grows state action result) as [added [Hadded Hshape]].
    exists (added ++ later)%list. split.
    + rewrite Hlater, Hadded. now rewrite app_assoc.
    + rewrite length_app. cbn [List.length].
      destruct Hshape as [->|[question [answer ->]]]; simpl; lia.
Qed.

(** X28: typing and submitting never rewrite a conversation: after any
    sequence of such actions, from any state, the conversation of a card
    is the one it had, followed by at most two new messages for each
    action. *)
Theorem X28_conversation_only_grows
        (actions : list Page.Action) (state : Page.Chat.t) (result : SearchResult.t) :
  exists added,
    Page.historyOf (Page.run actions state) result
    = (Page.historyOf state result ++ added)%list
    /\ List.length added <= 2 * List.length actions.
Proof. exact (run_history_grows actions result state). Qed.

(* ================================================================= *)
(** ** Sorting, deduplication and the limit of the live route *)

Lemma linkPost_response :
  Live.GET (Some "sentinel") None [Some linkPost]
  = Ok "sentinel" howto
       [Live.toSearchResultFromReddit (Some linkPost) "sentinel" howto].
Proof.
  unfold Live.GET.
  change (option_map Js.trim (Some "sentinel")) with (Some "sentinel").
  cbv iota beta zeta.
  change (Live.tokenize "sentinel") with ["sentinel"].
  unfold Live.dedupedRanked.
  change (Live.wellFormed [Some linkPost]) with [linkPost].
  simpl map at 2. simpl filter. rewrite linkPost_admitted.
  reflexivity.
Qed.

(** C5: in every response of the live route with results, the admitted
    posts are sorted by quality score, largest first, posts of equal
    score keeping their order.  The deduplication goes through the
    sorted posts and retains the first occurrence of every non-empty
    normalized title - exactly one post of each such title, whose score
    is at least that of every post of the title - and a post whose
    normalized title is empty only as the very first post.  The results
    are the cards of the first 8 retained posts, in that order, so at
    most 8; with no retained post the one result is the no-match card. *)
Theorem C5_sort_dedupe_limit
        (q typeParam : option string) (children : list (option Live.RedditPost.t))
        (query : string) (type : SearchType) (results : list SearchResult.t) :
  Live.GET q typeParam children = Ok query type results ->
  let admitted :=
    filter (Live.admits (Live.tokenize query))
           (map (Live.scorePost (Live.tokenize query) type)
                (Live.wellFormed children)) in
  let sorted := Live.sortByQuality admitted in
  let kept := firstOccurrences [] sorted in
  (Permutation sorted admitted
   /\ StronglySorted
        (fun a b => (Live.Scored.qualityScore b <= Live.Scored.qualityScore a)%R)
        sorted
   /\ forall v, filter (hasQuality v) sorted = filter (hasQuality v) admitted)
  /\ (forall t, t <> "" ->
        filter (hasTitleKey t) kept
        = match find (hasTitleKey t) sorted with
          | Some first => [first]
          | None => []
          end)
  /\ (forall x y, In x sorted -> In y kept ->
        Live.titleKey x = Live.titleKey y -> Live.titleKey y <> "" ->
        (Live.Scored.qualityScore x <= Live.Scored.qualityScore y)%R)
  /\ filter (hasTitleKey "") kept
     = match sorted with
       | first :: _ => if hasTitleKey "" first then [first] else []
       | [] => []
       end
  /\ results
     = match firstn 8 kept with
       | [] => [Live.buildNoMatchResult query type]
       | retained =>
           map (fun item =>
                  Live.toSearchResultFromReddit (Some (Live.Scored.post item))
                                                query type)
               retained
       end
  /\ List.length results <= 8.
Proof.
  intros Hget admitted sorted kept.
  assert (Hkept : Live.dedupe sorted = kept).
  { unfold Live.dedupe, Js.filteri. exact (dedupe_firstOccurrences sorted []). }
  destruct (sort_dedupe_facts admitted) as [Hsort [Htitle [Hbest Hempty]]].
  cbv zeta in Hsort, Htitle, Hbest, Hempty.
  fold sorted in Hsort, Htitle, Hbest, Hempty.
  rewrite Hkept in Htitle, Hbest, Hempty.
  assert (Hresults :
            results
            = match firstn 8 kept with
              | [] => [Live.buildNoMatchResult query type]
              | retained =>
                  map (fun item =>
                         Live.toSearchResultFromReddit
                           (Some (Live.Scored.post item)) query type)
                      retained
              end).
  { unfold Live.GET in Hget.
    destruct (option_map Js.trim q) as [[|c text]|]; try discriminate.
    cbv zeta in Hget.
    set (ty := match typeParam with
               | Some t => if String.eqb t "where" then where_ else howto
               | None => howto
               end) in Hget.
    set (ranked := firstn 8 (Live.dedupedRanked children _ ty)) in Hget.
    injection Hget as Hq Ht Hr. subst query type results.
    assert (Hranked : ranked = firstn 8 kept).
    { subst ranked kept sorted admitted. unfold Live.dedupedRanked.
      now rewrite <- Hkept. }
    rewrite <- Hranked. now destruct ranked. }
  split; [exact Hsort|]. split; [exact Htitle|]. split; [exact Hbest|].
  split; [exact Hempty|]. split; [exact Hresults|].
  rewrite Hresults. assert (Hlen := firstn_le_length 8 kept).
  destruct (firstn 8 kept) as [|item retained].
  - simpl. lia.
  - rewrite length_map. exact Hlen.
Qed.

(** An instance: the response for the query "sentinel" and the one post
    [linkPost]. *)
Lemma C5_dedupe_witness :
  let admitted :=
    filter (Live.admits (Live.tokenize "sentinel"))
           (map (Live.scorePost (Live.tokenize "sentinel") howto)
                (Live.wellFormed [Some linkPost])) in
  [Live.toSearchResultFromReddit (Some linkPost) "sentinel" howto]
  = match firstn 8 (firstOccurrences [] (Live.sortByQuality admitted)) with
    | [] => [Live.buildNoMatchResult "sentinel" howto]
    | retained =>
        map (fun item =>
               Live.toSearchResultFromReddit (Some (Live.Scored.post item))
                                             "sentinel" howto)
            retained
    end
  /\ List.length [Live.toSearchResultFromReddit (Some linkPost) "sentinel" howto]
     <= 8.
Proof.
  exact (proj2 (proj2 (proj2 (proj2
           (C5_sort_dedupe_limit (Some "sentinel") None [Some linkPost]
              "sentinel" howto
              [Live.toSearchResultFromReddit (Some linkPost) "sentinel" howto]
              linkPost_response))))).
Defined.

(* ================================================================= *)
(** ** The selected sentences on the live cards *)








(* ================================================================= *)
(** ** The location branch of the dispatcher on the cards *)

Lemma table_where_texts (entry : Curated.KnowledgeEntry.t) :
  In entry Curated.LOCAL_KNOWLEDGE ->
  Js.includes (Curated.KnowledgeEntry.whereToFind entry) LF = false.
Proof.
  intros Hin. simpl in Hin.
  repeat (destruct Hin as [<-|Hin]; [vm_compute; reflexivity|]).
  contradiction.
Qed.

(** C9, as the claim states it, fails on the no-match cards: their
    details hold no where-to-find line, and the location branch answers
    with the first line of the notice. *)
Lemma C9_no_match_card_first_line :
  let question := "where is the best tip to find this" in
  Page.asksWhere (Page.normalize question) = true
  /\ whereToFindLine (Live.buildNoMatchResult "warp cell" howto) = None
  /\ Page.buildFollowUpAnswer (Live.buildNoMatchResult "warp cell" howto) question []
     = "Where-to-find summary:" ++ LF
       ++ "Live search returned no strong match in this pass."
  /\ whereToFindLine (Curated.buildNoMatchResult "warp cell" howto) = None
  /\ Page.buildFollowUpAnswer (Curated.buildNoMatchResult "warp cell" howto)
                              question []
     = "Where-to-find summary:" ++ LF
       ++ "The app is in local-only mode, so it only searches built-in data.".
Proof.
  cbv zeta. repeat split; vm_compute; reflexivity.
Qed.

(** C9 (amended): for every answer card and every conversation history,
    a follow-up question whose normalized form contains "where", "find"
    or "location" is answered by the location branch, whatever tip words
    it also holds: the answer is "Where-to-find summary:" and the first
    line of the details of the card.  The question "where is the best tip
    to find this" holds words of both kinds.  On a curated card (for an
    entry whose where text holds no line feed, as every entry of the
    table) and on a live card built from a post that first line is the
    where-to-find line of the card; on the no-match cards of the two
    routes, which have no where-to-find line, it is the first line of the
    notice. *)
Theorem C9_location_branch_first :
  (forall (result : SearchResult.t) (question : string)
          (history : list Page.ChatMessage.t),
      Page.asksWhere (Page.normalize question) = true ->
      Page.buildFollowUpAnswer result question history
      = "Where-to-find summary:" ++ LF
        ++ hd "" (Js.split "010" (SearchResult.details result)))
  /\ (Page.asksWhere (Page.normalize "where is the best tip to find this") = true
      /\ Page.asksTip (Page.normalize "where is the best tip to find this") = true)
  /\ (forall (entry : Curated.KnowledgeEntry.t) (type : SearchType)
             (question : string) (history : list Page.ChatMessage.t),
         Page.asksWhere (Page.normalize question) = true ->
         Js.includes (Curated.KnowledgeEntry.whereToFind entry) LF = false ->
         Page.buildFollowUpAnswer (Curated.toSearchResult entry type) question history
         = "Where-to-find summary:" ++ LF ++ "Where to find: "
           ++ Curated.KnowledgeEntry.whereToFind entry
         /\ whereToFindLine (Curated.toSearchResult entry type)
            = Some ("Where to find: " ++ Curated.KnowledgeEntry.whereToFind entry))
  /\ (forall entry, In entry Curated.LOCAL_KNOWLEDGE ->
         Js.includes (Curated.KnowledgeEntry.whereToFind entry) LF = false)
  /\ (forall (post : option Live.RedditPost.t) (query : string) (type : SearchType)
             (question : string) (history : list Page.ChatMessage.t),
         Page.asksWhere (Page.normalize question) = true ->
         Page.buildFollowUpAnswer (Live.toSearchResultFromReddit post query type)
                                  question history
         = "Where-to-find summary:" ++ LF ++ "Where to find: "
           ++ Js.join " " (liveWhereLines post query)
         /\ whereToFindLine (Live.toSearchResultFromReddit post query type)
            = Some ("Where to find: " ++ Js.join " " (liveWhereLines post query)))
  /\ (forall (query : string) (type : SearchType)
             (question : string) (history : list Page.ChatMessage.t),
         Page.asksWhere (Page.normalize question) = true ->
         (Page.buildFollowUpAnswer (Live.buildNoMatchResult query type)
                                   question history
          = "Where-to-find summary:" ++ LF
            ++ "Live search returned no strong match in this pass."
          /\ whereToFindLine (Live.buildNoMatchResult query type) = None)
         /\ (Page.buildFollowUpAnswer (Curated.buildNoMatchResult query type)
                                      question history
             = "Where-to-find summary:" ++ LF
               ++ "The app is in local-only mode, so it only searches built-in data."
             /\ whereToFindLine (Curated.buildNoMatchResult query type) = None)).
Proof.
  split; [exact location_first_line|].
  split; [split; vm_compute; reflexivity|].
  split.
  { intros entry type question history Hq Hnl.
    rewrite (location_first_line _ _ _ Hq), (curated_first_line entry type Hnl).
    split; [reflexivity|].
    unfold whereToFindLine.
    assert (Hhd := curated_first_line entry type Hnl).
    destruct (Js.split "010" (SearchResult.details (Curated.toSearchResult entry type)))
      as [|line lines]; simpl in Hhd.
    - destruct (Curated.KnowledgeEntry.whereToFind entry); discriminate.
    - subst line. reflexivity. }
  split; [exact table_where_texts|].
  split.
  { intros post query type question history Hq.
    rewrite (location_first_line _ _ _ Hq).
    unfold whereToFindLine. rewrite (live_detail_lines post query type).
    split; reflexivity. }
  intros query type question history Hq.
  rewrite !(location_first_line _ _ _ Hq).
  destruct type; repeat split; reflexivity.
Qed.

(** An instance: the question with words of both kinds on the card of
    the first entry of the table. *)
Lemma C9_location_witness :
  Page.buildFollowUpAnswer
    (Curated.toSearchResult (nth 0 Curated.LOCAL_KNOWLEDGE emptyEntry) howto)
    "where is the best tip to find this" []
  = "Where-to-find summary:" ++ LF ++ "Where to find: "
    ++ Curated.KnowledgeEntry.whereToFind (nth 0 Curated.LOCAL_KNOWLEDGE emptyEntry).
Proof.
  apply (proj1 (proj2 (proj2 C9_location_branch_first))
           (nth 0 Curated.LOCAL_KNOWLEDGE emptyEntry) howto
           "where is the best tip to find this" []).
  - vm_compute. reflexivity.
  - vm_compute. reflexivity.
Defined.
